(** * redis-scratch: the length-prefixed framing layer

    A shallow embedding of the server ([one_request], [read_full],
    [write_full] and the accept loop of [main]) and of the client
    ([query] and its [main]) of the repository, with the properties of
    the framing protocol stated against it.

    - Go [int] is a 64-bit signed integer and [uint32] a 32-bit unsigned
      one; both are values of [Z] and every arithmetic operation of the
      source is followed by its wrap-around.
    - A [[]byte] is a slice header (array, base, len, cap) over a heap of
      backing arrays, so that the sub-slices the source takes alias the
      buffer they were taken from, and a slice expression out of range
      panics as the Go runtime does.
    - An [error] is the text that [fmt.Errorf] builds.
    - A descriptor is a stream endpoint whose peer and kernel are given by
      the bytes in flight and by a plan of how the next system calls
      behave. *)

From Stdlib Require Import ZArith List Bool Lia String Ascii.
From Stdlib Require Import Strings.Byte DecimalString.
Import ListNotations.

Local Open Scope string_scope.
Local Open Scope list_scope.
Local Open Scope Z_scope.

(** ** Machine integers and bytes *)

Definition wrap_int (z : Z) : Z := (z + 2 ^ 63) mod 2 ^ 64 - 2 ^ 63.
Definition wrap_uint32 (z : Z) : Z := z mod 2 ^ 32.

Definition int_add (a b : Z) : Z := wrap_int (a + b).
Definition int_sub (a b : Z) : Z := wrap_int (a - b).
Definition uint32_add (a b : Z) : Z := wrap_uint32 (a + b).

(** [byte(v)]: the conversion keeps the low eight bits. *)
Definition byte_of_Z (v : Z) : byte :=
  match Byte.of_N (Z.to_N (v mod 256)) with
  | Some b => b
  | None => x00
  end.

(** [uint32(b)] for a byte [b]. *)
Definition Z_of_byte (b : byte) : Z := Z.of_N (Byte.to_N b).

Definition kMaxMsg : Z := 4096.

(** The line feed that [fmt.Println] and the ["\n"] of the format strings
    write. *)
Definition nl : string := String (ascii_of_nat 10) EmptyString.

(** [%d] of a non-negative integer. *)
Definition fmt_d (z : Z) : string := NilZero.string_of_int (Z.to_int z).

(** ** Slices over a heap of backing arrays *)

Record slice := mkSlice {
  sarr : nat;   (* which backing array *)
  sbase : Z;    (* index of the slice's element 0 in that array *)
  slen : Z;
  scap : Z
}.

Definition heap := list (list byte).

(** The bytes of array [a]. *)
Definition array_of (h : heap) (a : nat) : list byte := nth a h [].

Fixpoint set_array (h : heap) (a : nat) (bs : list byte) : heap :=
  match h, a with
  | [], _ => []
  | _ :: t, O => bs :: t
  | x :: t, S a' => x :: set_array t a' bs
  end.

(** Overwrite [l] from position [pos] on with [data] (which fits). *)
Definition store (l : list byte) (pos : nat) (data : list byte) : list byte :=
  firstn pos l ++ data ++ skipn (pos + List.length data) l.

(** The [slen s] bytes a slice denotes. *)
Definition bytes_of (h : heap) (s : slice) : list byte :=
  firstn (Z.to_nat (slen s)) (skipn (Z.to_nat (sbase s)) (array_of h (sarr s))).

Definition write_bytes (h : heap) (s : slice) (data : list byte) : heap :=
  set_array h (sarr s) (store (array_of h (sarr s)) (Z.to_nat (sbase s)) data).

(** ** The stream endpoint behind a descriptor *)

(** How the kernel answers one [read] or [write]: with an errno (given by
    its text, the only thing the program does with it), or by moving at
    most [c] bytes. *)
Inductive xfer :=
| Fails (e : string)
| UpTo (c : nat).

Inductive event :=
| EvRead (offered : nat) (got : option nat)
| EvWrite (offered : nat) (taken : option nat)
| EvClose.

Record endpoint := mkEndpoint {
  rx : list byte;        (* what the peer sends before it closes, not yet read *)
  rx_plan : list xfer;   (* answers to the next reads; once used up, a read
                            returns all that is there and fits *)
  tx : list byte;        (* what the kernel has accepted from this side *)
  tx_plan : list xfer;   (* answers to the next writes; once used up, a write
                            takes all it is offered *)
  calls : list event     (* the system calls issued, oldest first *)
}.

(** ** Program state, outcomes and the monad of the embedding *)

Record state := mkState {
  conn : endpoint;
  mem : heap;
  stdout : list string
}.

Inductive outcome (A : Type) :=
| Ok (a : A) (st : state)
| Panic (msg : string) (st : state)
| OutOfFuel (st : state).
Arguments Ok {A} a st.
Arguments Panic {A} msg st.
Arguments OutOfFuel {A} st.

Definition M (A : Type) : Type := state -> outcome A.

Definition ret {A} (a : A) : M A := fun st => Ok a st.

Definition bind {A B} (m : M A) (f : A -> M B) : M B := fun st =>
  match m st with
  | Ok a st' => f a st'
  | Panic msg st' => Panic msg st'
  | OutOfFuel st' => OutOfFuel st'
  end.

Definition panic {A} (msg : string) : M A := fun st => Panic msg st.

Declare Scope go_scope.
Delimit Scope go_scope with go.
Notation "x <- m ;; k" := (bind m (fun x => k))
  (at level 100, m at next level, right associativity) : go_scope.
Notation "m ;;; k" := (bind m (fun _ => k))
  (at level 100, right associativity) : go_scope.
Local Open Scope go_scope.

(** An [error] value: [None] is [nil]. *)
Definition error := option string.

(** [fmt.Print*] of an already formatted text. *)
Definition print (s : string) : M unit := fun st =>
  Ok tt (mkState (conn st) (mem st) (stdout st ++ [s])).

(** [make([]byte, n)]: a fresh zeroed array and the slice of all of it. *)
Definition make (n : Z) : M slice := fun st =>
  if n <? 0 then Panic "makeslice: len out of range" st
  else Ok (mkSlice (List.length (mem st)) 0 n n)
          (mkState (conn st) (mem st ++ [repeat x00 (Z.to_nat n)]) (stdout st)).

(** [s[lo:hi]]: for a slice the upper limit is the capacity. *)
Definition reslice (s : slice) (lo hi : Z) : M slice :=
  if (0 <=? lo) && (lo <=? hi) && (hi <=? scap s)
  then ret (mkSlice (sarr s) (sbase s + lo) (hi - lo) (scap s - lo))
  else panic "slice bounds out of range".

(** [string(s)]. *)
Definition string_of (s : slice) : M string := fun st =>
  Ok (string_of_list_byte (bytes_of (mem st) s)) st.

(** [copy(dst, src)] from a string or byte sequence: the shorter length
    decides; returns the number of bytes copied. *)
Definition copy (dst : slice) (src : list byte) : M Z := fun st =>
  let n := Nat.min (Z.to_nat (slen dst)) (List.length src) in
  Ok (Z.of_nat n)
     (mkState (conn st) (write_bytes (mem st) dst (firstn n src)) (stdout st)).

(** [binary.LittleEndian.Uint32(b)]. *)
Definition le_uint32 (bs : list byte) : Z :=
  Z.lor (Z.lor (Z.lor (Z_of_byte (nth 0 bs x00))
                      (Z.shiftl (Z_of_byte (nth 1 bs x00)) 8))
               (Z.shiftl (Z_of_byte (nth 2 bs x00)) 16))
        (Z.shiftl (Z_of_byte (nth 3 bs x00)) 24).

Definition Uint32 (b : slice) : M Z := fun st =>
  if slen b <? 4 then Panic "index out of range" st
  else Ok (le_uint32 (bytes_of (mem st) b)) st.

(** [binary.LittleEndian.PutUint32(b, v)]. *)
Definition le_bytes32 (v : Z) : list byte :=
  [byte_of_Z v; byte_of_Z (Z.shiftr v 8);
   byte_of_Z (Z.shiftr v 16); byte_of_Z (Z.shiftr v 24)].

Definition PutUint32 (b : slice) (v : Z) : M unit := fun st =>
  if slen b <? 4 then Panic "index out of range" st
  else Ok tt (mkState (conn st) (write_bytes (mem st) b (le_bytes32 v)) (stdout st)).

(** ** System calls *)

Definition next_xfer (plan : list xfer) : option xfer * list xfer :=
  match plan with
  | [] => (None, [])
  | x :: rest => (Some x, rest)
  end.

(** How many bytes one call moves: never more than offered, nor than
    there are, nor than the plan allows. *)
Definition granted (x : option xfer) (offered avail : nat) : nat :=
  match x with
  | Some (UpTo c) => Nat.min offered (Nat.min c avail)
  | _ => Nat.min offered avail
  end.

(** [syscall.Read(fd, p)]: the pair [(n, err)]. *)
Definition syscall_Read (p : slice) : M (Z * error) := fun st =>
  let ep := conn st in
  let offered := Z.to_nat (slen p) in
  let '(x, plan) := next_xfer (rx_plan ep) in
  match x with
  | Some (Fails e) =>
      Ok (-1, Some e)
         (mkState (mkEndpoint (rx ep) plan (tx ep) (tx_plan ep)
                              (calls ep ++ [EvRead offered None]))
                  (mem st) (stdout st))
  | _ =>
      let n := granted x offered (List.length (rx ep)) in
      Ok (Z.of_nat n, None)
         (mkState (mkEndpoint (skipn n (rx ep)) plan (tx ep) (tx_plan ep)
                              (calls ep ++ [EvRead offered (Some n)]))
                  (write_bytes (mem st) p (firstn n (rx ep))) (stdout st))
  end.

(** [syscall.Write(fd, p)]. *)
Definition syscall_Write (p : slice) : M (Z * error) := fun st =>
  let ep := conn st in
  let data := bytes_of (mem st) p in
  let offered := Z.to_nat (slen p) in
  let '(x, plan) := next_xfer (tx_plan ep) in
  match x with
  | Some (Fails e) =>
      Ok (-1, Some e)
         (mkState (mkEndpoint (rx ep) (rx_plan ep) (tx ep) plan
                              (calls ep ++ [EvWrite offered None]))
                  (mem st) (stdout st))
  | _ =>
      let n := granted x offered offered in
      Ok (Z.of_nat n, None)
         (mkState (mkEndpoint (rx ep) (rx_plan ep) (tx ep ++ firstn n data) plan
                              (calls ep ++ [EvWrite offered (Some n)]))
                  (mem st) (stdout st))
  end.

(** [syscall.Close(fd)]. *)
Definition syscall_Close : M unit := fun st =>
  let ep := conn st in
  Ok tt (mkState (mkEndpoint (rx ep) (rx_plan ep) (tx ep) (tx_plan ep)
                             (calls ep ++ [EvClose]))
                 (mem st) (stdout st)).

(** ** The program

    The descriptor argument of the source's functions is the [conn] of
    the state they run in. *)

(** [read_full(fd, buf, len)], part_000 and client/redis_client.go lines
    25-45. Each round of the loop needs one unit of fuel; [read_full]
    starts with [len] units. *)
Fixpoint read_full_loop (fuel : nat) (buf : slice) (offset len : Z) : M error :=
  if len >? 0 then
    match fuel with
    | O => fun st => OutOfFuel st
    | S fuel' =>
        p <- reslice buf offset len ;;
        r <- syscall_Read p ;;
        match snd r with
        | Some e => ret (Some ("Error reading from socket: " ++ e)%string)
        | None =>
            if fst r =? 0 then ret (Some "EOF reading from socket")
            else read_full_loop fuel' buf (int_add offset (fst r)) (int_sub len (fst r))
        end
    end
  else ret None.

Definition read_full (buf : slice) (len : Z) : M error :=
  read_full_loop (Z.to_nat len) buf 0 len.

(** [write_full(fd, buf)], lines 60-80. *)
Fixpoint write_full_loop (fuel : nat) (buf : slice) (offset total : Z) : M error :=
  if total >? 0 then
    match fuel with
    | O => fun st => OutOfFuel st
    | S fuel' =>
        p <- reslice buf offset total ;;
        r <- syscall_Write p ;;
        match snd r with
        | Some e => ret (Some ("Error writing to socket: " ++ e)%string)
        | None =>
            if fst r =? 0 then ret (Some "write returned 0, unexpected")
            else write_full_loop fuel' buf (int_add offset (fst r)) (int_sub total (fst r))
        end
    end
  else ret None.

Definition write_full (buf : slice) : M error :=
  write_full_loop (Z.to_nat (slen buf)) buf 0 (slen buf).

(** [one_request(connfd)], part_000 lines 100-143. [length] is a
    [uint32]: [4+length] wraps at 32 bits, and [int(length)] is the same
    number. *)
Definition one_request : M error :=
  rbuf <- make (4 + kMaxMsg) ;;
  err <- read_full rbuf 4 ;;
  match err with
  | Some e =>
      print ("Error reading from socket: " ++ e ++ nl)%string ;;;
      ret (Some e)
  | None =>
      hdr <- reslice rbuf 0 4 ;;
      length <- Uint32 hdr ;;
      if length >? kMaxMsg then
        print ("too long" ++ nl)%string ;;;
        ret (Some ("message too long: " ++ fmt_d length)%string)
      else
        body <- reslice rbuf 4 (uint32_add 4 length) ;;
        err <- read_full body length ;;
        match err with
        | Some e =>
            print ("read() error: " ++ e ++ nl)%string ;;;
            ret (Some e)
        | None =>
            body <- reslice rbuf 4 (uint32_add 4 length) ;;
            said <- string_of body ;;
            print ("client says: " ++ said ++ nl)%string ;;;
            let reply := list_byte_of_string "Hello world!!" in
            let replyLen := wrap_uint32 (Z.of_nat (List.length reply)) in
            wbuf <- make (uint32_add 4 replyLen) ;;
            hdr <- reslice wbuf 0 4 ;;
            PutUint32 hdr replyLen ;;;
            rest <- reslice wbuf 4 (slen wbuf) ;;
            _ <- copy rest reply ;;
            err <- write_full wbuf ;;
            match err with
            | Some e =>
                print ("write_all() error: " ++ e ++ nl)%string ;;;
                ret (Some e)
            | None => ret None
            end
        end
  end.

(** [query(fd, text)], client/redis_client.go lines 99-145, in its two
    phases: the request is built and written (lines 101-116), then the
    response is read (lines 118-144). *)
Definition query_send (text : string) : M error :=
  let length := Z.of_nat (String.length text) in
  if length >? kMaxMsg then ret (Some "message too long")
  else
    wbuf <- make (int_add 4 length) ;;
    hdr <- reslice wbuf 0 4 ;;
    PutUint32 hdr (wrap_uint32 length) ;;;
    rest <- reslice wbuf 4 (slen wbuf) ;;
    _ <- copy rest (list_byte_of_string text) ;;
    err <- write_full wbuf ;;
    match err with
    | Some e => ret (Some ("write_all error: " ++ e)%string)
    | None => ret None
    end.

Definition query_recv : M error :=
  rbuf <- make (4 + kMaxMsg + 1) ;;
  hdr <- reslice rbuf 0 4 ;;
  err <- read_full hdr 4 ;;
  match err with
  | Some e => ret (Some e)
  | None =>
      hdr <- reslice rbuf 0 4 ;;
      replyLen <- Uint32 hdr ;;
      if replyLen >? kMaxMsg then
        print ("too long" ++ nl)%string ;;;
        ret (Some ("response too long: " ++ fmt_d replyLen)%string)
      else
        body <- reslice rbuf 4 (uint32_add 4 replyLen) ;;
        err <- read_full body replyLen ;;
        match err with
        | Some e =>
            print ("read() error: " ++ e ++ nl)%string ;;;
            ret (Some e)
        | None =>
            body <- reslice rbuf 4 (uint32_add 4 replyLen) ;;
            said <- string_of body ;;
            print ("server says: " ++ said ++ nl)%string ;;;
            ret None
        end
  end.

Definition query (text : string) : M error :=
  err <- query_send text ;;
  match err with
  | Some e => ret (Some e)
  | None => query_recv
  end.

(** The client's [main], client/redis_client.go lines 159-299. The
    results of [socket] and [connect] come from the environment; the
    state's [conn] is the endpoint the two calls set up. *)
Definition client_main (socket_err connect_err : error) : M unit :=
  match socket_err with
  | Some e => print ("Error creating socket: " ++ e ++ nl)%string
  | None =>
      match connect_err with
      | Some e => print ("Error connecting to server: " ++ e ++ nl)%string
      | None =>
          print ("Connected to Redis server at 127.0.0.1:8000" ++ nl)%string ;;;
          _ <- query "PING" ;;
          syscall_Close ;;;
          print ("Connection closed" ++ nl)%string
      end
  end.

(** The accept loop of the server's [main], part_000 lines 330-361.
    What [accept] returns comes from the environment, call after call:
    an errno, or the peer's address (as [%v] prints it) with the new
    connection. When the list is used up no further peer connects and
    the loop stays blocked in [accept]. *)
Inductive accepted :=
| AcceptErr (e : string)
| Accepted (sa : string) (ep : endpoint).

Inductive ending :=
| Blocked                (* waiting in [accept] *)
| AcceptFailed           (* [main] returned *)
| Crashed (msg : string) (* a panic unwound [main] *)
| Starved.               (* a loop of the model ran out of fuel *)

Record server_run := mkRun {
  served : list endpoint;      (* the connections the loop is done with, as it left them *)
  in_hand : option endpoint;   (* the connection being handled when the process died *)
  run_mem : heap;
  run_stdout : list string;
  ended : ending
}.

Fixpoint accept_loop (incoming : list accepted) (done : list endpoint)
    (h : heap) (out : list string) : server_run :=
  match incoming with
  | [] => mkRun done None h out Blocked
  | AcceptErr e :: _ =>
      mkRun done None h
            (out ++ [("Error accepting connection: " ++ e ++ nl)%string])
            AcceptFailed
  | Accepted sa ep :: rest =>
      match (print ("Accepted connection from " ++ sa ++ nl)%string ;;;
             _ <- one_request ;;
             syscall_Close) (mkState ep h out) with
      | Ok _ st => accept_loop rest (done ++ [conn st]) (mem st) (stdout st)
      | Panic msg st => mkRun done (Some (conn st)) (mem st) (stdout st) (Crashed msg)
      | OutOfFuel st => mkRun done (Some (conn st)) (mem st) (stdout st) Starved
      end
  end.

(** ** The frame of the specification

    Sections 3 and 6 of the specification: a 4-byte unsigned
    little-endian length followed by that many bytes of payload. This is
    the specification's [encodeFrame], against which what the program
    writes and reads is compared. *)
Definition encodeFrame (m : list byte) : list byte :=
  le_bytes32 (Z.of_nat (List.length m)) ++ m.

(** ** Endpoints and runs used in the statements *)

(** A fresh connection on which the peer sends [bytes] and then closes,
    with the kernel following the given plans. *)
Definition connection (bytes : list byte) (rplan wplan : list xfer) : endpoint :=
  mkEndpoint bytes rplan [] wplan [].

(** A kernel that moves one byte per call, for [k] calls. *)
Definition byte_by_byte (k : nat) : list xfer := repeat (UpTo 1) k.

Definition start (ep : endpoint) : state := mkState ep [] [].

Definition closes (l : list event) : nat :=
  List.length (filter (fun e => match e with EvClose => true | _ => false end) l).

(** What a run returned, if it returned. *)
Definition returned {A} (o : outcome A) : option A :=
  match o with Ok a _ => Some a | _ => None end.

Definition final {A} (o : outcome A) : state :=
  match o with Ok _ st | Panic _ st | OutOfFuel st => st end.

(** One exchange between a client and a server over a loss-free link:
    what the client's kernel accepted reaches the server, and what the
    server's kernel accepted reaches the client. The client is blocked
    in its first read while the server runs. *)
Record exchange_run := mkExchange {
  wire_request : list byte;
  server_result : outcome error;
  wire_response : list byte;
  client_result : outcome error
}.

Definition exchange (text : string) : exchange_run :=
  let sent := query_send text (start (connection [] [] [])) in
  let req := tx (conn (final sent)) in
  let srv := one_request (start (connection req [] [])) in
  let resp := tx (conn (final srv)) in
  let ep := conn (final sent) in
  let cli :=
    match sent with
    | Ok None st =>
        query_recv (mkState (mkEndpoint resp (rx_plan ep) (tx ep) (tx_plan ep) (calls ep))
                            (mem st) (stdout st))
    | other => other
    end in
  mkExchange req srv resp cli.

(** The fixed reply of the server. *)
Definition reply_bytes : list byte := list_byte_of_string "Hello world!!".

(** The calls that reading a body of [n] bytes in one piece takes: none
    for an empty body. *)
Definition body_reads (n : nat) : list event :=
  match n with
  | O => []
  | S _ => [EvRead n (Some n)]
  end.

(** The zeroed buffers that [one_request] and [query] read into. *)
Definition rbuf_server : list byte := repeat x00 (Z.to_nat (4 + kMaxMsg)).
Definition rbuf_client : list byte := repeat x00 (Z.to_nat (4 + kMaxMsg + 1)).

(** The bytes 04 00 00 00 50 49 4E 47. *)
Definition PING_frame : list byte := [x04; x00; x00; x00; x50; x49; x4e; x47].

(** A computation that never closes the descriptor it runs on. *)
Definition keeps_open {A} (m : M A) : Prop :=
  forall st, closes (calls (conn (final (m st)))) = closes (calls (conn st)).

(** How the accept loop leaves a connection it is done with: one run of
    [one_request] that returned, then the close. *)
Inductive handled : accepted -> endpoint -> Prop :=
| Handled sa ep h out e st' :
    one_request (mkState ep h out) = Ok e st' ->
    handled (Accepted sa ep) (conn (final (syscall_Close st'))).

Definition closed_once (ep : endpoint) : Prop :=
  closes (calls ep) = 1%nat /\ last (calls ep) (EvRead 0 None) = EvClose.

(** An 8-byte buffer holding the PING frame, handed to [write_full]. *)
Definition write_PING_frame : M error :=
  buf <- make 8 ;;
  _ <- copy buf PING_frame ;;
  write_full buf.

(** A 4-byte buffer handed to [read_full] for 4 bytes. *)
Definition read_4_bytes : M error :=
  buf <- make 4 ;;
  read_full buf 4.

(** A text of 4097 bytes. *)
Definition long_text : string := string_of_list_byte (repeat x61 4097).

(** Three peers connect: one sends the PING frame, one a header that
    declares 4097 bytes, one closes after two bytes. *)
Definition three_peers : list accepted :=
  [Accepted "peer1" (connection PING_frame [] []);
   Accepted "peer2" (connection (le_bytes32 4097) [] []);
   Accepted "peer3" (connection [x04; x00] [] [])].

(** ** The unframed handler and client, and the server's set-up *)

(** [[]byte("...")]: a fresh array holding the bytes of the literal. *)
Definition bytes_literal (s : string) : M slice :=
  b <- make (Z.of_nat (String.length s)) ;;
  _ <- copy b (list_byte_of_string s) ;;
  ret b.

(** [handleConnection(connfd)], part_000 lines 162-207: one read of at
    most 64 bytes, printed, then one write of ["Hello World"] whose count
    is dropped. [fmt.Println] separates its operands by one space. *)
Definition handleConnection : M unit :=
  rbuf <- make 64 ;;
  r <- syscall_Read rbuf ;;
  match snd r with
  | Some e => print ("Error reading from socket: " ++ e ++ nl)%string
  | None =>
      got <- reslice rbuf 0 (fst r) ;;
      said <- string_of got ;;
      print ("Read " ++ fmt_d (fst r) ++ " bytes: " ++ said ++ nl)%string ;;;
      wbuf <- bytes_literal "Hello World" ;;
      w <- syscall_Write wbuf ;;
      match snd w with
      | Some e => print ("Error writing to socket: " ++ e ++ nl)%string
      | None => ret tt
      end
  end.

(** The [main] of redis_client.go (the client without framing), lines
    20-157. As in [client_main], the results of [socket] and [connect]
    come from the environment. *)
Definition plain_client_main (socket_err connect_err : error) : M unit :=
  match socket_err with
  | Some e => print ("Error creating socket: " ++ e ++ nl)%string
  | None =>
      match connect_err with
      | Some e => print ("Error connecting to server: " ++ e ++ nl)%string
      | None =>
          print ("Connected to Redis server at 127.0.0.1:8000" ++ nl)%string ;;;
          wbuf <- bytes_literal "Hello World" ;;
          w <- syscall_Write wbuf ;;
          match snd w with
          | Some e => print ("Error writing to socket: " ++ e ++ nl)%string
          | None =>
              rbuf <- make 64 ;;
              r <- syscall_Read rbuf ;;
              match snd r with
              | Some e => print ("Error reading from socket: " ++ e ++ nl)%string
              | None =>
                  got <- reslice rbuf 0 (fst r) ;;
                  said <- string_of got ;;
                  print ("Read " ++ fmt_d (fst r) ++ " bytes: " ++ said ++ nl)%string ;;;
                  syscall_Close ;;;
                  print ("Connection closed" ++ nl)%string
              end
          end
      end
  end.

(** The server's [main], part_000 lines 221-362. The environment gives
    the result of each of the four set-up calls, each of which may fail,
    and the peers that connect. *)
Record listen_env := mkListenEnv {
  socket_res : error;
  setsockopt_res : error;
  bind_res : error;
  listen_res : error;
  peers : list accepted
}.

(** The calls on the listening descriptor. *)
Inductive listener_call :=
  SysSocket | SysSetsockopt | SysBind | SysListen | SysAccept | SysCloseListener.

(** A call put off by [defer]; its arguments are evaluated at the
    [defer] statement. [main] has one: [syscall.Close(fd)] on the
    listening socket. *)
Inductive deferred_call := DeferCloseListener.

(** The server process while [main] runs. *)
Record process := mkProcess {
  listener_calls : list listener_call;
  served_conns : list endpoint;     (* the connections the loop is done with *)
  conn_in_hand : option endpoint;   (* the connection being handled when [main] was left *)
  proc_mem : heap;
  proc_stdout : list string;
  deferred : list deferred_call     (* the calls put off, the latest first *)
}.

(** How control leaves a function body before its end. *)
Inductive leaving :=
| Returned                  (* a [return] statement *)
| Panicking (msg : string)  (* a panic unwinds the function *)
| InAccept                  (* it does not leave: [accept] waits for ever *)
| NoFuel.                   (* a loop of the model ran out of fuel *)

Inductive flow (A : Type) :=
| Next (a : A)
| Leave (l : leaving).
Arguments Next {A} a.
Arguments Leave {A} l.

(** Statements of [main]: they go on with a value or leave the function. *)
Definition F (A : Type) : Type := process -> flow A * process.

Definition retF {A} (a : A) : F A := fun p => (Next a, p).

Definition bindF {A B} (m : F A) (k : A -> F B) : F B := fun p =>
  match m p with
  | (Next a, p') => k a p'
  | (Leave l, p') => (Leave l, p')
  end.

Declare Scope main_scope.
Delimit Scope main_scope with main.
Notation "x <- m ;; k" := (bindF m (fun x => k))
  (at level 100, m at next level, right associativity) : main_scope.
Notation "m ;;; k" := (bindF m (fun _ => k))
  (at level 100, right associativity) : main_scope.

(** [return]. *)
Definition return_ {A} : F A := fun p => (Leave Returned, p).

Definition log_call (c : listener_call) (p : process) : process :=
  mkProcess (listener_calls p ++ [c]) (served_conns p) (conn_in_hand p)
            (proc_mem p) (proc_stdout p) (deferred p).

(** A call on the listening descriptor whose result the environment gives. *)
Definition listener_sys (c : listener_call) (res : error) : F error := fun p =>
  (Next res, log_call c p).

(** [defer]: the call is pushed, not made. *)
Definition defer (d : deferred_call) : F unit := fun p =>
  (Next tt, mkProcess (listener_calls p) (served_conns p) (conn_in_hand p)
                      (proc_mem p) (proc_stdout p) (d :: deferred p)).

Definition printF (s : string) : F unit := fun p =>
  (Next tt, mkProcess (listener_calls p) (served_conns p) (conn_in_hand p)
                      (proc_mem p) (proc_stdout p ++ [s]) (deferred p)).

(** The statements [m] on the accepted connection [ep]: when they are
    through, the loop is done with the connection; a panic in them
    unwinds [main] with the connection in hand. *)
Definition on_connection (ep : endpoint) (m : M unit) : F unit := fun p =>
  match m (mkState ep (proc_mem p) (proc_stdout p)) with
  | Ok _ st =>
      (Next tt, mkProcess (listener_calls p) (served_conns p ++ [conn st]) None
                          (mem st) (stdout st) (deferred p))
  | Panic msg st =>
      (Leave (Panicking msg),
       mkProcess (listener_calls p) (served_conns p) (Some (conn st))
                 (mem st) (stdout st) (deferred p))
  | OutOfFuel st =>
      (Leave NoFuel,
       mkProcess (listener_calls p) (served_conns p) (Some (conn st))
                 (mem st) (stdout st) (deferred p))
  end.

(** The [for] loop of [main], lines 330-361, over the connections that
    arrive: once they are used up [accept] does not return. *)
Fixpoint accept_connections (incoming : list accepted) : F unit :=
  match incoming with
  | [] => fun p => (Leave InAccept, log_call SysAccept p)
  | AcceptErr e :: _ =>
      (_ <- listener_sys SysAccept (Some e) ;;
       printF ("Error accepting connection: " ++ e ++ nl)%string ;;;
       return_)%main
  | Accepted sa ep :: rest =>
      (_ <- listener_sys SysAccept None ;;
       on_connection ep
         (print ("Accepted connection from " ++ sa ++ nl)%string ;;;
          _ <- one_request ;;
          syscall_Close)%go ;;;
       accept_connections rest)%main
  end.

Definition main_body (env : listen_env) : F unit :=
  (err <- listener_sys SysSocket (socket_res env) ;;
   match err with
   | Some e => printF ("Error creating socket: " ++ e ++ nl)%string ;;; return_
   | None =>
       defer DeferCloseListener ;;;
       err <- listener_sys SysSetsockopt (setsockopt_res env) ;;
       match err with
       | Some e => printF ("Error setting socket option: " ++ e ++ nl)%string ;;; return_
       | None =>
           err <- listener_sys SysBind (bind_res env) ;;
           match err with
           | Some e => printF ("Error binding socket: " ++ e ++ nl)%string ;;; return_
           | None =>
               err <- listener_sys SysListen (listen_res env) ;;
               match err with
               | Some e => printF ("Error listening on socket: " ++ e ++ nl)%string ;;; return_
               | None =>
                   printF ("Redis server listening on 127.0.0.1:8000" ++ nl)%string ;;;
                   accept_connections (peers env)
               end
           end
       end
   end)%main.

Definition run_deferred (d : deferred_call) (p : process) : process :=
  match d with
  | DeferCloseListener => log_call SysCloseListener p
  end.

(** The deferred calls are made, the latest first. *)
Definition unwind (p : process) : process :=
  fold_left (fun q d => run_deferred d q) (deferred p)
            (mkProcess (listener_calls p) (served_conns p) (conn_in_hand p)
                       (proc_mem p) (proc_stdout p) []).

Record main_run := mkMainRun {
  how_left : leaving;
  at_exit : process
}.

(** A function call: the body runs; when it returns, at its end or by
    [return], or when a panic unwinds it, the deferred calls are made.
    They are not made while the body is still running. *)
Definition call (body : F unit) (p : process) : main_run :=
  let '(fl, p') := body p in
  let l := match fl with Next _ => Returned | Leave l => l end in
  match l with
  | Returned | Panicking _ => mkMainRun l (unwind p')
  | InAccept | NoFuel => mkMainRun l p'
  end.

Definition server_main (env : listen_env) (h : heap) (out : list string) : main_run :=
  call (main_body env) (mkProcess [] [] None h out []).

(** How [main] is left when its loop ends. *)
Definition left_by (e : ending) : leaving :=
  match e with
  | Blocked => InAccept
  | AcceptFailed => Returned
  | Crashed msg => Panicking msg
  | Starved => NoFuel
  end.

(** ** Notions used in the further statements *)

(** The slice [buf] lies inside its backing array, which is in the heap,
    for at least [n] bytes. *)
Definition fits (h : heap) (buf : slice) (n : Z) : Prop :=
  (sarr buf < List.length h)%nat /\ 0 <= sbase buf /\
  (Z.to_nat (sbase buf) + Z.to_nat n <= List.length (array_of h (sarr buf)))%nat.

(** [st'] differs from [st] by [k] bytes taken from the front of the
    stream. *)
Definition took (k : nat) (st st' : state) : Prop :=
  rx (conn st') = skipn k (rx (conn st)).

(** [st'] differs from [st] by the bytes [bs] handed to the kernel. *)
Definition wrote (bs : list byte) (st st' : state) : Prop :=
  tx (conn st') = tx (conn st) ++ bs.

Definition closes_listener (l : list listener_call) : nat :=
  List.length (filter (fun c => match c with SysCloseListener => true | _ => false end) l).

(** What a run [o] of [one_request] from [st] may have done: taken at
    most 4100 bytes from the stream; handed to the kernel a prefix of the
    reply frame, all of it when it returned [nil], and anything at all
    only after printing a request. *)
Definition served_like (st : state) (o : outcome error) : Prop :=
  let st' := final o in
  (exists k, (k <= 4100)%nat /\ took k st st') /\
  (exists j, wrote (firstn j (encodeFrame reply_bytes)) st st') /\
  (returned o = Some None -> wrote (encodeFrame reply_bytes) st st') /\
  (tx (conn st') <> tx (conn st) ->
   exists said more,
     stdout st' = stdout st ++ ("client says: " ++ said ++ nl)%string :: more).

(** What a run [o] of [query text] from [st] may have done: handed to
    the kernel a prefix of the frame of [text]; taken at most 4100 bytes
    from the stream, and any at all only after the whole frame was
    handed over; printed a response when it returned [nil]. *)
Definition queried_like (text : string) (st : state) (o : outcome error) : Prop :=
  let st' := final o in
  let frame := encodeFrame (list_byte_of_string text) in
  (exists k, (k <= 4100)%nat /\ took k st st') /\
  (exists j, wrote (firstn j frame) st st') /\
  (rx (conn st') <> rx (conn st) -> wrote frame st st') /\
  (returned o = Some None ->
   wrote frame st st' /\
   exists said, stdout st' = stdout st ++ [("server says: " ++ said ++ nl)%string]).

(** What a run [o] of the sending half of [query] may have done. *)
Definition sent_like (text : string) (st : state) (o : outcome error) : Prop :=
  let st' := final o in
  let frame := encodeFrame (list_byte_of_string text) in
  rx (conn st') = rx (conn st) /\ stdout st' = stdout st /\
  (exists j, wrote (firstn j frame) st st') /\
  (returned o = Some None -> wrote frame st st').

(** What a run [o] of the receiving half of [query] may have done. *)
Definition received_like (st : state) (o : outcome error) : Prop :=
  let st' := final o in
  tx (conn st') = tx (conn st) /\
  (exists k, (k <= 4100)%nat /\ took k st st') /\
  (returned o = Some None ->
   exists said, stdout st' = stdout st ++ [("server says: " ++ said ++ nl)%string]).

(** The next call that follows this plan fails. *)
Definition fails_next (plan : list xfer) : bool :=
  match plan with
  | Fails _ :: _ => true
  | _ => false
  end.

(** A computation whose loops always have fuel left. *)
Definition never_starves {A} (m : M A) : Prop :=
  forall st st', m st <> OutOfFuel st'.

(** Three peers are served, then [accept] fails. *)
Definition busy_then_failing : listen_env :=
  mkListenEnv None None None None (three_peers ++ [AcceptErr "EMFILE"]).

(** A connection on which [one_request] returns, with [nil] or an error,
    in whatever memory and after whatever output. *)
Definition answers (ep : endpoint) : Prop :=
  forall h out, exists e st', one_request (mkState ep h out) = Ok e st'.

(** * Properties *)

(** ** Bytes and the little-endian length *)

Lemma Z_of_byte_of_Z (v : Z) : Z_of_byte (byte_of_Z v) = v mod 256.
Proof.
  unfold Z_of_byte, byte_of_Z.
  assert (Hr : 0 <= v mod 256 < 256) by (apply Z.mod_pos_bound; lia).
  destruct (Byte.of_N (Z.to_N (v mod 256))) as [b|] eqn:E.
  - apply Byte.to_of_N in E. rewrite E. apply Z2N.id. lia.
  - apply Byte.of_N_None_iff in E. lia.
Qed.

Lemma Z_of_byte_range (b : byte) : 0 <= Z_of_byte b < 256.
Proof.
  unfold Z_of_byte. pose proof (Byte.to_N_bounded b). lia.
Qed.

Lemma byte_of_Z_of_byte (b : byte) : byte_of_Z (Z_of_byte b) = b.
Proof.
  unfold byte_of_Z. pose proof (Z_of_byte_range b) as Hr.
  rewrite Z.mod_small by lia. unfold Z_of_byte.
  rewrite N2Z.id, Byte.of_to_N. reflexivity.
Qed.

(** Settle every comparison [a <? b] of the goal by linear arithmetic. *)
Ltac decide_ltb :=
  repeat match goal with
  | |- context [?a <? ?b] =>
      first [ replace (a <? b) with true by (symmetry; apply Z.ltb_lt; lia)
            | replace (a <? b) with false by (symmetry; apply Z.ltb_ge; lia) ];
      cbn [andb orb]
  end.

(** Decoding the four bytes that [PutUint32] writes gives the value back,
    reduced to 32 bits. *)
Lemma le_uint32_bytes32 (v : Z) (rest : list byte) :
  le_uint32 (le_bytes32 v ++ rest) = v mod 2 ^ 32.
Proof.
  unfold le_uint32, le_bytes32. cbn [nth app].
  rewrite !Z_of_byte_of_Z. change 256 with (2 ^ 8).
  apply Z.bits_inj'. intros n Hn.
  rewrite !Z.lor_spec, !Z.shiftl_spec by lia.
  rewrite !Z.testbit_mod_pow2 by lia.
  destruct (Z.ltb_spec n 8).
  { rewrite (Z.testbit_neg_r _ (n - 8)), (Z.testbit_neg_r _ (n - 16)),
            (Z.testbit_neg_r _ (n - 24)) by lia.
    decide_ltb. rewrite ?andb_false_r, ?orb_false_r. reflexivity. }
  rewrite (Z.shiftr_spec v 8) by lia.
  replace (n - 8 + 8) with n by lia.
  destruct (Z.ltb_spec n 16).
  { rewrite (Z.testbit_neg_r _ (n - 16)), (Z.testbit_neg_r _ (n - 24)) by lia.
    decide_ltb. rewrite ?andb_false_r, ?orb_false_r. reflexivity. }
  rewrite (Z.shiftr_spec v 16) by lia.
  replace (n - 16 + 16) with n by lia.
  destruct (Z.ltb_spec n 24).
  { rewrite (Z.testbit_neg_r _ (n - 24)) by lia.
    decide_ltb. rewrite ?andb_false_r, ?orb_false_r. reflexivity. }
  rewrite (Z.shiftr_spec v 24) by lia.
  replace (n - 24 + 24) with n by lia.
  destruct (Z.ltb_spec n 32); decide_ltb; reflexivity.
Qed.

Lemma le_bytes32_length (v : Z) : List.length (le_bytes32 v) = 4%nat.
Proof. reflexivity. Qed.

Lemma encodeFrame_length (m : list byte) :
  List.length (encodeFrame m) = (4 + List.length m)%nat.
Proof. unfold encodeFrame. rewrite length_app. reflexivity. Qed.

Lemma length_list_byte_of_string (s : string) :
  List.length (list_byte_of_string s) = String.length s.
Proof.
  unfold list_byte_of_string. rewrite length_map.
  induction s as [|c s IH]; cbn; [reflexivity | now rewrite IH].
Qed.

(** ** Arithmetic that stays in range *)

Lemma wrap_int_small (z : Z) : - 2 ^ 63 <= z < 2 ^ 63 -> wrap_int z = z.
Proof. intros H. unfold wrap_int. rewrite Z.mod_small; lia. Qed.

Lemma wrap_uint32_small (z : Z) : 0 <= z < 2 ^ 32 -> wrap_uint32 z = z.
Proof. intros H. unfold wrap_uint32. apply Z.mod_small; lia. Qed.

(** ** The heap *)

Lemma array_of_new (h : heap) (a : list byte) :
  array_of (h ++ [a]) (List.length h) = a.
Proof. unfold array_of. apply nth_middle. Qed.

Lemma set_array_new (h : heap) (a b : list byte) :
  set_array (h ++ [a]) (List.length h) b = h ++ [b].
Proof. induction h as [|x h IH]; cbn; [reflexivity | now rewrite IH]. Qed.

Lemma store_length (l : list byte) (pos : nat) (data : list byte) :
  (pos + List.length data <= List.length l)%nat ->
  List.length (store l pos data) = List.length l.
Proof.
  intros H. unfold store.
  rewrite !length_app, length_firstn, length_skipn. lia.
Qed.

(** Reading back what was stored. *)
Lemma store_read (l : list byte) (pos : nat) (data : list byte) :
  (pos + List.length data <= List.length l)%nat ->
  firstn (List.length data) (skipn pos (store l pos data)) = data.
Proof.
  intros H. unfold store.
  rewrite skipn_app, length_firstn.
  replace (Nat.min pos (List.length l)) with pos by lia.
  rewrite Nat.sub_diag, skipn_O.
  rewrite (skipn_all2 (n := pos)) by (rewrite length_firstn; lia).
  cbn [app]. rewrite firstn_app, Nat.sub_diag, firstn_O, app_nil_r.
  apply firstn_all.
Qed.

Lemma store_store_adjacent (l a b : list byte) :
  (List.length a + List.length b = List.length l)%nat ->
  store (store l 0 a) (List.length a) b = a ++ b.
Proof.
  intros H. unfold store. cbn [firstn app Nat.add].
  rewrite firstn_app, Nat.sub_diag, firstn_O, app_nil_r, firstn_all.
  f_equal. rewrite skipn_all2; [apply app_nil_r|].
  rewrite length_app, length_skipn. lia.
Qed.

(** ** Transfers that the kernel completes in one call *)

Lemma bind_Ok {A B} (m : M A) (f : A -> M B) st a st' :
  m st = Ok a st' -> bind m f st = f a st'.
Proof. intros H. unfold bind. now rewrite H. Qed.

Lemma bind_Panic {A B} (m : M A) (f : A -> M B) st msg st' :
  m st = Panic msg st' -> bind m f st = Panic msg st'.
Proof. intros H. unfold bind. now rewrite H. Qed.

Lemma reslice_Ok (s : slice) (lo hi : Z) st :
  0 <= lo -> lo <= hi -> hi <= scap s ->
  reslice s lo hi st = Ok (mkSlice (sarr s) (sbase s + lo) (hi - lo) (scap s - lo)) st.
Proof.
  intros H1 H2 H3. unfold reslice.
  replace (0 <=? lo) with true by (symmetry; apply Z.leb_le; lia).
  replace (lo <=? hi) with true by (symmetry; apply Z.leb_le; lia).
  replace (hi <=? scap s) with true by (symmetry; apply Z.leb_le; lia).
  reflexivity.
Qed.

(** With no plan left, a read of [n > 0] bytes that the stream holds
    completes in one call, and so does [read_full]. *)
Lemma read_full_whole (buf : slice) (n : Z) rxs txs tp cs h out :
  0 < n -> n <= scap buf ->
  (Z.to_nat n <= List.length rxs)%nat ->
  read_full buf n (mkState (mkEndpoint rxs [] txs tp cs) h out) =
  Ok None
     (mkState (mkEndpoint (skipn (Z.to_nat n) rxs) [] txs tp
                          (cs ++ [EvRead (Z.to_nat n) (Some (Z.to_nat n))]))
              (set_array h (sarr buf)
                 (store (array_of h (sarr buf)) (Z.to_nat (sbase buf))
                        (firstn (Z.to_nat n) rxs)))
              out).
Proof.
  intros Hn Hcap Hrx. unfold read_full.
  destruct (Z.to_nat n) as [|k] eqn:Ek; [lia|].
  cbn [read_full_loop].
  replace (n >? 0) with true by (symmetry; apply Z.gtb_lt; lia).
  rewrite (bind_Ok _ _ _ _ _ (reslice_Ok buf 0 n _ ltac:(lia) ltac:(lia) Hcap)).
  unfold bind at 1. unfold syscall_Read.
  cbn [conn rx_plan next_xfer slen rx tx tx_plan calls mem stdout granted snd fst].
  rewrite Z.sub_0_r, Ek.
  replace (Nat.min (S k) (List.length rxs)) with (S k) by lia.
  replace (Z.of_nat (S k) =? 0) with false by (symmetry; apply Z.eqb_neq; lia).
  replace (int_sub n (Z.of_nat (S k))) with 0
    by (unfold int_sub; replace (n - Z.of_nat (S k)) with 0 by lia; reflexivity).
  unfold write_bytes. cbn [sarr sbase]. rewrite Z.add_0_r.
  destruct k; reflexivity.
Qed.

(** [read_full] of nothing returns [nil] at once. *)
Lemma read_full_nothing (buf : slice) (n : Z) st :
  n <= 0 -> read_full buf n st = Ok None st.
Proof.
  intros Hn. unfold read_full.
  replace (Z.to_nat n) with 0%nat by lia. cbn [read_full_loop].
  replace (n >? 0) with false by (rewrite Z.gtb_ltb; symmetry; apply Z.ltb_ge; lia).
  reflexivity.
Qed.

(** With no plan left, [write_full] hands the whole buffer to the kernel
    in one call. *)
Lemma write_full_whole (buf : slice) ep h out :
  0 < slen buf -> slen buf <= scap buf -> tx_plan ep = [] ->
  (Z.to_nat (sbase buf) + Z.to_nat (slen buf)
     <= List.length (array_of h (sarr buf)))%nat ->
  write_full buf (mkState ep h out) =
  Ok None
     (mkState (mkEndpoint (rx ep) (rx_plan ep) (tx ep ++ bytes_of h buf) []
                          (calls ep ++ [EvWrite (Z.to_nat (slen buf))
                                               (Some (Z.to_nat (slen buf)))]))
              h out).
Proof.
  intros Hn Hcap Hplan Hfit. unfold write_full.
  destruct (Z.to_nat (slen buf)) as [|k] eqn:Ek; [lia|].
  cbn [write_full_loop].
  replace (slen buf >? 0) with true by (symmetry; apply Z.gtb_lt; lia).
  rewrite (bind_Ok _ _ _ _ _ (reslice_Ok buf 0 (slen buf) _ ltac:(lia) ltac:(lia) Hcap)).
  unfold bind at 1. unfold syscall_Write.
  cbn [conn mem stdout slen]. rewrite Hplan.
  cbn [next_xfer granted snd fst].
  rewrite Z.sub_0_r, Ek, Nat.min_id.
  replace (Z.of_nat (S k) =? 0) with false by (symmetry; apply Z.eqb_neq; lia).
  replace (int_sub (slen buf) (Z.of_nat (S k))) with 0
    by (unfold int_sub; replace (slen buf - Z.of_nat (S k)) with 0 by lia; reflexivity).
  assert (Hb : firstn (S k)
                 (bytes_of h (mkSlice (sarr buf) (sbase buf + 0) (slen buf) (scap buf - 0)))
               = bytes_of h buf).
  { unfold bytes_of. cbn [sarr sbase slen]. rewrite Z.add_0_r, Ek.
    apply firstn_all2. rewrite length_firstn. lia. }
  rewrite Hb. destruct k; reflexivity.
Qed.

(** ** The primitives on a freshly made buffer *)

Lemma make_Ok (n : Z) ep h out :
  0 <= n ->
  make n (mkState ep h out) =
  Ok (mkSlice (List.length h) 0 n n)
     (mkState ep (h ++ [repeat x00 (Z.to_nat n)]) out).
Proof.
  intros Hn. unfold make. cbn [mem conn stdout].
  replace (n <? 0) with false by (symmetry; apply Z.ltb_ge; lia).
  reflexivity.
Qed.

Lemma bytes_of_new (h : heap) (a : list byte) (s : slice) :
  sarr s = List.length h ->
  bytes_of (h ++ [a]) s = firstn (Z.to_nat (slen s)) (skipn (Z.to_nat (sbase s)) a).
Proof. intros E. unfold bytes_of. now rewrite E, array_of_new. Qed.

Lemma write_bytes_new (h : heap) (a : list byte) (s : slice) (data : list byte) :
  sarr s = List.length h ->
  write_bytes (h ++ [a]) s data = h ++ [store a (Z.to_nat (sbase s)) data].
Proof. intros E. unfold write_bytes. now rewrite E, array_of_new, set_array_new. Qed.

Lemma PutUint32_new (s : slice) (v : Z) ep h a out :
  sarr s = List.length h -> 4 <= slen s ->
  PutUint32 s v (mkState ep (h ++ [a]) out) =
  Ok tt (mkState ep (h ++ [store a (Z.to_nat (sbase s)) (le_bytes32 v)]) out).
Proof.
  intros E Hl. unfold PutUint32. cbn [mem conn stdout].
  replace (slen s <? 4) with false by (symmetry; apply Z.ltb_ge; lia).
  now rewrite write_bytes_new.
Qed.

Lemma Uint32_new (s : slice) ep h a out :
  sarr s = List.length h -> 4 <= slen s ->
  Uint32 s (mkState ep (h ++ [a]) out) =
  Ok (le_uint32 (firstn (Z.to_nat (slen s)) (skipn (Z.to_nat (sbase s)) a)))
     (mkState ep (h ++ [a]) out).
Proof.
  intros E Hl. unfold Uint32. cbn [mem conn stdout].
  replace (slen s <? 4) with false by (symmetry; apply Z.ltb_ge; lia).
  now rewrite bytes_of_new.
Qed.

Lemma copy_new (s : slice) (src : list byte) ep h a out :
  sarr s = List.length h -> (List.length src <= Z.to_nat (slen s))%nat ->
  copy s src (mkState ep (h ++ [a]) out) =
  Ok (Z.of_nat (List.length src))
     (mkState ep (h ++ [store a (Z.to_nat (sbase s)) src]) out).
Proof.
  intros E Hl. unfold copy. cbn [mem conn stdout].
  replace (Nat.min (Z.to_nat (slen s)) (List.length src)) with (List.length src) by lia.
  now rewrite firstn_all, write_bytes_new.
Qed.

Lemma string_of_new (s : slice) ep h a out :
  sarr s = List.length h ->
  string_of s (mkState ep (h ++ [a]) out) =
  Ok (string_of_list_byte
        (firstn (Z.to_nat (slen s)) (skipn (Z.to_nat (sbase s)) a)))
     (mkState ep (h ++ [a]) out).
Proof. intros E. unfold string_of. cbn [mem]. now rewrite bytes_of_new. Qed.

(** Run the next call of a sequence, given by its equation. *)
Ltac run_with tac := erewrite bind_Ok by tac.

(** ** Building and sending a frame *)

(** The buffer that both [query] and [one_request] fill before they
    write: header at 0, payload from 4 on. *)
Lemma frame_buffer (payload : list byte) :
  store (store (repeat x00 (Z.to_nat (4 + Z.of_nat (List.length payload))))
               (Z.to_nat 0) (le_bytes32 (Z.of_nat (List.length payload))))
        (Z.to_nat (0 + 4)) payload
  = encodeFrame payload.
Proof.
  change (Z.to_nat 0) with 0%nat. change (Z.to_nat (0 + 4)) with 4%nat.
  unfold encodeFrame.
  apply (store_store_adjacent _ (le_bytes32 _) payload).
  rewrite repeat_length, le_bytes32_length. lia.
Qed.

(** [query] writes exactly the frame of its text when the kernel takes
    the buffer in one call. *)
Lemma query_send_whole (text : string) ep h out :
  Z.of_nat (String.length text) <= kMaxMsg -> tx_plan ep = [] ->
  query_send text (mkState ep h out) =
  Ok None
     (mkState (mkEndpoint (rx ep) (rx_plan ep)
                 (tx ep ++ encodeFrame (list_byte_of_string text)) []
                 (calls ep ++ [EvWrite (4 + String.length text)
                                       (Some (4 + String.length text)%nat)]))
              (h ++ [encodeFrame (list_byte_of_string text)]) out).
Proof.
  intros Hlen Hplan. unfold query_send, kMaxMsg in *.
  set (n := Z.of_nat (String.length text)) in *.
  assert (Hb : List.length (list_byte_of_string text) = String.length text)
    by apply length_list_byte_of_string.
  replace (n >? 4096) with false by (rewrite Z.gtb_ltb; symmetry; apply Z.ltb_ge; lia).
  assert (E : int_add 4 n = 4 + n) by (apply wrap_int_small; lia).
  rewrite E.
  run_with ltac:(apply make_Ok; lia).
  run_with ltac:(apply reslice_Ok; cbn [scap]; lia).
  run_with ltac:(apply PutUint32_new; cbn [sarr slen]; [reflexivity | lia]).
  cbn [slen scap sarr sbase].
  run_with ltac:(apply reslice_Ok; cbn [scap]; lia).
  run_with ltac:(apply copy_new; cbn [sarr slen]; [reflexivity | lia]).
  cbn [slen scap sarr sbase].
  rewrite (wrap_uint32_small n) by lia.
  subst n. rewrite <- Hb, frame_buffer.
  run_with ltac:(apply write_full_whole; cbn [slen scap sarr sbase];
                 rewrite ?array_of_new, ?encodeFrame_length; try assumption; lia).
  cbn [slen]. unfold ret.
  rewrite bytes_of_new by reflexivity. cbn [slen sbase].
  change (Z.to_nat 0) with 0%nat. rewrite skipn_O.
  rewrite firstn_all2 by (rewrite encodeFrame_length; lia).
  replace (Z.to_nat (4 + Z.of_nat (List.length (list_byte_of_string text))))
    with (4 + String.length text)%nat by lia.
  rewrite ?Hb. reflexivity.
Qed.

(** ** Receiving a frame *)

Lemma store_nil (l : list byte) (pos : nat) : store l pos [] = l.
Proof. unfold store. cbn [app List.length]. rewrite Nat.add_0_r. apply firstn_skipn. Qed.

Lemma set_array_same (h : heap) (a : nat) : set_array h a (array_of h a) = h.
Proof.
  unfold array_of. revert a.
  induction h as [|x h IH]; intros [|a]; cbn; try reflexivity.
  now rewrite IH.
Qed.

(** A read that finds the stream closed: [read_full] reports the end of
    the stream. *)
Lemma read_full_eof (buf : slice) (n : Z) txs tp cs h out :
  0 < n -> n <= scap buf ->
  read_full buf n (mkState (mkEndpoint [] [] txs tp cs) h out) =
  Ok (Some "EOF reading from socket")
     (mkState (mkEndpoint [] [] txs tp (cs ++ [EvRead (Z.to_nat n) (Some 0%nat)]))
              h out).
Proof.
  intros Hn Hcap. unfold read_full.
  destruct (Z.to_nat n) as [|k] eqn:Ek; [lia|].
  cbn [read_full_loop].
  replace (n >? 0) with true by (symmetry; apply Z.gtb_lt; lia).
  rewrite (bind_Ok _ _ _ _ _ (reslice_Ok buf 0 n _ ltac:(lia) ltac:(lia) Hcap)).
  unfold bind at 1. unfold syscall_Read.
  cbn [conn rx_plan next_xfer slen rx tx tx_plan calls mem stdout granted snd fst
       List.length].
  rewrite Z.sub_0_r, Ek, Nat.min_0_r.
  cbn [Z.of_nat Z.eqb firstn skipn]. unfold ret, write_bytes.
  rewrite store_nil, set_array_same. reflexivity.
Qed.

Lemma rbuf_server_length : List.length rbuf_server = 4100%nat.
Proof. unfold rbuf_server. now rewrite repeat_length. Qed.

Lemma rbuf_client_length : List.length rbuf_client = 4101%nat.
Proof. unfold rbuf_client. now rewrite repeat_length. Qed.

Lemma header_stored (buf hdr : list byte) :
  List.length hdr = 4%nat -> (4 <= List.length buf)%nat ->
  firstn (Z.to_nat (4 - 0)) (skipn (Z.to_nat (0 + 0)) (store buf (Z.to_nat 0) hdr)) = hdr.
Proof.
  intros Hh Hb. change (Z.to_nat (4 - 0)) with 4%nat.
  change (Z.to_nat (0 + 0)) with 0%nat. change (Z.to_nat 0) with 0%nat.
  rewrite <- Hh at 1. apply store_read. lia.
Qed.

Lemma firstn_4_header (hdr more : list byte) :
  List.length hdr = 4%nat -> firstn (Z.to_nat 4) (hdr ++ more) = hdr.
Proof.
  intros Hh. change (Z.to_nat 4) with 4%nat.
  rewrite <- Hh, firstn_app, Nat.sub_diag, firstn_O, app_nil_r. apply firstn_all.
Qed.

Lemma skipn_4_header (hdr more : list byte) :
  List.length hdr = 4%nat -> skipn (Z.to_nat 4) (hdr ++ more) = more.
Proof.
  intros Hh. change (Z.to_nat 4) with 4%nat.
  rewrite <- Hh, skipn_app, Nat.sub_diag, skipn_all. reflexivity.
Qed.

Lemma le_uint32_range (bs : list byte) : 0 <= le_uint32 bs < 2 ^ 32.
Proof.
  unfold le_uint32.
  pose proof (Z_of_byte_range (nth 0 bs x00)) as H0.
  pose proof (Z_of_byte_range (nth 1 bs x00)) as H1.
  pose proof (Z_of_byte_range (nth 2 bs x00)) as H2.
  pose proof (Z_of_byte_range (nth 3 bs x00)) as H3.
  set (b0 := Z_of_byte (nth 0 bs x00)) in *.
  set (b1 := Z_of_byte (nth 1 bs x00)) in *.
  set (b2 := Z_of_byte (nth 2 bs x00)) in *.
  set (b3 := Z_of_byte (nth 3 bs x00)) in *.
  rewrite !Z.shiftl_mul_pow2 by lia.
  assert (Hlor : forall a b, 0 <= a -> 0 <= b -> forall k, 0 <= k ->
             a < 2 ^ k -> b < 2 ^ k -> 0 <= Z.lor a b < 2 ^ k).
  { intros a b Ha Hb k Hk Hak Hbk. split; [apply Z.lor_nonneg; lia|].
    destruct (Z.eq_dec (Z.lor a b) 0) as [->|Hne]; [apply Z.pow_pos_nonneg; lia|].
    apply Z.log2_lt_pow2; [pose proof (Z.lor_nonneg a b); lia|].
    rewrite Z.log2_lor by lia.
    destruct (Z.eq_dec a 0) as [->|Ha0]; destruct (Z.eq_dec b 0) as [->|Hb0];
      cbn [Z.log2 Z.max]; try (exfalso; apply Hne; reflexivity).
    - rewrite Z.max_r by apply Z.log2_nonneg. apply Z.log2_lt_pow2; lia.
    - rewrite Z.max_l by apply Z.log2_nonneg. apply Z.log2_lt_pow2; lia.
    - apply Z.max_lub_lt; apply Z.log2_lt_pow2; lia. }
  assert (A1 : 0 <= Z.lor b0 (b1 * 2 ^ 8) < 2 ^ 16) by (apply Hlor; lia).
  assert (A2 : 0 <= Z.lor (Z.lor b0 (b1 * 2 ^ 8)) (b2 * 2 ^ 16) < 2 ^ 24)
    by (apply Hlor; lia).
  apply Hlor; lia.
Qed.

(** The first steps of [one_request] on a stream that starts with the
    four bytes [hdr]: the buffer is made, the header read in one call and
    decoded. *)
Ltac server_header Hh :=
  unfold one_request;
  run_with ltac:(apply make_Ok; unfold kMaxMsg; lia);
  run_with ltac:(apply read_full_whole; cbn [scap]; unfold kMaxMsg;
                 rewrite ?length_app, ?Hh; lia);
  cbn [sarr sbase];
  rewrite array_of_new, set_array_new, (firstn_4_header _ _ Hh),
          (skipn_4_header _ _ Hh);
  cbv beta iota;
  run_with ltac:(apply reslice_Ok; cbn [scap]; unfold kMaxMsg; lia);
  run_with ltac:(apply Uint32_new; cbn [sarr slen]; [reflexivity | lia]);
  cbn [slen sbase];
  rewrite header_stored by (rewrite ?repeat_length; unfold kMaxMsg; lia).

(** A header that declares more than [kMaxMsg] bytes: [one_request]
    stops after the read of the header. *)
Lemma one_request_too_long (hdr more : list byte) txs tp cs h out :
  List.length hdr = 4%nat -> le_uint32 hdr > kMaxMsg ->
  one_request (mkState (mkEndpoint (hdr ++ more) [] txs tp cs) h out) =
  Ok (Some ("message too long: " ++ fmt_d (le_uint32 hdr))%string)
     (mkState (mkEndpoint more [] txs tp (cs ++ [EvRead 4 (Some 4%nat)]))
              (h ++ [store rbuf_server 0 hdr])
              (out ++ [("too long" ++ nl)%string])).
Proof.
  intros Hh Hbig. server_header Hh.
  replace (le_uint32 hdr >? kMaxMsg) with true by (symmetry; apply Z.gtb_lt; lia).
  reflexivity.
Qed.

(** [one_request] on a stream that starts with a well-formed frame, the
    kernel completing every transfer in one call: the body is printed
    and the reply frame is written. [hdr] is any header declaring the
    body's length. *)
Lemma one_request_serves (hdr m more : list byte) txs cs h out :
  List.length hdr = 4%nat ->
  le_uint32 hdr = Z.of_nat (List.length m) ->
  Z.of_nat (List.length m) <= kMaxMsg ->
  one_request (mkState (mkEndpoint (hdr ++ m ++ more) [] txs [] cs) h out) =
  Ok None
     (mkState (mkEndpoint more [] (txs ++ encodeFrame reply_bytes) []
                 (cs ++ [EvRead 4 (Some 4%nat)] ++ body_reads (List.length m)
                     ++ [EvWrite 17 (Some 17%nat)]))
              (h ++ [store (store rbuf_server 0 hdr) 4 m] ++ [encodeFrame reply_bytes])
              (out ++ [("client says: " ++ string_of_list_byte m ++ nl)%string])).
Proof.
  intros Hh HL Hmax. server_header Hh. rewrite HL.
  set (L := Z.of_nat (List.length m)) in *.
  replace (L >? kMaxMsg) with false by (rewrite Z.gtb_ltb; symmetry; apply Z.ltb_ge; lia).
  unfold kMaxMsg in *.
  assert (E : uint32_add 4 L = 4 + L) by (apply wrap_uint32_small; lia).
  rewrite E.
  run_with ltac:(apply reslice_Ok; cbn [scap]; lia).
  assert (Hbody :
    read_full (mkSlice (List.length h) (0 + 4) (4 + L - 4) (4 + 4096 - 4)) L
      (mkState (mkEndpoint (m ++ more) [] txs [] (cs ++ [EvRead (Z.to_nat 4) (Some (Z.to_nat 4))]))
               (h ++ [store rbuf_server (Z.to_nat 0) hdr]) out) =
    Ok None
      (mkState (mkEndpoint more [] txs []
                  ((cs ++ [EvRead (Z.to_nat 4) (Some (Z.to_nat 4))])
                     ++ body_reads (List.length m)))
               (h ++ [store (store rbuf_server 0 hdr) 4 m]) out)).
  { destruct m as [|b m'].
    - rewrite read_full_nothing by (subst L; cbn; lia).
      cbn [body_reads List.length app]. rewrite app_nil_r, store_nil. reflexivity.
    - rewrite read_full_whole;
        [| subst L; cbn [List.length]; lia | cbn [scap]; lia
         | rewrite length_app; subst L; lia ].
      cbn [sarr sbase]. rewrite array_of_new, set_array_new.
      replace (Z.to_nat L) with (List.length (b :: m')) by (subst L; lia).
      rewrite firstn_app, Nat.sub_diag, firstn_O, app_nil_r, firstn_all.
      rewrite skipn_app, Nat.sub_diag, skipn_all. reflexivity. }
  run_with ltac:(exact Hbody). clear Hbody. cbv beta iota.
  run_with ltac:(apply reslice_Ok; cbn [scap]; lia).
  run_with ltac:(apply string_of_new; reflexivity).
  cbn [slen sbase].
  replace (Z.to_nat (4 + L - 4)) with (List.length m) by (subst L; lia).
  change (Z.to_nat (0 + 4)) with 4%nat.
  rewrite store_read
    by (rewrite store_length; rewrite rbuf_server_length; subst L; lia).
  unfold print at 1. unfold bind at 1. cbn [conn mem stdout].
  cbv zeta.
  change (wrap_uint32 (Z.of_nat (List.length (list_byte_of_string "Hello world!!"))))
    with 13.
  change (uint32_add 4 13) with 17.
  run_with ltac:(apply make_Ok; lia).
  run_with ltac:(apply reslice_Ok; cbn [scap]; lia).
  run_with ltac:(apply PutUint32_new; cbn [sarr slen]; [reflexivity | lia]).
  cbn [slen scap sarr sbase].
  run_with ltac:(apply reslice_Ok; cbn [scap]; lia).
  run_with ltac:(apply copy_new; cbn [sarr slen]; [reflexivity | vm_compute; lia]).
  cbn [slen scap sarr sbase].
  change (store (store (repeat x00 (Z.to_nat 17)) (Z.to_nat 0) (le_bytes32 13))
                (Z.to_nat (0 + 4)) (list_byte_of_string "Hello world!!"))
    with (encodeFrame reply_bytes).
  run_with ltac:(apply write_full_whole; cbn [slen scap sarr sbase tx_plan];
                 rewrite ?array_of_new; try reflexivity; try lia;
                 vm_compute; lia).
  cbv beta iota. unfold ret.
  rewrite bytes_of_new by reflexivity. cbn [slen sbase rx rx_plan tx calls].
  change (firstn (Z.to_nat 17) (skipn (Z.to_nat 0) (encodeFrame reply_bytes)))
    with (encodeFrame reply_bytes).
  rewrite <- !app_assoc. reflexivity.
Qed.

(** The peer closes after the header of a non-empty frame. *)
Lemma one_request_eof (hdr : list byte) txs tp cs h out :
  List.length hdr = 4%nat ->
  0 < le_uint32 hdr <= kMaxMsg ->
  one_request (mkState (mkEndpoint hdr [] txs tp cs) h out) =
  Ok (Some "EOF reading from socket")
     (mkState (mkEndpoint [] [] txs tp
                 (cs ++ [EvRead 4 (Some 4%nat);
                         EvRead (Z.to_nat (le_uint32 hdr)) (Some 0%nat)]))
              (h ++ [store rbuf_server 0 hdr])
              (out ++ [("read() error: " ++ "EOF reading from socket" ++ nl)%string])).
Proof.
  intros Hh HL. rewrite <- (app_nil_r hdr) at 1. server_header Hh.
  set (L := le_uint32 hdr) in *.
  replace (L >? kMaxMsg) with false by (rewrite Z.gtb_ltb; symmetry; apply Z.ltb_ge; lia).
  unfold kMaxMsg in *.
  assert (E : uint32_add 4 L = 4 + L) by (apply wrap_uint32_small; lia).
  rewrite E.
  run_with ltac:(apply reslice_Ok; cbn [scap]; lia).
  run_with ltac:(apply read_full_eof; cbn [scap]; lia).
  cbv beta iota. unfold print at 1. unfold bind at 1. cbn [conn mem stdout].
  unfold ret. rewrite <- app_assoc. reflexivity.
Qed.

(** The first steps of the receiving half of [query]. *)
Ltac client_header Hh :=
  unfold query_recv;
  run_with ltac:(apply make_Ok; unfold kMaxMsg; lia);
  run_with ltac:(apply reslice_Ok; cbn [scap]; unfold kMaxMsg; lia);
  run_with ltac:(apply read_full_whole; cbn [scap]; unfold kMaxMsg;
                 rewrite ?length_app, ?Hh; lia);
  cbn [sarr sbase];
  rewrite array_of_new, set_array_new, (firstn_4_header _ _ Hh),
          (skipn_4_header _ _ Hh);
  cbv beta iota;
  run_with ltac:(apply reslice_Ok; cbn [scap]; unfold kMaxMsg; lia);
  run_with ltac:(apply Uint32_new; cbn [sarr slen]; [reflexivity | lia]);
  cbn [slen sbase];
  rewrite header_stored by (rewrite ?repeat_length; unfold kMaxMsg; lia).

Lemma query_recv_too_long (hdr more : list byte) txs tp cs h out :
  List.length hdr = 4%nat -> le_uint32 hdr > kMaxMsg ->
  query_recv (mkState (mkEndpoint (hdr ++ more) [] txs tp cs) h out) =
  Ok (Some ("response too long: " ++ fmt_d (le_uint32 hdr))%string)
     (mkState (mkEndpoint more [] txs tp (cs ++ [EvRead 4 (Some 4%nat)]))
              (h ++ [store rbuf_client 0 hdr])
              (out ++ [("too long" ++ nl)%string])).
Proof.
  intros Hh Hbig. client_header Hh.
  replace (le_uint32 hdr >? kMaxMsg) with true by (symmetry; apply Z.gtb_lt; lia).
  reflexivity.
Qed.

Lemma query_recv_decodes (hdr m more : list byte) txs tp cs h out :
  List.length hdr = 4%nat ->
  le_uint32 hdr = Z.of_nat (List.length m) ->
  Z.of_nat (List.length m) <= kMaxMsg ->
  query_recv (mkState (mkEndpoint (hdr ++ m ++ more) [] txs tp cs) h out) =
  Ok None
     (mkState (mkEndpoint more [] txs tp
                 (cs ++ [EvRead 4 (Some 4%nat)] ++ body_reads (List.length m)))
              (h ++ [store (store rbuf_client 0 hdr) 4 m])
              (out ++ [("server says: " ++ string_of_list_byte m ++ nl)%string])).
Proof.
  intros Hh HL Hmax. client_header Hh. rewrite HL.
  set (L := Z.of_nat (List.length m)) in *.
  replace (L >? kMaxMsg) with false by (rewrite Z.gtb_ltb; symmetry; apply Z.ltb_ge; lia).
  unfold kMaxMsg in *.
  assert (E : uint32_add 4 L = 4 + L) by (apply wrap_uint32_small; lia).
  rewrite E.
  run_with ltac:(apply reslice_Ok; cbn [scap]; lia).
  assert (Hbody :
    read_full (mkSlice (List.length h) (0 + 4) (4 + L - 4) (4 + 4096 + 1 - 4)) L
      (mkState (mkEndpoint (m ++ more) [] txs tp (cs ++ [EvRead (Z.to_nat 4) (Some (Z.to_nat 4))]))
               (h ++ [store rbuf_client (Z.to_nat (0 + 0)) hdr]) out) =
    Ok None
      (mkState (mkEndpoint more [] txs tp
                  ((cs ++ [EvRead (Z.to_nat 4) (Some (Z.to_nat 4))])
                     ++ body_reads (List.length m)))
               (h ++ [store (store rbuf_client 0 hdr) 4 m]) out)).
  { destruct m as [|b m'].
    - rewrite read_full_nothing by (subst L; cbn; lia).
      cbn [body_reads List.length app]. rewrite app_nil_r, store_nil. reflexivity.
    - rewrite read_full_whole;
        [| subst L; cbn [List.length]; lia | cbn [scap]; lia
         | rewrite length_app; subst L; lia ].
      cbn [sarr sbase]. rewrite array_of_new, set_array_new.
      replace (Z.to_nat L) with (List.length (b :: m')) by (subst L; lia).
      rewrite firstn_app, Nat.sub_diag, firstn_O, app_nil_r, firstn_all.
      rewrite skipn_app, Nat.sub_diag, skipn_all. reflexivity. }
  run_with ltac:(exact Hbody). clear Hbody. cbv beta iota.
  run_with ltac:(apply reslice_Ok; cbn [scap]; lia).
  run_with ltac:(apply string_of_new; reflexivity).
  cbn [slen sbase].
  replace (Z.to_nat (4 + L - 4)) with (List.length m) by (subst L; lia).
  change (Z.to_nat (0 + 4)) with 4%nat.
  rewrite store_read
    by (rewrite store_length; rewrite rbuf_client_length; subst L; lia).
  unfold print at 1. unfold bind at 1. cbn [conn mem stdout].
  unfold ret. rewrite <- !app_assoc. reflexivity.
Qed.

(** ** Round trip *)

Lemma encodeFrame_header (m : list byte) :
  Z.of_nat (List.length m) <= kMaxMsg ->
  le_uint32 (le_bytes32 (Z.of_nat (List.length m))) = Z.of_nat (List.length m).
Proof.
  intros H. unfold kMaxMsg in H.
  rewrite <- (app_nil_r (le_bytes32 _)), le_uint32_bytes32.
  apply Z.mod_small. lia.
Qed.

Lemma string_length_of_bytes (m : list byte) :
  String.length (string_of_list_byte m) = List.length m.
Proof.
  rewrite <- length_list_byte_of_string.
  now rewrite list_byte_of_string_of_list_byte.
Qed.

(** C1. For every message [m] of at most 4096 bytes: what [query] writes
    for it is the frame of [m] (its length as four little-endian bytes,
    then [m]), and reading that frame back, as [one_request] does on the
    server and as [query] does for a response, yields exactly [m]: the
    call returns [nil], the bytes of [m] are in the buffer from offset 4
    on, the text printed is [m] and the stream is left at the first byte
    after the frame. The kernel completes each transfer in one call. *)
Theorem frame_round_trip (m more : list byte) (h : heap) (out : list string) :
  Z.of_nat (List.length m) <= kMaxMsg ->
  let sent := query_send (string_of_list_byte m) (mkState (connection [] [] []) h out) in
  let wire := tx (conn (final sent)) in
  let body := mkSlice (List.length h) 4 (Z.of_nat (List.length m)) kMaxMsg in
  let srv := one_request (mkState (connection (wire ++ more) [] []) h out) in
  let cli := query_recv (mkState (connection (wire ++ more) [] []) h out) in
  returned sent = Some None /\ wire = encodeFrame m /\
  (returned srv = Some None /\
   bytes_of (mem (final srv)) body = m /\
   stdout (final srv) = out ++ [("client says: " ++ string_of_list_byte m ++ nl)%string] /\
   rx (conn (final srv)) = more) /\
  (returned cli = Some None /\
   bytes_of (mem (final cli)) body = m /\
   stdout (final cli) = out ++ [("server says: " ++ string_of_list_byte m ++ nl)%string] /\
   rx (conn (final cli)) = more).
Proof.
  intros Hlen. cbv zeta. unfold connection.
  assert (Hstore : forall buf, (4100 <= List.length buf)%nat ->
            firstn (List.length m)
              (skipn 4 (store (store buf 0 (le_bytes32 (Z.of_nat (List.length m)))) 4 m)) = m).
  { intros buf Hbuf. apply store_read. rewrite store_length.
    - unfold kMaxMsg in Hlen. lia.
    - cbn [List.length le_bytes32]. lia. }
  rewrite query_send_whole
    by (rewrite ?string_length_of_bytes; first [exact Hlen | reflexivity]).
  cbn [final returned conn tx app]. rewrite list_byte_of_string_of_list_byte.
  split; [reflexivity|]. split; [reflexivity|].
  unfold encodeFrame. rewrite <- !app_assoc.
  rewrite one_request_serves, query_recv_decodes
    by (try apply le_bytes32_length; try apply encodeFrame_header; assumption).
  cbn [final returned conn mem stdout rx].
  unfold bytes_of. cbn [sarr sbase slen]. rewrite Nat2Z.id.
  change (Z.to_nat 4) with 4%nat.
  split.
  - split; [reflexivity|]. split; [|split; reflexivity].
    unfold array_of. cbn [app]. rewrite nth_middle. apply Hstore. rewrite rbuf_server_length. lia.
  - split; [reflexivity|]. split; [|split; reflexivity].
    rewrite array_of_new. apply Hstore. rewrite rbuf_client_length. lia.
Qed.

Lemma query_whole (text : string) rxs rp txs cs h out :
  Z.of_nat (String.length text) <= kMaxMsg ->
  query text (mkState (mkEndpoint rxs rp txs [] cs) h out) =
  query_recv
    (mkState (mkEndpoint rxs rp (txs ++ encodeFrame (list_byte_of_string text)) []
                (cs ++ [EvWrite (4 + String.length text)
                                (Some (4 + String.length text)%nat)]))
             (h ++ [encodeFrame (list_byte_of_string text)]) out).
Proof.
  intros Hlen. unfold query.
  run_with ltac:(apply query_send_whole; [exact Hlen | reflexivity]).
  reflexivity.
Qed.

(** ** The length bound *)

(** C4. A frame that declares exactly 4096 bytes is accepted: the length
    check passes, the body is read and the call returns [nil], on the
    server ([one_request]) and for the response on the client ([query]).
    A header that declares 4097 bytes or any larger value is refused with
    the message-too-long error, and the only read issued is the one of
    the four header bytes: what follows the header in the stream is left
    unread. The kernel completes each transfer in one call. *)
Theorem length_bound_enforced (body hdr more : list byte) (text : string)
    (h : heap) (out : list string) :
  List.length body = 4096%nat ->
  List.length hdr = 4%nat ->
  le_uint32 hdr > kMaxMsg ->
  Z.of_nat (String.length text) <= kMaxMsg ->
  let sent := EvWrite (4 + String.length text) (Some (4 + String.length text)%nat) in
  let ok_srv := one_request (mkState (connection (encodeFrame body ++ more) [] []) h out) in
  let ok_cli := query text (mkState (connection (encodeFrame body ++ more) [] []) h out) in
  let bad_srv := one_request (mkState (connection (hdr ++ more) [] []) h out) in
  let bad_cli := query text (mkState (connection (hdr ++ more) [] []) h out) in
  (returned ok_srv = Some None /\
   calls (conn (final ok_srv)) =
     [EvRead 4 (Some 4%nat); EvRead 4096 (Some 4096%nat); EvWrite 17 (Some 17%nat)] /\
   rx (conn (final ok_srv)) = more) /\
  (returned ok_cli = Some None /\
   calls (conn (final ok_cli)) =
     [sent; EvRead 4 (Some 4%nat); EvRead 4096 (Some 4096%nat)] /\
   rx (conn (final ok_cli)) = more) /\
  (returned bad_srv = Some (Some ("message too long: " ++ fmt_d (le_uint32 hdr))%string) /\
   calls (conn (final bad_srv)) = [EvRead 4 (Some 4%nat)] /\
   rx (conn (final bad_srv)) = more) /\
  (returned bad_cli = Some (Some ("response too long: " ++ fmt_d (le_uint32 hdr))%string) /\
   calls (conn (final bad_cli)) = [sent; EvRead 4 (Some 4%nat)] /\
   rx (conn (final bad_cli)) = more).
Proof.
  intros Hbody Hh Hbig Htext. cbv zeta. unfold connection.
  assert (Hmax : Z.of_nat (List.length body) <= kMaxMsg)
    by (rewrite Hbody; unfold kMaxMsg; lia).
  rewrite !query_whole by exact Htext.
  rewrite (one_request_too_long hdr more), (query_recv_too_long hdr more)
    by assumption.
  change (encodeFrame body) with (le_bytes32 (Z.of_nat (List.length body)) ++ body).
  rewrite <- !app_assoc.
  rewrite one_request_serves, query_recv_decodes
    by (try apply le_bytes32_length; try apply encodeFrame_header; assumption).
  cbn [final returned conn calls rx]. rewrite Hbody.
  cbn [body_reads app]. repeat split; reflexivity.
Qed.

(** ** Premature close, oversized request, empty frame *)

(** C5. The peer delivers the four bytes of a header that declares a
    positive length (at most 4096) and closes: the read of the body
    returns 0, [read_full] answers with its end-of-stream error and
    [one_request] returns that error, having written no reply. *)
Theorem premature_close (hdr : list byte) (h : heap) (out : list string) :
  List.length hdr = 4%nat ->
  0 < le_uint32 hdr <= kMaxMsg ->
  let r := one_request (mkState (connection hdr [] []) h out) in
  returned r = Some (Some "EOF reading from socket") /\
  calls (conn (final r)) =
    [EvRead 4 (Some 4%nat); EvRead (Z.to_nat (le_uint32 hdr)) (Some 0%nat)] /\
  stdout (final r) = out ++ [("read() error: EOF reading from socket" ++ nl)%string] /\
  tx (conn (final r)) = [].
Proof.
  intros Hh HL. cbv zeta. unfold connection.
  rewrite one_request_eof by assumption.
  cbn [final returned conn calls stdout tx app]. repeat split; reflexivity.
Qed.

(** C6. A text of more than 4096 bytes: [query] returns its local
    message-too-long error and the state it ran in is unchanged: nothing
    was written or read, no call was issued on the descriptor. *)
Theorem query_rejects_long_text (text : string) (st : state) :
  Z.of_nat (String.length text) > kMaxMsg ->
  query text st = Ok (Some "message too long") st.
Proof.
  intros Hlen. unfold query, query_send.
  replace (Z.of_nat (String.length text) >? kMaxMsg) with true
    by (symmetry; apply Z.gtb_lt; lia).
  reflexivity.
Qed.

(** C7. A frame of declared length 0 is accepted and decodes to the
    empty message. [read_full] of 0 bytes returns [nil] in the state it
    was called in, so the only read issued is the one of the header. *)
Theorem empty_frame (more : list byte) (h : heap) (out : list string) :
  let srv := one_request (mkState (connection (encodeFrame [] ++ more) [] []) h out) in
  let cli := query_recv (mkState (connection (encodeFrame [] ++ more) [] []) h out) in
  (forall buf st, read_full buf 0 st = Ok None st) /\
  (returned srv = Some None /\
   stdout (final srv) = out ++ [("client says: " ++ nl)%string] /\
   calls (conn (final srv)) = [EvRead 4 (Some 4%nat); EvWrite 17 (Some 17%nat)] /\
   rx (conn (final srv)) = more) /\
  (returned cli = Some None /\
   stdout (final cli) = out ++ [("server says: " ++ nl)%string] /\
   calls (conn (final cli)) = [EvRead 4 (Some 4%nat)] /\
   rx (conn (final cli)) = more).
Proof.
  cbv zeta. unfold connection.
  split; [intros buf st; apply read_full_nothing; lia|].
  change (encodeFrame [] ++ more) with (le_bytes32 0 ++ [] ++ more).
  rewrite (one_request_serves (le_bytes32 0) [] more),
          (query_recv_decodes (le_bytes32 0) [] more)
    by (try reflexivity; cbn; unfold kMaxMsg; lia).
  cbn [final returned conn calls stdout rx body_reads List.length app].
  repeat split; reflexivity.
Qed.

(** ** The PING exchange *)

(** C8. The client sends ["PING"]: the bytes it writes are
    04 00 00 00 50 49 4E 47; the server, reading them, prints the body
    ["PING"] and writes the frame of the 13 bytes ["Hello world!!"]; the
    client, reading that frame, prints exactly ["Hello world!!"]. Both
    sides return [nil]. What the receiving half of [query] does in the
    exchange is what [query] does as a whole with the response in
    flight. *)
Theorem ping_exchange :
  let x := exchange "PING" in
  wire_request x = PING_frame /\
  returned (server_result x) = Some None /\
  stdout (final (server_result x)) = [("client says: PING" ++ nl)%string] /\
  wire_response x = encodeFrame (list_byte_of_string "Hello world!!") /\
  List.length (list_byte_of_string "Hello world!!") = 13%nat /\
  returned (client_result x) = Some None /\
  stdout (final (client_result x)) = [("server says: Hello world!!" ++ nl)%string] /\
  client_result x = query "PING" (start (connection (wire_response x) [] [])).
Proof.
  cbv zeta. repeat split; vm_compute; reflexivity.
Qed.

(** ** Closing the endpoint *)

Lemma closes_app (l k : list event) : closes (l ++ k) = (closes l + closes k)%nat.
Proof. unfold closes. now rewrite filter_app, length_app. Qed.

Lemma keeps_open_ret {A} (a : A) : keeps_open (ret a).
Proof. intros st. reflexivity. Qed.

Lemma keeps_open_panic {A} (msg : string) : keeps_open (@panic A msg).
Proof. intros st. reflexivity. Qed.

Lemma keeps_open_bind {A B} (m : M A) (f : A -> M B) :
  keeps_open m -> (forall a, keeps_open (f a)) -> keeps_open (bind m f).
Proof.
  intros Hm Hf st. unfold bind. specialize (Hm st).
  destruct (m st) as [a st'|msg st'|st']; cbn [final] in *; try exact Hm.
  rewrite Hf. exact Hm.
Qed.

Lemma keeps_open_print (s : string) : keeps_open (print s).
Proof. intros st. reflexivity. Qed.

Lemma keeps_open_make (n : Z) : keeps_open (make n).
Proof. intros st. unfold make. destruct (n <? 0); reflexivity. Qed.

Lemma keeps_open_reslice (s : slice) (lo hi : Z) : keeps_open (reslice s lo hi).
Proof.
  unfold reslice.
  destruct ((0 <=? lo) && (lo <=? hi) && (hi <=? scap s));
    [apply keeps_open_ret | apply keeps_open_panic].
Qed.

Lemma keeps_open_string_of (s : slice) : keeps_open (string_of s).
Proof. intros st. reflexivity. Qed.

Lemma keeps_open_copy (s : slice) (src : list byte) : keeps_open (copy s src).
Proof. intros st. reflexivity. Qed.

Lemma keeps_open_Uint32 (s : slice) : keeps_open (Uint32 s).
Proof. intros st. unfold Uint32. destruct (slen s <? 4); reflexivity. Qed.

Lemma keeps_open_PutUint32 (s : slice) (v : Z) : keeps_open (PutUint32 s v).
Proof. intros st. unfold PutUint32. destruct (slen s <? 4); reflexivity. Qed.

Lemma keeps_open_Read (p : slice) : keeps_open (syscall_Read p).
Proof.
  intros st. unfold syscall_Read.
  destruct (rx_plan (conn st)) as [|[e|c] plan]; cbn [next_xfer final conn calls];
    rewrite closes_app; cbn; lia.
Qed.

Lemma keeps_open_Write (p : slice) : keeps_open (syscall_Write p).
Proof.
  intros st. unfold syscall_Write.
  destruct (tx_plan (conn st)) as [|[e|c] plan]; cbn [next_xfer final conn calls];
    rewrite closes_app; cbn; lia.
Qed.

Create HintDb keeps_open.

#[local] Hint Resolve keeps_open_ret keeps_open_panic keeps_open_print
  keeps_open_make keeps_open_reslice keeps_open_string_of keeps_open_copy
  keeps_open_Uint32 keeps_open_PutUint32 keeps_open_Read keeps_open_Write
  : keeps_open.

(** Take a sequence apart, call by call. *)
Ltac keeps_open_steps :=
  repeat first
    [ apply keeps_open_bind; [auto with keeps_open | intros ?]
    | match goal with
      | |- keeps_open (match ?x with _ => _ end) => destruct x
      | |- keeps_open (if ?b then _ else _) => destruct b
      end
    | solve [auto with keeps_open] ].

Lemma keeps_open_read_full_loop (fuel : nat) (buf : slice) (offset len : Z) :
  keeps_open (read_full_loop fuel buf offset len).
Proof.
  revert offset len. induction fuel as [|fuel IH]; intros offset len;
    cbn [read_full_loop]; destruct (len >? 0); auto with keeps_open.
  - intros st. reflexivity.
  - keeps_open_steps; try apply IH.
Qed.

Lemma keeps_open_write_full_loop (fuel : nat) (buf : slice) (offset total : Z) :
  keeps_open (write_full_loop fuel buf offset total).
Proof.
  revert offset total. induction fuel as [|fuel IH]; intros offset total;
    cbn [write_full_loop]; destruct (total >? 0); auto with keeps_open.
  - intros st. reflexivity.
  - keeps_open_steps; try apply IH.
Qed.

Lemma keeps_open_read_full (buf : slice) (len : Z) : keeps_open (read_full buf len).
Proof. apply keeps_open_read_full_loop. Qed.

Lemma keeps_open_write_full (buf : slice) : keeps_open (write_full buf).
Proof. apply keeps_open_write_full_loop. Qed.

#[local] Hint Resolve keeps_open_read_full keeps_open_write_full : keeps_open.

Lemma keeps_open_one_request : keeps_open one_request.
Proof. unfold one_request. keeps_open_steps. Qed.

Lemma keeps_open_query (text : string) : keeps_open (query text).
Proof. unfold query, query_send, query_recv. keeps_open_steps. Qed.

Lemma handled_closed_once (a : accepted) (ep' : endpoint) :
  handled a ep' ->
  (forall sa ep, a = Accepted sa ep -> closes (calls ep) = 0%nat) ->
  closed_once ep'.
Proof.
  intros [sa ep h out e st' Hrun] Hfresh.
  pose proof (keeps_open_one_request (mkState ep h out)) as Hk.
  rewrite Hrun in Hk. cbn [final conn] in Hk.
  rewrite (Hfresh sa ep eq_refl) in Hk.
  unfold closed_once. cbn [syscall_Close final conn calls].
  rewrite closes_app, Hk, last_last. split; reflexivity.
Qed.

(** One round of the loop. *)
Lemma accept_loop_step sa ep rest done h out :
  accept_loop (Accepted sa ep :: rest) done h out =
  match one_request
          (mkState ep h (out ++ [("Accepted connection from " ++ sa ++ nl)%string])) with
  | Ok _ st =>
      accept_loop rest (done ++ [conn (final (syscall_Close st))]) (mem st) (stdout st)
  | Panic msg st => mkRun done (Some (conn st)) (mem st) (stdout st) (Crashed msg)
  | OutOfFuel st => mkRun done (Some (conn st)) (mem st) (stdout st) Starved
  end.
Proof.
  cbn [accept_loop]. unfold bind, print. cbn [conn mem stdout].
  destruct (one_request _); reflexivity.
Qed.

(** The connections the loop is done with are, in order, a first part of
    those that [accept] returned, each handled once. *)
Lemma accept_loop_served (incoming : list accepted) :
  forall done h out,
  exists news,
    served (accept_loop incoming done h out) = done ++ news /\
    Forall2 handled (firstn (List.length news) incoming) news /\
    (ended (accept_loop incoming done h out) = Blocked ->
     List.length news = List.length incoming).
Proof.
  induction incoming as [|a rest IH]; intros done h out.
  - exists []. cbn. rewrite app_nil_r. repeat split; constructor.
  - destruct a as [e|sa ep].
    + exists []. cbn. rewrite app_nil_r. repeat split; [constructor | discriminate].
    + rewrite accept_loop_step.
      destruct (one_request _) as [e st'|msg st'|st'] eqn:Hrun.
      * destruct (IH (done ++ [conn (final (syscall_Close st'))]) (mem st') (stdout st'))
          as (news & Hs & Hf & Hb).
        exists (conn (final (syscall_Close st')) :: news).
        rewrite Hs, <- app_assoc. cbn [app List.length firstn].
        split; [reflexivity|]. split.
        -- constructor; [|exact Hf].
           exact (Handled sa ep h _ e st' Hrun).
        -- intros Hend. f_equal. apply Hb. exact Hend.
      * exists []. cbn. rewrite app_nil_r. repeat split; [constructor | discriminate].
      * exists []. cbn. rewrite app_nil_r. repeat split; [constructor | discriminate].
Qed.

(** The session of the client's [main] once the socket is connected. *)
Lemma client_main_session (st : state) :
  client_main None None st =
  match query "PING"
          (mkState (conn st) (mem st)
             (stdout st ++ [("Connected to Redis server at 127.0.0.1:8000" ++ nl)%string])) with
  | Ok _ st' =>
      Ok tt (mkState (conn (final (syscall_Close st'))) (mem st')
                     (stdout st' ++ [("Connection closed" ++ nl)%string]))
  | Panic msg st' => Panic msg st'
  | OutOfFuel st' => OutOfFuel st'
  end.
Proof.
  unfold client_main, bind, print. cbn [conn mem stdout].
  destruct (query "PING" _); reflexivity.
Qed.

Lemma client_main_closes (st : state) :
  returned (client_main None None st) = Some tt ->
  closes (calls (conn (final (client_main None None st))))
    = S (closes (calls (conn st))) /\
  last (calls (conn (final (client_main None None st)))) (EvRead 0 None) = EvClose.
Proof.
  rewrite client_main_session.
  pose proof (keeps_open_query "PING"
                (mkState (conn st) (mem st)
                   (stdout st ++ [("Connected to Redis server at 127.0.0.1:8000" ++ nl)%string])))
    as Hk.
  destruct (query "PING" _) as [e st'|msg st'|st']; cbn [returned]; try discriminate.
  intros _. cbn [final conn syscall_Close calls] in *.
  rewrite closes_app, Hk, last_last. cbn. split; [lia | reflexivity].
Qed.

(** When [one_request] returns on every connection and [accept] never
    fails, the loop serves every connection and is back in [accept]. *)
Lemma accept_loop_serves_all (incoming : list accepted) :
  forall done h out,
  (forall a, In a incoming -> exists sa ep, a = Accepted sa ep /\ answers ep) ->
  ended (accept_loop incoming done h out) = Blocked /\
  List.length (served (accept_loop incoming done h out))
    = (List.length done + List.length incoming)%nat.
Proof.
  induction incoming as [|a rest IH]; intros done h out Hall.
  - cbn. split; [reflexivity | lia].
  - destruct (Hall a (or_introl eq_refl)) as (sa & ep & -> & Hans).
    rewrite accept_loop_step.
    destruct (Hans h (out ++ [("Accepted connection from " ++ sa ++ nl)%string]))
      as (e & st' & Hrun).
    rewrite Hrun.
    destruct (IH (done ++ [conn (final (syscall_Close st'))]) (mem st') (stdout st'))
      as (Hend & Hlen).
    { intros a' Ha'. apply Hall. now right. }
    split; [exact Hend|]. rewrite Hlen, length_app. cbn [List.length]. lia.
Qed.

(** ** The loops of [read_full] and [write_full] under partial transfers *)

Lemma granted_le (x : option xfer) (offered avail : nat) :
  (granted x offered avail <= offered)%nat.
Proof. destruct x as [[e|c]|]; cbn [granted]; lia. Qed.

Lemma syscall_Read_returns (p : slice) (st : state) :
  exists n e st',
    syscall_Read p st = Ok (n, e) st' /\
    (e = None -> 0 <= n <= Z.max 0 (slen p)).
Proof.
  unfold syscall_Read.
  destruct (rx_plan (conn st)) as [|[e|c] plan]; cbn [next_xfer];
    eexists _, _, _; (split; [reflexivity|]); intros He; try discriminate;
    match goal with
    | |- context [granted ?x ?o ?a] => pose proof (granted_le x o a)
    end; lia.
Qed.

Lemma syscall_Write_returns (p : slice) (st : state) :
  exists n e st',
    syscall_Write p st = Ok (n, e) st' /\
    (e = None -> 0 <= n <= Z.max 0 (slen p)).
Proof.
  unfold syscall_Write.
  destruct (tx_plan (conn st)) as [|[e|c] plan]; cbn [next_xfer];
    eexists _, _, _; (split; [reflexivity|]); intros He; try discriminate;
    match goal with
    | |- context [granted ?x ?o ?a] => pose proof (granted_le x o a)
    end; lia.
Qed.

Lemma reslice_cases (s : slice) (lo hi : Z) (st : state) :
  (0 <= lo <= hi /\ hi <= scap s /\
   reslice s lo hi st = Ok (mkSlice (sarr s) (sbase s + lo) (hi - lo) (scap s - lo)) st)
  \/ reslice s lo hi st = Panic "slice bounds out of range" st.
Proof.
  unfold reslice.
  destruct (0 <=? lo) eqn:E1; [|now right].
  destruct (lo <=? hi) eqn:E2; [|now right].
  destruct (hi <=? scap s) eqn:E3; [|now right].
  left. apply Z.leb_le in E1, E2, E3. repeat split; assumption.
Qed.

Lemma wrap_int_upper (z : Z) : wrap_int z < 2 ^ 63.
Proof.
  unfold wrap_int.
  pose proof (Z.mod_pos_bound (z + 2 ^ 63) (2 ^ 64) ltac:(lia)). lia.
Qed.

(** The length left decreases with every round that goes on. *)
Lemma remaining_decreases (len n : Z) :
  0 < n <= len -> int_sub len n <= len - 1.
Proof.
  intros H. unfold int_sub.
  destruct (Z.lt_ge_cases (len - n) (2 ^ 63)).
  - rewrite wrap_int_small; lia.
  - pose proof (wrap_int_upper (len - n)). lia.
Qed.

(** The fuel [read_full] starts with is enough: the loop ends. *)
Lemma read_full_loop_ends (fuel : nat) :
  forall buf offset len st,
  (Z.to_nat len <= fuel)%nat ->
  forall st', read_full_loop fuel buf offset len st <> OutOfFuel st'.
Proof.
  induction fuel as [|fuel IH]; intros buf offset len st Hfuel st';
    cbn [read_full_loop].
  - replace (len >? 0) with false
      by (rewrite Z.gtb_ltb; symmetry; apply Z.ltb_ge; lia).
    discriminate.
  - destruct (len >? 0) eqn:Hpos; [|discriminate].
    rewrite Z.gtb_ltb in Hpos. apply Z.ltb_lt in Hpos.
    destruct (reslice_cases buf offset len st) as [(Hb & Hc & Hs)|Hs].
    + rewrite (bind_Ok _ _ _ _ _ Hs).
      destruct (syscall_Read_returns
                  (mkSlice (sarr buf) (sbase buf + offset) (len - offset) (scap buf - offset)) st)
        as (n & e & st1 & Hr & Hn).
      rewrite (bind_Ok _ _ _ _ _ Hr). cbn [fst snd].
      destruct e as [e|]; [discriminate|].
      specialize (Hn eq_refl). cbn [slen] in Hn.
      destruct (n =? 0) eqn:Hz; [discriminate|].
      apply Z.eqb_neq in Hz.
      apply IH. pose proof (remaining_decreases len n ltac:(lia)). lia.
    + rewrite (bind_Panic _ _ _ _ _ Hs). discriminate.
Qed.

Lemma write_full_loop_ends (fuel : nat) :
  forall buf offset total st,
  (Z.to_nat total <= fuel)%nat ->
  forall st', write_full_loop fuel buf offset total st <> OutOfFuel st'.
Proof.
  induction fuel as [|fuel IH]; intros buf offset total st Hfuel st';
    cbn [write_full_loop].
  - replace (total >? 0) with false
      by (rewrite Z.gtb_ltb; symmetry; apply Z.ltb_ge; lia).
    discriminate.
  - destruct (total >? 0) eqn:Hpos; [|discriminate].
    rewrite Z.gtb_ltb in Hpos. apply Z.ltb_lt in Hpos.
    destruct (reslice_cases buf offset total st) as [(Hb & Hc & Hs)|Hs].
    + rewrite (bind_Ok _ _ _ _ _ Hs).
      destruct (syscall_Write_returns
                  (mkSlice (sarr buf) (sbase buf + offset) (total - offset) (scap buf - offset)) st)
        as (n & e & st1 & Hr & Hn).
      rewrite (bind_Ok _ _ _ _ _ Hr). cbn [fst snd].
      destruct e as [e|]; [discriminate|].
      specialize (Hn eq_refl). cbn [slen] in Hn.
      destruct (n =? 0) eqn:Hz; [discriminate|].
      apply Z.eqb_neq in Hz.
      apply IH. pose proof (remaining_decreases total n ltac:(lia)). lia.
    + rewrite (bind_Panic _ _ _ _ _ Hs). discriminate.
Qed.

(** Both functions end: with [nil], with an error, or in a panic. *)
Lemma read_full_ends (buf : slice) (len : Z) (st st' : state) :
  read_full buf len st <> OutOfFuel st'.
Proof. apply read_full_loop_ends. lia. Qed.

Lemma write_full_ends (buf : slice) (st st' : state) :
  write_full buf st <> OutOfFuel st'.
Proof. apply write_full_loop_ends. lia. Qed.

(** ** Neither side stops for lack of fuel *)

Lemma never_starves_ret {A} (a : A) : never_starves (ret a).
Proof. intros st st'. discriminate. Qed.

Lemma never_starves_panic {A} (msg : string) : never_starves (@panic A msg).
Proof. intros st st'. discriminate. Qed.

Lemma never_starves_bind {A B} (m : M A) (f : A -> M B) :
  never_starves m -> (forall a, never_starves (f a)) -> never_starves (bind m f).
Proof.
  intros Hm Hf st st'. unfold bind.
  destruct (m st) as [a st1|msg st1|st1] eqn:E; try discriminate.
  - apply Hf.
  - exfalso. exact (Hm st st1 E).
Qed.

Lemma never_starves_print (s : string) : never_starves (print s).
Proof. intros st st'. discriminate. Qed.

Lemma never_starves_make (n : Z) : never_starves (make n).
Proof. intros st st'. unfold make. destruct (n <? 0); discriminate. Qed.

Lemma never_starves_reslice (s : slice) (lo hi : Z) : never_starves (reslice s lo hi).
Proof.
  unfold reslice.
  destruct ((0 <=? lo) && (lo <=? hi) && (hi <=? scap s));
    [apply never_starves_ret | apply never_starves_panic].
Qed.

Lemma never_starves_string_of (s : slice) : never_starves (string_of s).
Proof. intros st st'. discriminate. Qed.

Lemma never_starves_copy (s : slice) (src : list byte) : never_starves (copy s src).
Proof. intros st st'. discriminate. Qed.

Lemma never_starves_Uint32 (s : slice) : never_starves (Uint32 s).
Proof. intros st st'. unfold Uint32. destruct (slen s <? 4); discriminate. Qed.

Lemma never_starves_PutUint32 (s : slice) (v : Z) : never_starves (PutUint32 s v).
Proof. intros st st'. unfold PutUint32. destruct (slen s <? 4); discriminate. Qed.

Lemma never_starves_read_full (buf : slice) (len : Z) : never_starves (read_full buf len).
Proof. intros st st'. apply read_full_ends. Qed.

Lemma never_starves_write_full (buf : slice) : never_starves (write_full buf).
Proof. intros st st'. apply write_full_ends. Qed.

Create HintDb never_starves.

#[local] Hint Resolve never_starves_ret never_starves_panic never_starves_print
  never_starves_make never_starves_reslice never_starves_string_of
  never_starves_copy never_starves_Uint32 never_starves_PutUint32
  never_starves_read_full never_starves_write_full : never_starves.

Ltac never_starves_steps :=
  repeat first
    [ apply never_starves_bind; [auto with never_starves | intros ?]
    | match goal with
      | |- never_starves (match ?x with _ => _ end) => destruct x
      | |- never_starves (if ?b then _ else _) => destruct b
      end
    | solve [auto with never_starves] ].

Lemma never_starves_one_request : never_starves one_request.
Proof. unfold one_request. never_starves_steps. Qed.

Lemma never_starves_query (text : string) : never_starves (query text).
Proof. unfold query, query_send, query_recv. never_starves_steps. Qed.

(** How the loop ends: never for lack of fuel; after a panic the
    connection in hand has not been closed. *)
Lemma accept_loop_ending (incoming : list accepted) :
  forall done h out,
  (forall sa ep, In (Accepted sa ep) incoming -> closes (calls ep) = 0%nat) ->
  let r := accept_loop incoming done h out in
  ended r <> Starved /\
  match ended r with
  | Crashed _ => exists ep', in_hand r = Some ep' /\ closes (calls ep') = 0%nat
  | _ => in_hand r = None
  end.
Proof.
  induction incoming as [|a rest IH]; intros done h out Hfresh; cbv zeta.
  - cbn. split; [discriminate | reflexivity].
  - destruct a as [e|sa ep].
    + cbn. split; [discriminate | reflexivity].
    + rewrite accept_loop_step.
      pose proof (keeps_open_one_request
                    (mkState ep h (out ++ [("Accepted connection from " ++ sa ++ nl)%string])))
        as Hk.
      destruct (one_request _) as [e st'|msg st'|st'] eqn:Hrun.
      * apply IH. intros sa' ep' Hin. apply (Hfresh sa'). now right.
      * cbn [ended in_hand]. split; [discriminate|].
        exists (conn st'). split; [reflexivity|].
        cbn [final conn] in Hk. rewrite Hk. apply (Hfresh sa). now left.
      * exfalso. exact (never_starves_one_request _ _ Hrun).
Qed.

(** C9. Every connection that the accept loop is done with went through
    one run of [one_request] and was then closed by the loop, once, as
    its last call, whether [one_request] returned [nil] or an error; the
    loop serves the connections in the order [accept] returned them, and
    when it is back waiting in [accept] it has served them all, which is
    what happens when [accept] never fails and [one_request] returns on
    every connection. The client's [main], once connected: whenever
    [query] returns, with [nil] or an error, [main] returns, having
    closed its endpoint once, as the last call on it, and printed
    ["Connection closed"]; it fails to return only when a panic in
    [query] kills the process. Neither side stops for lack of fuel.
    Connections start out not closed. *)
Theorem endpoints_closed_once (incoming : list accepted) (h : heap)
    (out : list string) (st : state) :
  (forall sa ep, In (Accepted sa ep) incoming -> closes (calls ep) = 0%nat) ->
  closes (calls (conn st)) = 0%nat ->
  let run := accept_loop incoming [] h out in
  let cli := client_main None None st in
  let connected :=
    mkState (conn st) (mem st)
            (stdout st ++ [("Connected to Redis server at 127.0.0.1:8000" ++ nl)%string]) in
  Forall2 handled (firstn (List.length (served run)) incoming) (served run) /\
  Forall closed_once (served run) /\
  (ended run = Blocked -> List.length (served run) = List.length incoming) /\
  ((forall a, In a incoming -> exists sa ep, a = Accepted sa ep /\ answers ep) ->
   ended run = Blocked /\ List.length (served run) = List.length incoming) /\
  ended run <> Starved /\
  (returned cli = Some tt -> closed_once (conn (final cli))) /\
  (forall e st', query "PING" connected = Ok e st' ->
   cli = Ok tt (mkState (conn (final (syscall_Close st'))) (mem st')
                        (stdout st' ++ [("Connection closed" ++ nl)%string])) /\
   calls (conn (final cli)) = calls (conn st') ++ [EvClose] /\
   closed_once (conn (final cli))) /\
  (forall msg st', query "PING" connected = Panic msg st' -> cli = Panic msg st') /\
  (forall st', cli <> OutOfFuel st').
Proof.
  intros Hfresh Hst. cbv zeta.
  destruct (accept_loop_served incoming [] h out) as (news & Hs & Hf & Hb).
  cbn [app] in Hs.
  split; [rewrite Hs; exact Hf|]. split; [|split; [rewrite Hs; exact Hb|]].
  - rewrite Hs.
    assert (Hin : forall a, In a (firstn (List.length news) incoming) ->
                    forall sa ep, a = Accepted sa ep -> closes (calls ep) = 0%nat).
    { intros a Ha sa ep ->. apply (Hfresh sa).
      rewrite <- (firstn_skipn (List.length news) incoming).
      apply in_or_app. now left. }
    clear Hs Hb.
    remember (firstn (List.length news) incoming) as pre eqn:Epre. clear Epre.
    induction Hf as [|a ep' l l' Hh Hrest IH]; constructor.
    + apply (handled_closed_once a); [exact Hh|]. apply Hin. now left.
    + apply IH. intros a' Ha'. apply Hin. now right.
  - split; [|split; [|split; [|split; [|split]]]].
    + intros Hall. exact (accept_loop_serves_all incoming [] h out Hall).
    + exact (proj1 (accept_loop_ending incoming [] h out Hfresh)).
    + intros Hret. destruct (client_main_closes st Hret) as [Hc Hl].
      unfold closed_once. rewrite Hc, Hst. split; [reflexivity | exact Hl].
    + intros e st' Hq.
      assert (Hrun : client_main None None st =
                Ok tt (mkState (conn (final (syscall_Close st'))) (mem st')
                               (stdout st' ++ [("Connection closed" ++ nl)%string])))
        by (rewrite client_main_session, Hq; reflexivity).
      split; [exact Hrun|].
      assert (Hret : returned (client_main None None st) = Some tt)
        by (rewrite Hrun; reflexivity).
      destruct (client_main_closes st Hret) as [Hc Hl].
      split; [rewrite Hrun; reflexivity|].
      unfold closed_once. rewrite Hc, Hst. split; [reflexivity | exact Hl].
    + intros msg st' Hq. rewrite client_main_session, Hq. reflexivity.
    + intros st'. rewrite client_main_session.
      destruct (query "PING" _) as [e st1|msg st1|st1] eqn:Hq; try discriminate.
      exfalso. exact (never_starves_query "PING" _ _ Hq).
Qed.

(** Once some but not all of the bytes have been moved, the loop of
    [read_full] cannot end with [nil] any more: the window
    [buf[offset:len]] shrinks from both ends. *)
Lemma read_full_loop_no_nil (fuel : nat) :
  forall buf offset len st,
  0 < offset -> 0 < len < 2 ^ 63 ->
  returned (read_full_loop fuel buf offset len st) <> Some None.
Proof.
  induction fuel as [|fuel IH]; intros buf offset len st Hoff Hlen;
    cbn [read_full_loop];
    (replace (len >? 0) with true by (symmetry; apply Z.gtb_lt; lia)).
  - discriminate.
  - destruct (reslice_cases buf offset len st) as [(Hb & Hc & Hs)|Hs].
    + rewrite (bind_Ok _ _ _ _ _ Hs).
      destruct (syscall_Read_returns
                  (mkSlice (sarr buf) (sbase buf + offset) (len - offset) (scap buf - offset)) st)
        as (n & e & st1 & Hr & Hn).
      rewrite (bind_Ok _ _ _ _ _ Hr). cbn [fst snd].
      destruct e as [e|]; [discriminate|].
      specialize (Hn eq_refl). cbn [slen] in Hn.
      destruct (n =? 0) eqn:Hz; [discriminate|].
      apply Z.eqb_neq in Hz.
      unfold int_add, int_sub. rewrite !wrap_int_small by lia.
      apply IH; lia.
    + rewrite (bind_Panic _ _ _ _ _ Hs). discriminate.
Qed.

Lemma write_full_loop_no_nil (fuel : nat) :
  forall buf offset total st,
  0 < offset -> 0 < total < 2 ^ 63 ->
  returned (write_full_loop fuel buf offset total st) <> Some None.
Proof.
  induction fuel as [|fuel IH]; intros buf offset total st Hoff Hlen;
    cbn [write_full_loop];
    (replace (total >? 0) with true by (symmetry; apply Z.gtb_lt; lia)).
  - discriminate.
  - destruct (reslice_cases buf offset total st) as [(Hb & Hc & Hs)|Hs].
    + rewrite (bind_Ok _ _ _ _ _ Hs).
      destruct (syscall_Write_returns
                  (mkSlice (sarr buf) (sbase buf + offset) (total - offset) (scap buf - offset)) st)
        as (n & e & st1 & Hr & Hn).
      rewrite (bind_Ok _ _ _ _ _ Hr). cbn [fst snd].
      destruct e as [e|]; [discriminate|].
      specialize (Hn eq_refl). cbn [slen] in Hn.
      destruct (n =? 0) eqn:Hz; [discriminate|].
      apply Z.eqb_neq in Hz.
      unfold int_add, int_sub. rewrite !wrap_int_small by lia.
      apply IH; lia.
    + rewrite (bind_Panic _ _ _ _ _ Hs). discriminate.
Qed.

Lemma syscall_Read_logged (p : slice) (st st' : state) (n : Z) :
  syscall_Read p st = Ok (n, None) st' ->
  calls (conn st') = calls (conn st) ++ [EvRead (Z.to_nat (slen p)) (Some (Z.to_nat n))].
Proof.
  unfold syscall_Read.
  destruct (rx_plan (conn st)) as [|[e|c] plan]; cbn [next_xfer];
    intros H; inversion H; subst; cbn [conn calls]; now rewrite Nat2Z.id.
Qed.

Lemma syscall_Write_logged (p : slice) (st st' : state) (n : Z) :
  syscall_Write p st = Ok (n, None) st' ->
  calls (conn st') = calls (conn st) ++ [EvWrite (Z.to_nat (slen p)) (Some (Z.to_nat n))].
Proof.
  unfold syscall_Write.
  destruct (tx_plan (conn st)) as [|[e|c] plan]; cbn [next_xfer];
    intros H; inversion H; subst; cbn [conn calls]; now rewrite Nat2Z.id.
Qed.

(** [read_full] returns [nil] only when nothing was asked for or when
    its first read delivered every byte asked for. *)
Lemma read_full_nil_only_whole (buf : slice) (len : Z) (st : state) :
  len < 2 ^ 63 ->
  returned (read_full buf len st) = Some None ->
  len <= 0 \/
  calls (conn (final (read_full buf len st))) =
    calls (conn st) ++ [EvRead (Z.to_nat len) (Some (Z.to_nat len))].
Proof.
  intros Hmax Hnil. destruct (Z.le_gt_cases len 0) as [Hle|Hpos]; [now left|].
  right. revert Hnil. unfold read_full.
  destruct (Z.to_nat len) as [|k] eqn:Ek; [lia|].
  cbn [read_full_loop].
  replace (len >? 0) with true by (symmetry; apply Z.gtb_lt; lia).
  destruct (reslice_cases buf 0 len st) as [(Hb & Hc & Hs)|Hs].
  - rewrite (bind_Ok _ _ _ _ _ Hs).
    destruct (syscall_Read_returns
                (mkSlice (sarr buf) (sbase buf + 0) (len - 0) (scap buf - 0)) st)
      as (n & e & st1 & Hr & Hn).
    rewrite (bind_Ok _ _ _ _ _ Hr). cbn [fst snd].
    destruct e as [e|]; [discriminate|].
    specialize (Hn eq_refl). cbn [slen] in Hn.
    destruct (n =? 0) eqn:Hz; [discriminate|].
    apply Z.eqb_neq in Hz.
    unfold int_add, int_sub. rewrite !wrap_int_small by lia.
    destruct (Z.eq_dec n len) as [->|Hne].
    + intros _. rewrite Z.sub_diag.
      replace (read_full_loop k buf (0 + len) 0 st1) with (Ok (@None string) st1)
        by (destruct k; reflexivity).
      cbn [final]. rewrite (syscall_Read_logged _ _ _ _ Hr). cbn [slen].
      now rewrite Z.sub_0_r, Ek.
    + intros H. exfalso. revert H. apply read_full_loop_no_nil; lia.
  - rewrite (bind_Panic _ _ _ _ _ Hs). discriminate.
Qed.

(** [write_full] returns [nil] only for an empty buffer or when its
    first write took the whole buffer. *)
Lemma write_full_nil_only_whole (buf : slice) (st : state) :
  slen buf < 2 ^ 63 ->
  returned (write_full buf st) = Some None ->
  slen buf <= 0 \/
  calls (conn (final (write_full buf st))) =
    calls (conn st) ++ [EvWrite (Z.to_nat (slen buf)) (Some (Z.to_nat (slen buf)))].
Proof.
  intros Hmax Hnil. destruct (Z.le_gt_cases (slen buf) 0) as [Hle|Hpos]; [now left|].
  right. revert Hnil. unfold write_full.
  destruct (Z.to_nat (slen buf)) as [|k] eqn:Ek; [lia|].
  cbn [write_full_loop].
  replace (slen buf >? 0) with true by (symmetry; apply Z.gtb_lt; lia).
  destruct (reslice_cases buf 0 (slen buf) st) as [(Hb & Hc & Hs)|Hs].
  - rewrite (bind_Ok _ _ _ _ _ Hs).
    destruct (syscall_Write_returns
                (mkSlice (sarr buf) (sbase buf + 0) (slen buf - 0) (scap buf - 0)) st)
      as (n & e & st1 & Hr & Hn).
    rewrite (bind_Ok _ _ _ _ _ Hr). cbn [fst snd].
    destruct e as [e|]; [discriminate|].
    specialize (Hn eq_refl). cbn [slen] in Hn.
    destruct (n =? 0) eqn:Hz; [discriminate|].
    apply Z.eqb_neq in Hz.
    unfold int_add, int_sub. rewrite !wrap_int_small by lia.
    destruct (Z.eq_dec n (slen buf)) as [->|Hne].
    + intros _. rewrite Z.sub_diag.
      replace (write_full_loop k buf (0 + slen buf) 0 st1) with (Ok (@None string) st1)
        by (destruct k; reflexivity).
      cbn [final]. rewrite (syscall_Write_logged _ _ _ _ Hr). cbn [slen].
      now rewrite Z.sub_0_r, Ek.
    + intros H. exfalso. revert H. apply write_full_loop_no_nil; lia.
  - rewrite (bind_Panic _ _ _ _ _ Hs). discriminate.
Qed.

(** ** Partial transfers at concrete inputs *)

(** C2. The frame arrives one byte per read. [read_full], asked for 4
    bytes, returns its end-of-stream error. On the server the frame of
    ["PING"], and on the client the frame of ["Hello world!!"], are not
    reconstructed: after two reads of one byte each the third read is
    given the empty window [buf[2:2]], returns 0, and [read_full] ends
    with its end-of-stream error while the rest of the frame is still in
    the stream. The message is neither printed nor answered. *)
Theorem byte_by_byte_delivery_fails :
  let srv := one_request (start (connection PING_frame (byte_by_byte 8) [])) in
  let cli := query_recv (start (connection (encodeFrame reply_bytes) (byte_by_byte 17) [])) in
  let three_reads := [EvRead 4 (Some 1%nat); EvRead 2 (Some 1%nat); EvRead 0 (Some 0%nat)] in
  returned (read_4_bytes (start (connection PING_frame (byte_by_byte 8) [])))
    = Some (Some "EOF reading from socket") /\
  (returned srv = Some (Some "EOF reading from socket") /\
   calls (conn (final srv)) = three_reads /\
   rx (conn (final srv)) = [x00; x00; x50; x49; x4e; x47] /\
   tx (conn (final srv)) = [] /\
   stdout (final srv) =
     [("Error reading from socket: EOF reading from socket" ++ nl)%string]) /\
  (returned cli = Some (Some "EOF reading from socket") /\
   calls (conn (final cli)) = three_reads /\
   List.length (rx (conn (final cli))) = 15%nat /\
   stdout (final cli) = []).
Proof.
  cbv zeta. repeat split; vm_compute; reflexivity.
Qed.

(** C3. [write_full] on the 8 bytes of the PING frame. When the kernel
    takes 2 bytes and then the 4 it is offered next, the third window is
    [buf[6:2]] and the call panics with 6 of the 8 bytes sent. When the
    kernel takes 4 bytes, the next write is offered the empty window
    [buf[4:4]] and [write_full] returns the unexpected-zero error with
    the last 4 bytes never offered. The buffer is sent in full only when
    the first write takes all of it. *)
Theorem write_full_partial_fails :
  let two_four := write_PING_frame (start (connection [] [] [UpTo 2; UpTo 4])) in
  let four := write_PING_frame (start (connection [] [] [UpTo 4])) in
  let whole := write_PING_frame (start (connection [] [] [])) in
  (two_four = Panic "slice bounds out of range" (final two_four) /\
   calls (conn (final two_four)) = [EvWrite 8 (Some 2%nat); EvWrite 4 (Some 4%nat)] /\
   tx (conn (final two_four)) = [x04; x00; x00; x00; x50; x49]) /\
  (returned four = Some (Some "write returned 0, unexpected") /\
   calls (conn (final four)) = [EvWrite 8 (Some 4%nat); EvWrite 0 (Some 0%nat)] /\
   tx (conn (final four)) = [x04; x00; x00; x00]) /\
  (returned whole = Some None /\ tx (conn (final whole)) = PING_frame).
Proof.
  cbv zeta. repeat split; vm_compute; reflexivity.
Qed.

(** C10. Both loops end for every input: with [nil], an error or a
    panic. They do not stay within bounds: asked for 4 bytes into a
    4-byte buffer, [read_full] takes [buf[3:1]] after a first read of 3
    bytes and panics; on an 8-byte buffer, [write_full] takes [buf[5:3]]
    after a first write of 5 bytes and panics. *)
Theorem partial_transfer_panics :
  (forall buf len st st', read_full buf len st <> OutOfFuel st') /\
  (forall buf st st', write_full buf st <> OutOfFuel st') /\
  let rd := read_4_bytes (start (connection PING_frame [UpTo 3] [])) in
  let wr := write_PING_frame (start (connection [] [] [UpTo 5])) in
  (rd = Panic "slice bounds out of range" (final rd) /\
   calls (conn (final rd)) = [EvRead 4 (Some 3%nat)]) /\
  (wr = Panic "slice bounds out of range" (final wr) /\
   calls (conn (final wr)) = [EvWrite 8 (Some 5%nat)]).
Proof.
  split; [exact read_full_ends|]. split; [exact write_full_ends|].
  cbv zeta. repeat split; vm_compute; reflexivity.
Qed.

(** ** The statements at concrete inputs *)

Lemma frame_round_trip_witness :
  Z.of_nat (List.length (list_byte_of_string "PING")) <= kMaxMsg /\
  stdout (final (one_request (start (connection PING_frame [] []))))
    = [("client says: PING" ++ nl)%string].
Proof.
  assert (H : Z.of_nat (List.length (list_byte_of_string "PING")) <= kMaxMsg)
    by (vm_compute; discriminate).
  split; [exact H|].
  pose proof (frame_round_trip (list_byte_of_string "PING") [] [] [] H) as W.
  cbv zeta in W. destruct W as (_ & _ & (_ & _ & W & _) & _). exact W.
Defined.

Lemma length_bound_enforced_witness :
  List.length (repeat x00 4096) = 4096%nat /\
  List.length (le_bytes32 4097) = 4%nat /\
  le_uint32 (le_bytes32 4097) > kMaxMsg /\
  Z.of_nat (String.length "PING") <= kMaxMsg /\
  returned (one_request (start (connection (le_bytes32 4097 ++ PING_frame) [] [])))
    = Some (Some "message too long: 4097").
Proof.
  assert (H1 : List.length (repeat x00 4096) = 4096%nat) by apply repeat_length.
  assert (H2 : List.length (le_bytes32 4097) = 4%nat) by reflexivity.
  assert (H3 : le_uint32 (le_bytes32 4097) > kMaxMsg) by (vm_compute; reflexivity).
  assert (H4 : Z.of_nat (String.length "PING") <= kMaxMsg) by (vm_compute; discriminate).
  repeat (split; [assumption|]).
  pose proof (length_bound_enforced (repeat x00 4096) (le_bytes32 4097) PING_frame
                "PING" [] [] H1 H2 H3 H4) as W.
  cbv zeta in W. destruct W as (_ & _ & (W & _) & _). exact W.
Defined.

Lemma premature_close_witness :
  List.length (le_bytes32 10) = 4%nat /\
  0 < le_uint32 (le_bytes32 10) <= kMaxMsg /\
  returned (one_request (start (connection (le_bytes32 10) [] [])))
    = Some (Some "EOF reading from socket").
Proof.
  assert (H1 : List.length (le_bytes32 10) = 4%nat) by reflexivity.
  assert (H2 : 0 < le_uint32 (le_bytes32 10) <= kMaxMsg)
    by (vm_compute; split; [reflexivity | discriminate]).
  repeat (split; [assumption|]).
  exact (proj1 (premature_close (le_bytes32 10) [] [] H1 H2)).
Defined.

Lemma query_rejects_long_text_witness :
  Z.of_nat (String.length long_text) > kMaxMsg /\
  query long_text (start (connection [] [] []))
    = Ok (Some "message too long") (start (connection [] [] [])).
Proof.
  assert (H : Z.of_nat (String.length long_text) > kMaxMsg)
    by (vm_compute; reflexivity).
  split; [exact H|].
  exact (query_rejects_long_text long_text (start (connection [] [] [])) H).
Defined.

(** A header cut after two bytes: the second read is given the window
    [buf[2:2]] and [read_full] reports the end of the stream. *)
Lemma read_full_header_cut (buf : slice) (a b : byte) txs tp cs h out :
  4 <= scap buf ->
  exists h',
  read_full buf 4 (mkState (mkEndpoint [a; b] [] txs tp cs) h out) =
  Ok (Some "EOF reading from socket")
     (mkState (mkEndpoint [] [] txs tp
                 (cs ++ [EvRead 4 (Some 2%nat); EvRead 0 (Some 0%nat)])) h' out).
Proof.
  intros Hcap.
  unfold read_full. change (Z.to_nat 4) with 4%nat. cbn [read_full_loop].
  change (4 >? 0) with true. cbv iota.
  run_with ltac:(apply reslice_Ok; lia).
  unfold syscall_Read at 1. unfold bind at 1.
  cbn [conn rx_plan next_xfer slen rx tx tx_plan calls mem stdout granted snd fst List.length].
  change (Z.to_nat (4 - 0)) with 4%nat. cbn [Nat.min Z.of_nat Pos.of_succ_nat Pos.succ Z.eqb].
  change (int_add 0 2) with 2. change (int_sub 4 2) with 2.
  change (2 >? 0) with true. cbv iota.
  run_with ltac:(apply reslice_Ok; lia).
  unfold syscall_Read at 1. unfold bind at 1.
  cbn [conn rx_plan next_xfer slen rx tx tx_plan calls mem stdout granted snd fst List.length skipn].
  change (Z.to_nat (2 - 2)) with 0%nat. cbn [Nat.min Z.of_nat Z.eqb].
  unfold ret. rewrite <- app_assoc. eexists. reflexivity.
Qed.

Lemma one_request_header_cut (a b : byte) txs tp cs h out :
  exists st',
  one_request (mkState (mkEndpoint [a; b] [] txs tp cs) h out) =
  Ok (Some "EOF reading from socket") st'.
Proof.
  unfold one_request.
  run_with ltac:(apply make_Ok; unfold kMaxMsg; lia).
  match goal with |- context [bind (read_full ?buf 4) _ ?s] =>
    destruct (read_full_header_cut buf a b txs tp cs
                (h ++ [repeat x00 (Z.to_nat (4 + kMaxMsg))]) out
                ltac:(cbn [scap]; unfold kMaxMsg; lia)) as (h' & Hr) end.
  rewrite (bind_Ok _ _ _ _ _ Hr). cbv beta iota.
  unfold bind, print, ret. eexists. reflexivity.
Qed.

(** [one_request] returns on each of the three peers: with [nil] on the
    first, with an error on the other two. *)
Lemma three_peers_answer :
  forall a, In a three_peers -> exists sa ep, a = Accepted sa ep /\ answers ep.
Proof.
  intros a [E|[E|[E|[]]]]; subst a; eexists _, _; (split; [reflexivity|]);
    intros h out; unfold connection.
  - exists None.
    change PING_frame with (le_bytes32 4 ++ list_byte_of_string "PING" ++ []).
    eexists. apply one_request_serves; [reflexivity | reflexivity | vm_compute; discriminate].
  - eexists.
    rewrite <- (app_nil_r (le_bytes32 4097)).
    eexists. apply one_request_too_long; [reflexivity | vm_compute; reflexivity].
  - eexists. apply one_request_header_cut.
Qed.

Lemma endpoints_closed_once_witness :
  (forall sa ep, In (Accepted sa ep) three_peers -> closes (calls ep) = 0%nat) /\
  closes (calls (conn (start (connection (encodeFrame reply_bytes) [] [])))) = 0%nat /\
  Forall closed_once (served (accept_loop three_peers [] [] [])) /\
  List.length (served (accept_loop three_peers [] [] [])) = 3%nat /\
  returned (client_main None None (start (connection (encodeFrame reply_bytes) [] [])))
    = Some tt /\
  closed_once
    (conn (final (client_main None None (start (connection (encodeFrame reply_bytes) [] []))))).
Proof.
  assert (H1 : forall sa ep, In (Accepted sa ep) three_peers -> closes (calls ep) = 0%nat).
  { intros sa ep [E|[E|[E|[]]]]; inversion E; reflexivity. }
  assert (H2 : closes (calls (conn (start (connection (encodeFrame reply_bytes) [] [])))) = 0%nat)
    by reflexivity.
  split; [exact H1|]. split; [exact H2|].
  pose proof (endpoints_closed_once three_peers [] []
                (start (connection (encodeFrame reply_bytes) [] [])) H1 H2) as W.
  cbv zeta in W. destruct W as (_ & W & _ & Wall & _ & _ & Wcli & _).
  split; [exact W|].
  split; [exact (proj2 (Wall three_peers_answer))|].
  set (connected :=
         mkState (conn (start (connection (encodeFrame reply_bytes) [] [])))
                 (mem (start (connection (encodeFrame reply_bytes) [] [])))
                 (stdout (start (connection (encodeFrame reply_bytes) [] []))
                    ++ [("Connected to Redis server at 127.0.0.1:8000" ++ nl)%string])) in *.
  assert (Hq : query "PING" connected = Ok None (final (query "PING" connected)))
    by (vm_compute; reflexivity).
  destruct (Wcli None (final (query "PING" connected)) Hq) as (Hrun & _ & Hclosed).
  split; [rewrite Hrun; reflexivity | exact Hclosed].
Defined.

(** * Further properties of the code *)

(** ** What one system call changes *)

Lemma syscall_Read_effect (p : slice) (st st' : state) (n : Z) (e : error) :
  syscall_Read p st = Ok (n, e) st' ->
  tx (conn st') = tx (conn st) /\ tx_plan (conn st') = tx_plan (conn st) /\
  stdout st' = stdout st /\
  match e with
  | Some _ => rx (conn st') = rx (conn st) /\ mem st' = mem st
  | None =>
      0 <= n <= Z.max 0 (slen p) /\
      (Z.to_nat n <= List.length (rx (conn st)))%nat /\
      rx (conn st') = skipn (Z.to_nat n) (rx (conn st)) /\
      mem st' = write_bytes (mem st) p (firstn (Z.to_nat n) (rx (conn st)))
  end.
Proof.
  unfold syscall_Read.
  destruct (rx_plan (conn st)) as [|[e0|c] plan]; cbn [next_xfer];
    intros H; inversion H; subst; cbn [conn mem stdout tx tx_plan rx];
    repeat split; try reflexivity; rewrite ?Nat2Z.id; try reflexivity;
    cbn [granted]; lia.
Qed.

Lemma syscall_Write_effect (p : slice) (st st' : state) (n : Z) (e : error) :
  syscall_Write p st = Ok (n, e) st' ->
  rx (conn st') = rx (conn st) /\ rx_plan (conn st') = rx_plan (conn st) /\
  stdout st' = stdout st /\ mem st' = mem st /\
  match e with
  | Some _ => tx (conn st') = tx (conn st)
  | None =>
      0 <= n <= Z.max 0 (slen p) /\
      tx (conn st') = tx (conn st) ++ firstn (Z.to_nat n) (bytes_of (mem st) p)
  end.
Proof.
  unfold syscall_Write.
  destruct (tx_plan (conn st)) as [|[e0|c] plan]; cbn [next_xfer];
    intros H; inversion H; subst; cbn [conn mem stdout tx tx_plan rx];
    repeat split; try reflexivity; rewrite ?Nat2Z.id; try reflexivity;
    cbn [granted]; lia.
Qed.

Lemma firstn_plus {A} (n k : nat) (l : list A) :
  firstn (n + k) l = firstn n l ++ firstn k (skipn n l).
Proof.
  revert l. induction n as [|n IH]; intros [|x l]; cbn; try reflexivity.
  - now rewrite firstn_nil.
  - now rewrite IH.
Qed.

Lemma remaining_exact (len n : Z) :
  0 <= n <= len -> len < 2 ^ 63 -> int_sub len n = len - n.
Proof. intros H1 H2. unfold int_sub. apply wrap_int_small. lia. Qed.

Lemma remaining_le (len n : Z) : 0 <= n <= len -> int_sub len n <= len - n.
Proof.
  intros H. unfold int_sub.
  destruct (Z.lt_ge_cases (len - n) (2 ^ 63)).
  - rewrite wrap_int_small; lia.
  - pose proof (wrap_int_upper (len - n)). lia.
Qed.

(** ** What the two loops change, whatever the kernel does *)

Lemma set_array_length (h : heap) (a : nat) (bs : list byte) :
  List.length (set_array h a bs) = List.length h.
Proof.
  revert a. induction h as [|x h IH]; intros [|a]; cbn; try reflexivity.
  now rewrite IH.
Qed.

Lemma took_trans (k1 k2 : nat) (st st1 st2 : state) :
  took k1 st st1 -> took k2 st1 st2 -> took (k1 + k2) st st2.
Proof.
  unfold took. intros H1 H2. rewrite H2, H1, skipn_skipn. f_equal. lia.
Qed.

(** [read_full] changes neither what was written nor the output; it
    takes at most [len] bytes from the front of the stream. *)
Lemma read_full_loop_effect (fuel : nat) :
  forall buf offset len st,
  let st' := final (read_full_loop fuel buf offset len st) in
  tx (conn st') = tx (conn st) /\ tx_plan (conn st') = tx_plan (conn st) /\
  stdout st' = stdout st /\ List.length (mem st') = List.length (mem st) /\
  exists k, Z.of_nat k <= Z.max 0 len /\ took k st st'.
Proof.
  induction fuel as [|fuel IH]; intros buf offset len st; cbn zeta;
    cbn [read_full_loop].
  - destruct (len >? 0); cbn [final ret];
      (repeat split; try reflexivity); exists 0%nat; (split; [lia | reflexivity]).
  - destruct (len >? 0) eqn:Hpos;
      [| cbn [final ret]; (repeat split; try reflexivity);
         exists 0%nat; (split; [lia | reflexivity])].
    rewrite Z.gtb_ltb in Hpos. apply Z.ltb_lt in Hpos.
    destruct (reslice_cases buf offset len st) as [(Hb & Hc & Hs)|Hs].
    + rewrite (bind_Ok _ _ _ _ _ Hs).
      destruct (syscall_Read_returns
                  (mkSlice (sarr buf) (sbase buf + offset) (len - offset) (scap buf - offset)) st)
        as (n & e & st1 & Hr & _).
      rewrite (bind_Ok _ _ _ _ _ Hr). cbn [fst snd].
      destruct (syscall_Read_effect _ _ _ _ _ Hr) as (Ht & Htp & Ho & He).
      destruct e as [e|].
      * destruct He as [Hrx Hm]. cbn [final ret].
        rewrite Ht, Htp, Ho, Hm. repeat split; try reflexivity.
        exists 0%nat. split; [lia | exact Hrx].
      * destruct He as (Hn & Hav & Hrx & Hm). cbn [slen] in Hn.
        assert (Hlen1 : List.length (mem st1) = List.length (mem st))
          by (rewrite Hm; apply set_array_length).
        destruct (n =? 0) eqn:Hz.
        -- cbn [final ret]. rewrite Ht, Htp, Ho, Hlen1. repeat split; try reflexivity.
           apply Z.eqb_eq in Hz. subst n. exists 0%nat. split; [lia | exact Hrx].
        -- apply Z.eqb_neq in Hz.
           destruct (IH buf (int_add offset n) (int_sub len n) st1)
             as (Ht' & Htp' & Ho' & Hl' & k & Hk & Htk).
           rewrite Ht', Htp', Ho', Hl', Ht, Htp, Ho, Hlen1.
           repeat split; try reflexivity.
           exists (Z.to_nat n + k)%nat. split.
           ++ pose proof (remaining_le len n ltac:(lia)). lia.
           ++ eapply took_trans; [exact Hrx | exact Htk].
    + rewrite (bind_Panic _ _ _ _ _ Hs). cbn [final].
      repeat split; try reflexivity. exists 0%nat. split; [lia | reflexivity].
Qed.

(** [write_full] changes neither the stream, the memory nor the output;
    what it hands to the kernel are bytes of the buffer, in order and
    without gaps, starting at its current offset. *)
Lemma write_full_loop_effect (fuel : nat) :
  forall buf offset total st,
  0 <= sbase buf -> 0 <= offset -> total < 2 ^ 63 ->
  let st' := final (write_full_loop fuel buf offset total st) in
  rx (conn st') = rx (conn st) /\ rx_plan (conn st') = rx_plan (conn st) /\
  stdout st' = stdout st /\ mem st' = mem st /\
  exists k, offset + Z.of_nat k <= Z.max offset total /\
    wrote (firstn k (skipn (Z.to_nat (sbase buf + offset))
                           (array_of (mem st) (sarr buf)))) st st'.
Proof.
  induction fuel as [|fuel IH]; intros buf offset total st Hbase Hoff Hmax;
    cbn zeta; cbn [write_full_loop].
  - destruct (total >? 0); cbn [final ret];
      (repeat split; try reflexivity); exists 0%nat;
      (split; [lia | unfold wrote; cbn [firstn]; now rewrite app_nil_r]).
  - destruct (total >? 0) eqn:Hpos;
      [| cbn [final ret]; (repeat split; try reflexivity);
         exists 0%nat; (split; [lia | unfold wrote; cbn [firstn]; now rewrite app_nil_r])].
    rewrite Z.gtb_ltb in Hpos. apply Z.ltb_lt in Hpos.
    destruct (reslice_cases buf offset total st) as [(Hb & Hc & Hs)|Hs].
    + rewrite (bind_Ok _ _ _ _ _ Hs).
      destruct (syscall_Write_returns
                  (mkSlice (sarr buf) (sbase buf + offset) (total - offset) (scap buf - offset)) st)
        as (n & e & st1 & Hr & _).
      rewrite (bind_Ok _ _ _ _ _ Hr). cbn [fst snd].
      destruct (syscall_Write_effect _ _ _ _ _ Hr) as (Hrx & Hrp & Ho & Hm & He).
      destruct e as [e|].
      * cbn [final ret]. rewrite Hrx, Hrp, Ho, Hm. repeat split; try reflexivity.
        exists 0%nat. split; [lia|]. unfold wrote. cbn [firstn].
        now rewrite app_nil_r, He.
      * destruct He as (Hn & Htx). cbn [slen] in Hn.
        destruct (n =? 0) eqn:Hz.
        -- cbn [final ret]. rewrite Hrx, Hrp, Ho, Hm. repeat split; try reflexivity.
           apply Z.eqb_eq in Hz. subst n. exists 0%nat. split; [lia|].
           unfold wrote. rewrite Htx. reflexivity.
        -- apply Z.eqb_neq in Hz.
           unfold int_add. rewrite (wrap_int_small (offset + n)) by lia.
           rewrite (remaining_exact total n) by lia.
           destruct (IH buf (offset + n) (total - n) st1 Hbase ltac:(lia) ltac:(lia))
             as (Hrx' & Hrp' & Ho' & Hm' & k & Hk & Htk).
           rewrite Hrx', Hrp', Ho', Hm', Hrx, Hrp, Ho, Hm.
           repeat split; try reflexivity.
           exists (Z.to_nat n + k)%nat. split; [lia|].
           unfold wrote in *. rewrite Htk, Htx, Hm, <- app_assoc. f_equal.
           unfold bytes_of. cbn [slen sbase sarr].
           rewrite firstn_firstn.
           replace (Nat.min (Z.to_nat n) (Z.to_nat (total - offset))) with (Z.to_nat n) by lia.
           rewrite firstn_plus, skipn_skipn.
           replace (Z.to_nat n + Z.to_nat (sbase buf + offset))%nat
             with (Z.to_nat (sbase buf + (offset + n))) by lia.
           reflexivity.
    + rewrite (bind_Panic _ _ _ _ _ Hs). cbn [final].
      repeat split; try reflexivity. exists 0%nat. split; [lia|].
      unfold wrote. cbn [firstn]. now rewrite app_nil_r.
Qed.

Lemma array_of_set_array (h : heap) (a : nat) (bs : list byte) :
  (a < List.length h)%nat -> array_of (set_array h a bs) a = bs.
Proof.
  unfold array_of. revert a.
  induction h as [|x h IH]; intros [|a] Ha; cbn in *; try lia; try reflexivity.
  apply IH. lia.
Qed.

(** A [nil] from [read_full] for [len > 0]: the first read moved [len]
    bytes and the loop ended there. *)
Lemma read_full_nil_inv (buf : slice) (len : Z) (st : state) :
  0 < len < 2 ^ 63 ->
  returned (read_full buf len st) = Some None ->
  exists st1,
    syscall_Read (mkSlice (sarr buf) (sbase buf + 0) (len - 0) (scap buf - 0)) st
      = Ok (len, None) st1 /\
    read_full buf len st = Ok None st1.
Proof.
  intros Hlen. unfold read_full.
  destruct (Z.to_nat len) as [|k] eqn:Ek; [lia|].
  cbn [read_full_loop].
  replace (len >? 0) with true by (symmetry; apply Z.gtb_lt; lia).
  destruct (reslice_cases buf 0 len st) as [(Hb & Hc & Hs)|Hs].
  - rewrite (bind_Ok _ _ _ _ _ Hs).
    destruct (syscall_Read_returns
                (mkSlice (sarr buf) (sbase buf + 0) (len - 0) (scap buf - 0)) st)
      as (n & e & st1 & Hr & Hn).
    rewrite (bind_Ok _ _ _ _ _ Hr). cbn [fst snd].
    destruct e as [e|]; [discriminate|].
    specialize (Hn eq_refl). cbn [slen] in Hn.
    destruct (n =? 0) eqn:Hz; [discriminate|].
    apply Z.eqb_neq in Hz.
    unfold int_add, int_sub. rewrite !wrap_int_small by lia.
    destruct (Z.eq_dec n len) as [->|Hne].
    + intros _. exists st1. split; [exact Hr|].
      rewrite Z.sub_diag. destruct k; reflexivity.
    + intros H. exfalso. revert H. apply read_full_loop_no_nil; lia.
  - rewrite (bind_Panic _ _ _ _ _ Hs). discriminate.
Qed.

Lemma write_full_nil_inv (buf : slice) (st : state) :
  0 < slen buf < 2 ^ 63 ->
  returned (write_full buf st) = Some None ->
  exists st1,
    syscall_Write (mkSlice (sarr buf) (sbase buf + 0) (slen buf - 0) (scap buf - 0)) st
      = Ok (slen buf, None) st1 /\
    write_full buf st = Ok None st1.
Proof.
  intros Hlen. unfold write_full.
  destruct (Z.to_nat (slen buf)) as [|k] eqn:Ek; [lia|].
  cbn [write_full_loop].
  replace (slen buf >? 0) with true by (symmetry; apply Z.gtb_lt; lia).
  destruct (reslice_cases buf 0 (slen buf) st) as [(Hb & Hc & Hs)|Hs].
  - rewrite (bind_Ok _ _ _ _ _ Hs).
    destruct (syscall_Write_returns
                (mkSlice (sarr buf) (sbase buf + 0) (slen buf - 0) (scap buf - 0)) st)
      as (n & e & st1 & Hr & Hn).
    rewrite (bind_Ok _ _ _ _ _ Hr). cbn [fst snd].
    destruct e as [e|]; [discriminate|].
    specialize (Hn eq_refl). cbn [slen] in Hn.
    destruct (n =? 0) eqn:Hz; [discriminate|].
    apply Z.eqb_neq in Hz.
    unfold int_add, int_sub. rewrite !wrap_int_small by lia.
    destruct (Z.eq_dec n (slen buf)) as [->|Hne].
    + intros _. exists st1. split; [exact Hr|].
      rewrite Z.sub_diag. destruct k; reflexivity.
    + intros H. exfalso. revert H. apply write_full_loop_no_nil; lia.
  - rewrite (bind_Panic _ _ _ _ _ Hs). discriminate.
Qed.

(** ** [read_full] and [write_full]: what holds despite partial transfers *)

(** X1. When [read_full] returns [nil], the first [len] bytes of the
    buffer are the next [len] bytes of the stream, which have been taken
    from it, and for [len > 0] this took a single read. The buffer lies
    within its array for [len] bytes. *)
Theorem read_full_nil_means_filled (buf : slice) (len : Z) (st : state) :
  len < 2 ^ 63 ->
  fits (mem st) buf len ->
  returned (read_full buf len st) = Some None ->
  let st' := final (read_full buf len st) in
  bytes_of (mem st') (mkSlice (sarr buf) (sbase buf) len (scap buf))
    = firstn (Z.to_nat len) (rx (conn st)) /\
  (Z.to_nat len <= List.length (rx (conn st)))%nat /\
  took (Z.to_nat len) st st' /\
  (len <= 0 \/
   calls (conn st') = calls (conn st) ++ [EvRead (Z.to_nat len) (Some (Z.to_nat len))]).
Proof.
  intros Hmax (Harr & Hbase & Hfit) Hnil. cbv zeta.
  destruct (Z.le_gt_cases len 0) as [Hle|Hpos].
  - rewrite read_full_nothing by exact Hle. cbn [final].
    unfold bytes_of, took. cbn [slen].
    replace (Z.to_nat len) with 0%nat by lia.
    repeat split; try reflexivity; try lia.
  - pose proof (read_full_nil_only_whole buf len st Hmax Hnil) as Hcalls.
    destruct (read_full_nil_inv buf len st ltac:(lia) Hnil) as (st1 & Hr & Hrun).
    rewrite Hrun in *. cbn [final] in *.
    destruct (syscall_Read_effect _ _ _ _ _ Hr) as (_ & _ & _ & Hn & Hav & Hrx & Hm).
    repeat split; try assumption.
    rewrite Hm. unfold bytes_of, write_bytes. cbn [sarr sbase slen].
    rewrite Z.add_0_r, array_of_set_array by exact Harr.
    assert (Hd : List.length (firstn (Z.to_nat len) (rx (conn st))) = Z.to_nat len)
      by (rewrite length_firstn; lia).
    rewrite <- Hd at 1. apply store_read. rewrite Hd. exact Hfit.
Qed.

(** Every run of [write_full]: the stream, the memory and the output are
    kept, and a prefix of the buffer is handed to the kernel. *)
Lemma write_full_effect (buf : slice) (st : state) :
  0 <= sbase buf -> slen buf < 2 ^ 63 ->
  let st' := final (write_full buf st) in
  rx (conn st') = rx (conn st) /\ mem st' = mem st /\ stdout st' = stdout st /\
  exists k, Z.of_nat k <= Z.max 0 (slen buf) /\
            wrote (firstn k (bytes_of (mem st) buf)) st st'.
Proof.
  intros Hbase Hmax. cbv zeta. unfold write_full.
  destruct (write_full_loop_effect (Z.to_nat (slen buf)) buf 0 (slen buf) st
              Hbase ltac:(lia) Hmax) as (Hrx & _ & Ho & Hm & k & Hk & Hw).
  repeat split; try assumption.
  exists k. split; [lia|].
  unfold bytes_of. rewrite firstn_firstn.
  replace (Nat.min k (Z.to_nat (slen buf))) with k by lia.
  now rewrite Z.add_0_r in Hw.
Qed.

(** X2. Whatever the kernel does, [write_full] leaves the stream, the
    memory and the output as they were, and what it has handed to the
    kernel when it ends (with [nil], an error or a panic) is a prefix of
    the buffer: bytes are never sent twice, skipped or reordered. *)
Theorem write_full_sends_prefix (buf : slice) (st : state) :
  0 <= sbase buf -> slen buf < 2 ^ 63 ->
  let st' := final (write_full buf st) in
  rx (conn st') = rx (conn st) /\ mem st' = mem st /\ stdout st' = stdout st /\
  exists k, Z.of_nat k <= Z.max 0 (slen buf) /\
            wrote (firstn k (bytes_of (mem st) buf)) st st'.
Proof. exact (write_full_effect buf st). Qed.

(** Every run of [write_full] that returns [nil]. *)
Lemma write_full_nil_effect (buf : slice) (st : state) :
  slen buf < 2 ^ 63 ->
  returned (write_full buf st) = Some None ->
  let st' := final (write_full buf st) in
  wrote (bytes_of (mem st) buf) st st' /\
  (slen buf <= 0 \/
   calls (conn st') =
     calls (conn st) ++ [EvWrite (Z.to_nat (slen buf)) (Some (Z.to_nat (slen buf)))]).
Proof.
  intros Hmax Hnil. cbv zeta.
  split; [|exact (write_full_nil_only_whole buf st Hmax Hnil)].
  destruct (Z.le_gt_cases (slen buf) 0) as [Hle|Hpos].
  - unfold write_full, wrote, bytes_of.
    replace (Z.to_nat (slen buf)) with 0%nat by lia. cbn [write_full_loop firstn].
    replace (slen buf >? 0) with false
      by (rewrite Z.gtb_ltb; symmetry; apply Z.ltb_ge; lia).
    cbn [final ret]. now rewrite app_nil_r.
  - destruct (write_full_nil_inv buf st ltac:(lia) Hnil) as (st1 & Hr & Hrun).
    rewrite Hrun. cbn [final].
    destruct (syscall_Write_effect _ _ _ _ _ Hr) as (_ & _ & _ & _ & _ & Htx).
    unfold wrote. rewrite Htx. f_equal.
    unfold bytes_of. cbn [sarr sbase slen].
    rewrite Z.add_0_r, Z.sub_0_r. apply firstn_all2.
    rewrite length_firstn. lia.
Qed.

(** X3. When [write_full] returns [nil], the whole buffer has been
    handed to the kernel, and for a non-empty buffer by a single write. *)
Theorem write_full_nil_means_sent (buf : slice) (st : state) :
  slen buf < 2 ^ 63 ->
  returned (write_full buf st) = Some None ->
  let st' := final (write_full buf st) in
  wrote (bytes_of (mem st) buf) st st' /\
  (slen buf <= 0 \/
   calls (conn st') =
     calls (conn st) ++ [EvWrite (Z.to_nat (slen buf)) (Some (Z.to_nat (slen buf)))]).
Proof. exact (write_full_nil_effect buf st). Qed.

(** Every run of [read_full]: what was written and printed is kept, and
    at most [len] bytes are taken from the stream. *)
Lemma read_full_effect (buf : slice) (len : Z) (st : state) :
  let st' := final (read_full buf len st) in
  (exists k, Z.of_nat k <= Z.max 0 len /\ took k st st') /\
  tx (conn st') = tx (conn st) /\ stdout st' = stdout st.
Proof.
  cbv zeta. unfold read_full.
  destruct (read_full_loop_effect (Z.to_nat len) buf 0 len st)
    as (Ht & _ & Ho & _ & k & Hk & Htk).
  split; [exists k; split; assumption | split; assumption].
Qed.

(** X4. Whatever the kernel does, [read_full] takes at most [len] bytes
    from the front of the stream, and it neither writes to the
    descriptor nor prints. *)
Theorem read_full_takes_at_most (buf : slice) (len : Z) (st : state) :
  let st' := final (read_full buf len st) in
  (exists k, Z.of_nat k <= Z.max 0 len /\ took k st st') /\
  tx (conn st') = tx (conn st) /\ stdout st' = stdout st.
Proof. exact (read_full_effect buf len st). Qed.

(** ** [one_request] and [query] on any stream and any kernel *)

Lemma bind_cases {A B} (m : M A) (f : A -> M B) (st : state)
    (Q : outcome B -> Prop) :
  (forall a st', m st = Ok a st' -> Q (f a st')) ->
  (forall msg st', m st = Panic msg st' -> Q (Panic msg st')) ->
  (forall st', m st = OutOfFuel st' -> Q (OutOfFuel st')) ->
  Q (bind m f st).
Proof.
  intros HOk HPanic HFuel. unfold bind.
  destruct (m st) as [a st'|msg st'|st'] eqn:E; auto.
Qed.

Lemma Uint32_Ok (b : slice) (st : state) :
  4 <= slen b -> Uint32 b st = Ok (le_uint32 (bytes_of (mem st) b)) st.
Proof.
  intros H. unfold Uint32.
  replace (slen b <? 4) with false by (symmetry; apply Z.ltb_ge; lia).
  reflexivity.
Qed.

(** A run that has written nothing and has not returned [nil]. *)
Lemma served_like_quiet (st : state) (o : outcome error) (k : nat) :
  (k <= 4100)%nat -> took k st (final o) ->
  tx (conn (final o)) = tx (conn st) ->
  returned o <> Some None ->
  served_like st o.
Proof.
  intros Hk Htook Htx Hret. unfold served_like. cbv zeta.
  split; [exists k; split; assumption|].
  split; [exists 0%nat; unfold wrote; cbn [firstn]; now rewrite app_nil_r, Htx|].
  split; [intros H; contradiction|].
  intros H. contradiction.
Qed.

(** A run that got as far as writing the reply. *)
Lemma served_like_replied (st : state) (o : outcome error) (k j : nat)
    (said : string) (more : list string) :
  (k <= 4100)%nat -> took k st (final o) ->
  wrote (firstn j (encodeFrame reply_bytes)) st (final o) ->
  (returned o = Some None -> wrote (encodeFrame reply_bytes) st (final o)) ->
  stdout (final o) = stdout st ++ ("client says: " ++ said ++ nl)%string :: more ->
  served_like st o.
Proof.
  intros Hk Htook Hw Hnil Hout. unfold served_like. cbv zeta.
  split; [exists k; split; assumption|].
  split; [exists j; exact Hw|].
  split; [exact Hnil|].
  intros _. exists said, more. exact Hout.
Qed.

Lemma reply_buffer :
  store (store (repeat x00 (Z.to_nat 17)) (Z.to_nat (0 + 0)) (le_bytes32 13))
        (Z.to_nat (0 + 4)) (list_byte_of_string "Hello world!!")
  = encodeFrame reply_bytes.
Proof. reflexivity. Qed.

Lemma reply_window :
  firstn (Z.to_nat 17) (skipn (Z.to_nat 0) (encodeFrame reply_bytes))
  = encodeFrame reply_bytes.
Proof. reflexivity. Qed.

(** Every run of [one_request], on any stream and any kernel. *)
Lemma one_request_served_like (st : state) : served_like st (one_request st).
Proof.
  destruct st as [ep h out]. unfold one_request.
  run_with ltac:(apply make_Ok; unfold kMaxMsg; lia).
  set (st0 := mkState ep h out).
  (* the header *)
  match goal with |- served_like _ (bind (read_full ?b ?n) _ ?s) =>
    pose proof (read_full_effect b n s) as Hh end.
  cbv zeta in Hh. destruct Hh as ((k1 & Hk1 & Ht1) & Htx1 & Ho1).
  unfold took in Ht1.
  apply bind_cases; [intros e1 st1 E1 | intros msg st1 E1 | intros st1 E1];
    rewrite E1 in *; cbn [final conn mem stdout] in *.
  2,3: apply (served_like_quiet st0 _ k1); cbn [final returned];
       [lia | exact Ht1 | exact Htx1 | discriminate].
  destruct e1 as [e1|].
  { unfold bind, print, ret.
    apply (served_like_quiet st0 _ k1); cbn [final returned conn];
      [lia | exact Ht1 | exact Htx1 | discriminate]. }
  run_with ltac:(apply reslice_Ok; cbn [scap]; unfold kMaxMsg; lia).
  run_with ltac:(apply Uint32_Ok; cbn [slen]; lia).
  match goal with |- context [le_uint32 ?bs] =>
    pose proof (le_uint32_range bs) as HL; set (L := le_uint32 bs) in * end.
  destruct (L >? kMaxMsg) eqn:Hbig.
  { unfold bind, print, ret.
    apply (served_like_quiet st0 _ k1); cbn [final returned conn];
      [lia | exact Ht1 | exact Htx1 | discriminate]. }
  rewrite Z.gtb_ltb in Hbig. apply Z.ltb_ge in Hbig. unfold kMaxMsg in Hbig.
  assert (E : uint32_add 4 L = 4 + L) by (apply wrap_uint32_small; lia).
  rewrite E.
  run_with ltac:(apply reslice_Ok; cbn [scap]; unfold kMaxMsg; lia).
  (* the body *)
  match goal with |- served_like _ (bind (read_full ?b ?n) _ ?s) =>
    pose proof (read_full_effect b n s) as Hb end.
  cbv zeta in Hb. destruct Hb as ((k2 & Hk2 & Ht2) & Htx2 & Ho2).
  unfold took in Ht2.
  assert (Hk : (k1 + k2 <= 4100)%nat) by lia.
  apply bind_cases; [intros e2 st2 E2 | intros msg st2 E2 | intros st2 E2];
    rewrite E2 in *; cbn [final conn mem stdout] in *;
    assert (Ht : took (k1 + k2) st0 st2)
      by (unfold took; cbn [conn]; rewrite Ht2, Ht1, skipn_skipn; f_equal; lia).
  2,3: apply (served_like_quiet st0 _ (k1 + k2)); cbn [final returned];
       [lia | exact Ht | unfold st0; cbn [conn]; congruence | discriminate].
  destruct e2 as [e2|].
  { unfold bind, print, ret.
    apply (served_like_quiet st0 _ (k1 + k2)); cbn [final returned conn];
      [lia | exact Ht | unfold st0; cbn [conn]; congruence | discriminate]. }
  run_with ltac:(apply reslice_Ok; cbn [scap]; unfold kMaxMsg; lia).
  unfold string_of at 1. unfold bind at 1.
  unfold print at 1. unfold bind at 1.
  cbv zeta.
  change (wrap_uint32 (Z.of_nat (List.length (list_byte_of_string "Hello world!!"))))
    with 13.
  change (uint32_add 4 13) with 17.
  run_with ltac:(apply make_Ok; lia).
  run_with ltac:(apply reslice_Ok; cbn [scap]; lia).
  run_with ltac:(apply PutUint32_new; cbn [sarr slen]; [reflexivity | lia]).
  cbn [slen scap sarr sbase].
  run_with ltac:(apply reslice_Ok; cbn [scap]; lia).
  run_with ltac:(apply copy_new; cbn [sarr slen]; [reflexivity | vm_compute; lia]).
  cbn [slen scap sarr sbase].
  rewrite reply_buffer.
  match goal with |- served_like _ (bind (write_full ?b) _ ?s) =>
    pose proof (write_full_effect b s ltac:(cbn [sbase]; lia) ltac:(cbn [slen]; lia)) as Hw;
    pose proof (write_full_nil_effect b s ltac:(cbn [slen]; lia)) as Hnil
  end.
  cbv zeta in Hw, Hnil. cbn [mem conn stdout] in Hw, Hnil.
  rewrite bytes_of_new in Hw, Hnil by reflexivity.
  cbn [slen sbase] in Hw, Hnil.
  rewrite reply_window in Hw, Hnil.
  destruct Hw as (Hrx3 & _ & Ho3 & j & _ & Hj).
  unfold wrote, took in *. unfold st0 in *. cbn [conn stdout] in *.
  rewrite Htx2, Htx1 in Hj, Hnil.
  apply bind_cases; [intros e3 st3 E3 | intros msg st3 E3 | intros st3 E3];
    rewrite E3 in *; cbn [final returned conn mem stdout] in *.
  - destruct e3 as [e3|].
    + unfold bind, print, ret.
      eapply (served_like_replied st0 _ (k1 + k2) j);
        unfold wrote, took; cbn [final returned conn stdout];
        [lia | rewrite Hrx3; exact Ht | exact Hj | discriminate
         | rewrite Ho3, Ho2, Ho1, <- app_assoc; reflexivity].
    + unfold ret.
      eapply (served_like_replied st0 _ (k1 + k2) j);
        unfold wrote, took; cbn [final returned conn stdout];
        [lia | rewrite Hrx3; exact Ht | exact Hj | intros _; now apply Hnil
         | rewrite Ho3, Ho2, Ho1; reflexivity].
  - eapply (served_like_replied st0 _ (k1 + k2) j);
      unfold wrote, took; cbn [final returned conn stdout];
      [lia | rewrite Hrx3; exact Ht | exact Hj | discriminate
       | rewrite Ho3, Ho2, Ho1; reflexivity].
  - eapply (served_like_replied st0 _ (k1 + k2) j);
      unfold wrote, took; cbn [final returned conn stdout];
      [lia | rewrite Hrx3; exact Ht | exact Hj | discriminate
       | rewrite Ho3, Ho2, Ho1; reflexivity].
Qed.

(** Every run of the sending half of [query]. *)
Lemma query_send_sent_like (text : string) (st : state) :
  Z.of_nat (String.length text) <= kMaxMsg ->
  sent_like text st (query_send text st).
Proof.
  intros Hlen. destruct st as [ep h out]. unfold query_send, kMaxMsg in *.
  set (st0 := mkState ep h out).
  set (n := Z.of_nat (String.length text)) in *.
  assert (Hb : List.length (list_byte_of_string text) = String.length text)
    by apply length_list_byte_of_string.
  replace (n >? 4096) with false by (rewrite Z.gtb_ltb; symmetry; apply Z.ltb_ge; lia).
  assert (E : int_add 4 n = 4 + n) by (apply wrap_int_small; lia).
  rewrite E.
  run_with ltac:(apply make_Ok; lia).
  run_with ltac:(apply reslice_Ok; cbn [scap]; lia).
  run_with ltac:(apply PutUint32_new; cbn [sarr slen]; [reflexivity | lia]).
  cbn [slen scap sarr sbase].
  run_with ltac:(apply reslice_Ok; cbn [scap]; lia).
  run_with ltac:(apply copy_new; cbn [sarr slen]; [reflexivity | lia]).
  cbn [slen scap sarr sbase].
  rewrite (wrap_uint32_small n) by lia.
  subst n. rewrite <- Hb in *. rewrite frame_buffer.
  set (frame := encodeFrame (list_byte_of_string text)).
  assert (Hwin : firstn (Z.to_nat (4 + Z.of_nat (List.length (list_byte_of_string text))))
                   (skipn (Z.to_nat 0) frame) = frame).
  { change (Z.to_nat 0) with 0%nat. rewrite skipn_O. apply firstn_all2.
    unfold frame. rewrite encodeFrame_length. lia. }
  match goal with |- sent_like _ _ (bind (write_full ?b) _ ?s) =>
    pose proof (write_full_effect b s ltac:(cbn [sbase]; lia) ltac:(cbn [slen]; lia)) as Hw;
    pose proof (write_full_nil_effect b s ltac:(cbn [slen]; lia)) as Hnil
  end.
  cbv zeta in Hw, Hnil. cbn [mem conn stdout] in Hw, Hnil.
  rewrite bytes_of_new in Hw, Hnil by reflexivity.
  cbn [slen sbase] in Hw, Hnil. rewrite Hwin in Hw, Hnil.
  destruct Hw as (Hrx & _ & Ho & j & _ & Hj).
  unfold wrote in *. unfold st0. cbn [conn stdout] in *.
  apply bind_cases; [intros e1 st1 E1 | intros msg st1 E1 | intros st1 E1];
    rewrite E1 in *; cbn [final returned] in *; [destruct e1 as [e1|]|..];
    unfold sent_like, wrote, ret; cbn [final returned conn stdout];
    (split; [exact Hrx|]); (split; [exact Ho|]); (split; [exists j; exact Hj|]);
    try discriminate.
  intros _. now apply Hnil.
Qed.

(** Every run of the receiving half of [query]. *)
Lemma query_recv_received_like (st : state) : received_like st (query_recv st).
Proof.
  destruct st as [ep h out]. unfold query_recv.
  set (st0 := mkState ep h out).
  assert (Hquiet : forall (o : outcome error) (k : nat),
             (k <= 4100)%nat -> took k st0 (final o) ->
             tx (conn (final o)) = tx (conn st0) ->
             returned o <> Some None -> received_like st0 o).
  { intros o k Hk Ht Htx Hret. unfold received_like. cbv zeta.
    split; [exact Htx|]. split; [exists k; split; assumption|].
    intros H. contradiction. }
  run_with ltac:(apply make_Ok; unfold kMaxMsg; lia).
  run_with ltac:(apply reslice_Ok; cbn [scap]; unfold kMaxMsg; lia).
  match goal with |- received_like _ (bind (read_full ?b ?n) _ ?s) =>
    pose proof (read_full_effect b n s) as Hh end.
  cbv zeta in Hh. destruct Hh as ((k1 & Hk1 & Ht1) & Htx1 & Ho1).
  unfold took in Ht1.
  apply bind_cases; [intros e1 st1 E1 | intros msg st1 E1 | intros st1 E1];
    rewrite E1 in *; cbn [final conn mem stdout] in *.
  2,3: apply (Hquiet _ k1); cbn [final returned];
       [lia | exact Ht1 | exact Htx1 | discriminate].
  destruct e1 as [e1|].
  { unfold ret. apply (Hquiet _ k1); cbn [final returned conn];
      [lia | exact Ht1 | exact Htx1 | discriminate]. }
  run_with ltac:(apply reslice_Ok; cbn [scap]; unfold kMaxMsg; lia).
  run_with ltac:(apply Uint32_Ok; cbn [slen]; lia).
  match goal with |- context [le_uint32 ?bs] =>
    pose proof (le_uint32_range bs) as HL; set (L := le_uint32 bs) in * end.
  destruct (L >? kMaxMsg) eqn:Hbig.
  { unfold bind, print, ret.
    apply (Hquiet _ k1); cbn [final returned conn];
      [lia | exact Ht1 | exact Htx1 | discriminate]. }
  rewrite Z.gtb_ltb in Hbig. apply Z.ltb_ge in Hbig. unfold kMaxMsg in Hbig.
  assert (E : uint32_add 4 L = 4 + L) by (apply wrap_uint32_small; lia).
  rewrite E.
  run_with ltac:(apply reslice_Ok; cbn [scap]; unfold kMaxMsg; lia).
  match goal with |- received_like _ (bind (read_full ?b ?n) _ ?s) =>
    pose proof (read_full_effect b n s) as Hb end.
  cbv zeta in Hb. destruct Hb as ((k2 & Hk2 & Ht2) & Htx2 & Ho2).
  unfold took in Ht2.
  assert (Hk : (k1 + k2 <= 4100)%nat) by lia.
  apply bind_cases; [intros e2 st2 E2 | intros msg st2 E2 | intros st2 E2];
    rewrite E2 in *; cbn [final conn mem stdout] in *;
    assert (Ht : took (k1 + k2) st0 st2)
      by (unfold took; cbn [conn]; rewrite Ht2, Ht1, skipn_skipn; f_equal; lia).
  2,3: apply (Hquiet _ (k1 + k2)%nat); cbn [final returned];
       [lia | exact Ht | unfold st0; cbn [conn]; congruence | discriminate].
  destruct e2 as [e2|].
  { unfold bind, print, ret.
    apply (Hquiet _ (k1 + k2)%nat); cbn [final returned conn];
      [lia | exact Ht | unfold st0; cbn [conn]; congruence | discriminate]. }
  run_with ltac:(apply reslice_Ok; cbn [scap]; unfold kMaxMsg; lia).
  unfold string_of at 1. unfold bind at 1.
  unfold bind, print, ret. unfold received_like. cbn [final returned conn stdout].
  split; [unfold st0; cbn [conn]; congruence|].
  split; [exists (k1 + k2)%nat; split; [lia | exact Ht]|].
  intros _. eexists. rewrite Ho2, Ho1. reflexivity.
Qed.

(** Every run of [query], for every text. *)
Lemma query_queried_like (text : string) (st : state) :
  queried_like text st (query text st).
Proof.
  unfold query.
  destruct (Z.le_gt_cases (Z.of_nat (String.length text)) kMaxMsg) as [Hle|Hgt].
  - pose proof (query_send_sent_like text st Hle) as Hs.
    unfold sent_like in Hs. cbv zeta in Hs.
    destruct Hs as (Hrx & Ho & (j & Hj) & Hall).
    apply bind_cases; [intros e1 st1 E1 | intros msg st1 E1 | intros st1 E1];
      rewrite E1 in *; cbn [final returned] in *.
    + destruct e1 as [e1|].
      * unfold ret, queried_like. cbn [final returned].
        split; [exists 0%nat; split; [lia | exact Hrx]|].
        split; [exists j; exact Hj|].
        split; [intros H; contradiction | discriminate].
      * specialize (Hall eq_refl).
        pose proof (query_recv_received_like st1) as Hr.
        unfold received_like in Hr. cbv zeta in Hr.
        destruct Hr as (Htx & (k & Hk & Ht) & Hsaid).
        unfold queried_like, wrote, took in *. cbv zeta.
        assert (Hw : tx (conn (final (query_recv st1)))
                     = tx (conn st) ++ encodeFrame (list_byte_of_string text))
          by (rewrite Htx; exact Hall).
        split; [exists k; split; [exact Hk | now rewrite Ht, Hrx]|].
        split; [exists (List.length (encodeFrame (list_byte_of_string text)));
                now rewrite firstn_all|].
        split; [intros _; exact Hw|].
        intros Hnil. split; [exact Hw|].
        destruct (Hsaid Hnil) as (said & Hout). exists said. now rewrite Hout, Ho.
    + unfold queried_like. cbn [final returned].
      split; [exists 0%nat; split; [lia | exact Hrx]|].
      split; [exists j; exact Hj|].
      split; [intros H; contradiction | discriminate].
    + unfold queried_like. cbn [final returned].
      split; [exists 0%nat; split; [lia | exact Hrx]|].
      split; [exists j; exact Hj|].
      split; [intros H; contradiction | discriminate].
  - unfold query_send.
    replace (Z.of_nat (String.length text) >? kMaxMsg) with true
      by (symmetry; apply Z.gtb_lt; lia).
    unfold bind, ret, queried_like, wrote, took. cbn [final returned].
    split; [exists 0%nat; split; [lia | reflexivity]|].
    split; [exists 0%nat; cbn [firstn]; now rewrite app_nil_r|].
    split; [intros H; contradiction | discriminate].
Qed.

(** X5. Whatever the peer sends and however the kernel delivers it,
    [one_request] takes at most 4100 bytes (the header and a body of at
    most 4096) from the front of the stream. *)
Theorem one_request_reads_bounded (st : state) :
  exists k, (k <= 4100)%nat /\ took k st (final (one_request st)).
Proof. exact (proj1 (one_request_served_like st)). Qed.

(** X6. Whatever the peer sends and whatever the kernel does, the only
    bytes [one_request] hands to the kernel are a prefix of the frame of
    ["Hello world!!"], and when it returns [nil] that frame has been
    handed over in full. *)
Theorem one_request_sends_only_reply (st : state) :
  let st' := final (one_request st) in
  (exists j, wrote (firstn j (encodeFrame reply_bytes)) st st') /\
  (returned (one_request st) = Some None -> wrote (encodeFrame reply_bytes) st st').
Proof.
  cbv zeta. destruct (one_request_served_like st) as (_ & Hj & Hnil & _).
  split; assumption.
Qed.


(** X8. For every text and whatever the kernel does, the only bytes
    [query] hands to the kernel are a prefix of the frame of its text;
    when it returns [nil] the whole frame was handed over and a response
    was printed as the only output. *)
Theorem query_sends_only_request (text : string) (st : state) :
  let st' := final (query text st) in
  let frame := encodeFrame (list_byte_of_string text) in
  (exists j, wrote (firstn j frame) st st') /\
  (returned (query text st) = Some None ->
   wrote frame st st' /\
   exists said, stdout st' = stdout st ++ [("server says: " ++ said ++ nl)%string]).
Proof.
  cbv zeta. destruct (query_queried_like text st) as (_ & Hj & _ & Hnil).
  split; assumption.
Qed.

(** X9. [query] takes at most 4100 bytes from the stream, and it takes
    none before the whole request frame has been handed to the kernel. *)
Theorem query_reads_after_send (text : string) (st : state) :
  let st' := final (query text st) in
  (exists k, (k <= 4100)%nat /\ took k st st') /\
  (rx (conn st') <> rx (conn st) ->
   wrote (encodeFrame (list_byte_of_string text)) st st').
Proof.
  cbv zeta. destruct (query_queried_like text st) as (Hk & _ & Hrx & _).
  split; assumption.
Qed.

(** ** Errors of the kernel and of the peer *)

Lemma read_full_read_error (buf : slice) (n : Z) (e : string) rxs rp txs tp cs h out :
  0 < n -> n <= scap buf ->
  read_full buf n (mkState (mkEndpoint rxs (Fails e :: rp) txs tp cs) h out) =
  Ok (Some ("Error reading from socket: " ++ e)%string)
     (mkState (mkEndpoint rxs rp txs tp (cs ++ [EvRead (Z.to_nat n) None])) h out).
Proof.
  intros Hn Hcap. unfold read_full.
  destruct (Z.to_nat n) as [|k] eqn:Ek; [lia|].
  cbn [read_full_loop].
  replace (n >? 0) with true by (symmetry; apply Z.gtb_lt; lia).
  rewrite (bind_Ok _ _ _ _ _ (reslice_Ok buf 0 n _ ltac:(lia) ltac:(lia) Hcap)).
  unfold bind at 1. unfold syscall_Read.
  cbn [conn rx_plan next_xfer slen rx tx tx_plan calls mem stdout snd fst].
  now rewrite Z.sub_0_r, Ek.
Qed.

Lemma write_full_write_error (buf : slice) (e : string) rxs rp txs tp cs h out :
  0 < slen buf -> slen buf <= scap buf ->
  write_full buf (mkState (mkEndpoint rxs rp txs (Fails e :: tp) cs) h out) =
  Ok (Some ("Error writing to socket: " ++ e)%string)
     (mkState (mkEndpoint rxs rp txs tp (cs ++ [EvWrite (Z.to_nat (slen buf)) None])) h out).
Proof.
  intros Hn Hcap. unfold write_full.
  destruct (Z.to_nat (slen buf)) as [|k] eqn:Ek; [lia|].
  cbn [write_full_loop].
  replace (slen buf >? 0) with true by (symmetry; apply Z.gtb_lt; lia).
  rewrite (bind_Ok _ _ _ _ _ (reslice_Ok buf 0 (slen buf) _ ltac:(lia) ltac:(lia) Hcap)).
  unfold bind at 1. unfold syscall_Write.
  cbn [conn rx_plan next_xfer slen rx tx tx_plan calls mem stdout snd fst].
  now rewrite Z.sub_0_r, Ek.
Qed.

(** X10. The kernel fails the first read with errno [e]: [one_request]
    returns [read_full]'s error for [e], prints it, and leaves the
    stream and what was written as they were; its only call is that
    read. *)
Theorem one_request_read_error (e : string) rxs rp txs tp cs h out :
  let r := one_request (mkState (mkEndpoint rxs (Fails e :: rp) txs tp cs) h out) in
  returned r = Some (Some ("Error reading from socket: " ++ e)%string) /\
  conn (final r) = mkEndpoint rxs rp txs tp (cs ++ [EvRead 4 None]) /\
  stdout (final r) =
    out ++ [("Error reading from socket: " ++ ("Error reading from socket: " ++ e) ++ nl)%string].
Proof.
  cbv zeta. unfold one_request.
  run_with ltac:(apply make_Ok; unfold kMaxMsg; lia).
  run_with ltac:(apply read_full_read_error; cbn [scap]; unfold kMaxMsg; lia).
  cbv beta iota. unfold bind, print, ret. cbn [final returned conn stdout].
  repeat split; reflexivity.
Qed.

(** X11. The kernel fails the first write with errno [e]: [query]
    returns [write_full]'s error for [e] under its own prefix, issues no
    read, prints nothing and leaves the stream as it was. *)
Theorem query_write_error (text e : string) rxs rp txs tp cs h out :
  Z.of_nat (String.length text) <= kMaxMsg ->
  let r := query text (mkState (mkEndpoint rxs rp txs (Fails e :: tp) cs) h out) in
  returned r = Some (Some ("write_all error: " ++ ("Error writing to socket: " ++ e))%string) /\
  conn (final r) =
    mkEndpoint rxs rp txs tp (cs ++ [EvWrite (4 + String.length text) None]) /\
  stdout (final r) = out.
Proof.
  intros Hlen. cbv zeta. unfold query, query_send, kMaxMsg in *.
  set (n := Z.of_nat (String.length text)) in *.
  assert (Hb : List.length (list_byte_of_string text) = String.length text)
    by apply length_list_byte_of_string.
  replace (n >? 4096) with false by (rewrite Z.gtb_ltb; symmetry; apply Z.ltb_ge; lia).
  assert (E : int_add 4 n = 4 + n) by (apply wrap_int_small; lia).
  rewrite E.
  assert (Hsend :
    (wbuf <- make (4 + n) ;;
     hdr <- reslice wbuf 0 4 ;;
     PutUint32 hdr (wrap_uint32 n) ;;;
     rest <- reslice wbuf 4 (slen wbuf) ;;
     _ <- copy rest (list_byte_of_string text) ;;
     err <- write_full wbuf ;;
     match err with
     | Some e0 => ret (Some ("write_all error: " ++ e0)%string)
     | None => ret None
     end) (mkState (mkEndpoint rxs rp txs (Fails e :: tp) cs) h out)
    = Ok (Some ("write_all error: " ++ ("Error writing to socket: " ++ e))%string)
         (mkState (mkEndpoint rxs rp txs tp (cs ++ [EvWrite (4 + String.length text) None]))
                  (h ++ [encodeFrame (list_byte_of_string text)]) out)).
  { run_with ltac:(apply make_Ok; lia).
    run_with ltac:(apply reslice_Ok; cbn [scap]; lia).
    run_with ltac:(apply PutUint32_new; cbn [sarr slen]; [reflexivity | lia]).
    cbn [slen scap sarr sbase].
    run_with ltac:(apply reslice_Ok; cbn [scap]; lia).
    run_with ltac:(apply copy_new; cbn [sarr slen]; [reflexivity | lia]).
    cbn [slen scap sarr sbase].
    rewrite (wrap_uint32_small n) by lia.
    subst n. rewrite <- Hb, frame_buffer.
    run_with ltac:(apply write_full_write_error; cbn [slen scap]; lia).
    cbv beta iota. unfold ret. cbn [slen].
    replace (Z.to_nat (4 + Z.of_nat (List.length (list_byte_of_string text))))
      with (4 + List.length (list_byte_of_string text))%nat by lia.
    reflexivity. }
  rewrite (bind_Ok _ _ _ _ _ Hsend). unfold ret. cbn [final returned conn stdout].
  repeat split; reflexivity.
Qed.

Lemma query_recv_eof_header (hdr : list byte) txs tp cs h out :
  List.length hdr = 4%nat ->
  0 < le_uint32 hdr <= kMaxMsg ->
  query_recv (mkState (mkEndpoint hdr [] txs tp cs) h out) =
  Ok (Some "EOF reading from socket")
     (mkState (mkEndpoint [] [] txs tp
                 (cs ++ [EvRead 4 (Some 4%nat);
                         EvRead (Z.to_nat (le_uint32 hdr)) (Some 0%nat)]))
              (h ++ [store rbuf_client 0 hdr])
              (out ++ [("read() error: " ++ "EOF reading from socket" ++ nl)%string])).
Proof.
  intros Hh HL. rewrite <- (app_nil_r hdr) at 1. client_header Hh.
  set (L := le_uint32 hdr) in *.
  replace (L >? kMaxMsg) with false by (rewrite Z.gtb_ltb; symmetry; apply Z.ltb_ge; lia).
  unfold kMaxMsg in *.
  assert (E : uint32_add 4 L = 4 + L) by (apply wrap_uint32_small; lia).
  rewrite E.
  run_with ltac:(apply reslice_Ok; cbn [scap]; lia).
  run_with ltac:(apply read_full_eof; cbn [scap]; lia).
  cbv beta iota. unfold print at 1. unfold bind at 1. cbn [conn mem stdout].
  unfold ret. rewrite <- app_assoc. reflexivity.
Qed.

Lemma query_recv_eof_at_once txs tp cs h out :
  query_recv (mkState (mkEndpoint [] [] txs tp cs) h out) =
  Ok (Some "EOF reading from socket")
     (mkState (mkEndpoint [] [] txs tp (cs ++ [EvRead 4 (Some 0%nat)]))
              (h ++ [rbuf_client]) out).
Proof.
  unfold query_recv.
  run_with ltac:(apply make_Ok; unfold kMaxMsg; lia).
  run_with ltac:(apply reslice_Ok; cbn [scap]; unfold kMaxMsg; lia).
  run_with ltac:(apply read_full_eof; cbn [scap]; unfold kMaxMsg; lia).
  reflexivity.
Qed.

(** X12. The server closes the connection without answering, or after
    the four bytes of a header that declares a body of 1 to 4096 bytes:
    [query], having sent its request, returns the end-of-stream error.
    In the first case it prints nothing, in the second the read error. *)
Theorem query_response_cut_short (text : string) (hdr : list byte)
    (h : heap) (out : list string) :
  Z.of_nat (String.length text) <= kMaxMsg ->
  List.length hdr = 4%nat ->
  0 < le_uint32 hdr <= kMaxMsg ->
  let request := EvWrite (4 + String.length text) (Some (4 + String.length text)%nat) in
  let silent := query text (mkState (connection [] [] []) h out) in
  let cut := query text (mkState (connection hdr [] []) h out) in
  (returned silent = Some (Some "EOF reading from socket") /\
   calls (conn (final silent)) = [request; EvRead 4 (Some 0%nat)] /\
   tx (conn (final silent)) = encodeFrame (list_byte_of_string text) /\
   stdout (final silent) = out) /\
  (returned cut = Some (Some "EOF reading from socket") /\
   calls (conn (final cut)) =
     [request; EvRead 4 (Some 4%nat); EvRead (Z.to_nat (le_uint32 hdr)) (Some 0%nat)] /\
   tx (conn (final cut)) = encodeFrame (list_byte_of_string text) /\
   stdout (final cut) = out ++ [("read() error: EOF reading from socket" ++ nl)%string]).
Proof.
  intros Htext Hh HL. cbv zeta. unfold connection.
  rewrite !query_whole by exact Htext.
  rewrite query_recv_eof_at_once, query_recv_eof_header by assumption.
  cbn [final returned conn calls tx stdout app]. repeat split; reflexivity.
Qed.

(** ** One exchange, for every request *)

(** X13. For every text of at most 4096 bytes, one exchange between
    [query] and [one_request] over a link that delivers whole: the bytes
    on the wire are the frame of the text; the server prints the text
    and answers with the frame of ["Hello world!!"]; the client prints
    that reply; both return [nil]. *)
Theorem exchange_any_text (text : string) :
  Z.of_nat (String.length text) <= kMaxMsg ->
  let x := exchange text in
  wire_request x = encodeFrame (list_byte_of_string text) /\
  returned (server_result x) = Some None /\
  stdout (final (server_result x)) = [("client says: " ++ text ++ nl)%string] /\
  wire_response x = encodeFrame reply_bytes /\
  returned (client_result x) = Some None /\
  stdout (final (client_result x)) = [("server says: Hello world!!" ++ nl)%string].
Proof.
  intros Hlen. cbv zeta. unfold exchange, start, connection.
  rewrite query_send_whole by (first [exact Hlen | reflexivity]).
  cbn [final conn tx rx rx_plan tx_plan calls mem stdout app].
  assert (Hm : Z.of_nat (List.length (list_byte_of_string text)) <= kMaxMsg)
    by (now rewrite length_list_byte_of_string).
  assert (Hsrv :
    one_request (mkState (mkEndpoint (encodeFrame (list_byte_of_string text)) [] [] [] []) [] [])
    = Ok None
        (mkState (mkEndpoint [] [] ([] ++ encodeFrame reply_bytes) []
                    ([] ++ [EvRead 4 (Some 4%nat)]
                        ++ body_reads (List.length (list_byte_of_string text))
                        ++ [EvWrite 17 (Some 17%nat)]))
                 ([] ++ [store (store rbuf_server 0
                                  (le_bytes32 (Z.of_nat (List.length (list_byte_of_string text)))))
                               4 (list_byte_of_string text)]
                     ++ [encodeFrame reply_bytes])
                 ([] ++ [("client says: "
                          ++ string_of_list_byte (list_byte_of_string text) ++ nl)%string]))).
  { unfold encodeFrame at 1.
    rewrite <- (app_nil_r (list_byte_of_string text)) at 2.
    apply one_request_serves;
      [apply le_bytes32_length | apply encodeFrame_header; exact Hm | exact Hm]. }
  rewrite Hsrv. cbn [final conn tx returned stdout app].
  rewrite string_of_list_byte_of_string.
  assert (Hcli : forall txs cs hh,
    query_recv (mkState (mkEndpoint (encodeFrame reply_bytes) [] txs [] cs) hh [])
    = Ok None
        (mkState (mkEndpoint [] [] txs []
                    (cs ++ [EvRead 4 (Some 4%nat)] ++ body_reads (List.length reply_bytes)))
                 (hh ++ [store (store rbuf_client 0 (le_bytes32 13)) 4 reply_bytes])
                 ([] ++ [("server says: " ++ string_of_list_byte reply_bytes ++ nl)%string]))).
  { intros txs cs hh.
    change (encodeFrame reply_bytes) with (le_bytes32 13 ++ reply_bytes ++ []).
    apply query_recv_decodes; [reflexivity | reflexivity | vm_compute; discriminate]. }
  rewrite Hcli. cbn [final returned stdout app].
  repeat split; reflexivity.
Qed.

(** ** The unframed handler and client *)

Lemma syscall_Read_failed (p : slice) (st st' : state) (n : Z) (e : string) :
  syscall_Read p st = Ok (n, Some e) st' ->
  calls (conn st') = calls (conn st) ++ [EvRead (Z.to_nat (slen p)) None].
Proof.
  unfold syscall_Read.
  destruct (rx_plan (conn st)) as [|[e0|c] plan]; cbn [next_xfer];
    intros H; inversion H; subst; reflexivity.
Qed.

Lemma syscall_Write_failed (p : slice) (st st' : state) (n : Z) (e : string) :
  syscall_Write p st = Ok (n, Some e) st' ->
  calls (conn st') = calls (conn st) ++ [EvWrite (Z.to_nat (slen p)) None].
Proof.
  unfold syscall_Write.
  destruct (tx_plan (conn st)) as [|[e0|c] plan]; cbn [next_xfer];
    intros H; inversion H; subst; reflexivity.
Qed.

Lemma store_all (l data : list byte) :
  List.length data = List.length l -> store l 0 data = data.
Proof.
  intros H. unfold store. cbn [firstn app Nat.add].
  rewrite skipn_all2 by lia. apply app_nil_r.
Qed.

Lemma bytes_literal_Ok (s : string) ep h out :
  bytes_literal s (mkState ep h out) =
  Ok (mkSlice (List.length h) 0 (Z.of_nat (String.length s)) (Z.of_nat (String.length s)))
     (mkState ep (h ++ [list_byte_of_string s]) out).
Proof.
  unfold bytes_literal.
  pose proof (length_list_byte_of_string s) as Hb.
  run_with ltac:(apply make_Ok; lia).
  run_with ltac:(apply copy_new; cbn [sarr slen]; [reflexivity | lia]).
  unfold ret. cbn [sbase]. change (Z.to_nat 0) with 0%nat.
  rewrite store_all by (rewrite repeat_length; lia).
  reflexivity.
Qed.

Lemma granted_le_avail (x : option xfer) (offered avail : nat) :
  (granted x offered avail <= avail)%nat.
Proof. destruct x as [[e|c]|]; cbn [granted]; lia. Qed.

(** One call of [syscall.Read] that does not fail. *)
Lemma syscall_Read_moves (p : slice) rxs rp txs tp cs h out :
  fails_next rp = false ->
  syscall_Read p (mkState (mkEndpoint rxs rp txs tp cs) h out) =
  Ok (Z.of_nat (granted (fst (next_xfer rp)) (Z.to_nat (slen p)) (List.length rxs)), None)
     (mkState (mkEndpoint
                 (skipn (granted (fst (next_xfer rp)) (Z.to_nat (slen p)) (List.length rxs)) rxs)
                 (snd (next_xfer rp)) txs tp
                 (cs ++ [EvRead (Z.to_nat (slen p))
                           (Some (granted (fst (next_xfer rp)) (Z.to_nat (slen p))
                                          (List.length rxs)))]))
              (write_bytes h p
                 (firstn (granted (fst (next_xfer rp)) (Z.to_nat (slen p)) (List.length rxs))
                         rxs))
              out).
Proof.
  destruct rp as [|[e|c] plan]; cbn [fails_next]; intros H;
    [reflexivity | discriminate | reflexivity].
Qed.

(** One call of [syscall.Write] that does not fail. *)
Lemma syscall_Write_moves (p : slice) rxs rp txs tp cs h out :
  fails_next tp = false ->
  syscall_Write p (mkState (mkEndpoint rxs rp txs tp cs) h out) =
  Ok (Z.of_nat (granted (fst (next_xfer tp)) (Z.to_nat (slen p)) (Z.to_nat (slen p))), None)
     (mkState (mkEndpoint rxs rp
                 (txs ++ firstn (granted (fst (next_xfer tp)) (Z.to_nat (slen p))
                                         (Z.to_nat (slen p)))
                                (bytes_of h p))
                 (snd (next_xfer tp))
                 (cs ++ [EvWrite (Z.to_nat (slen p))
                           (Some (granted (fst (next_xfer tp)) (Z.to_nat (slen p))
                                          (Z.to_nat (slen p))))]))
              h out).
Proof.
  destruct tp as [|[e|c] plan]; cbn [fails_next]; intros H;
    [reflexivity | discriminate | reflexivity].
Qed.

(** X14. [handleConnection] always returns, and what it has done is
    fixed by what the kernel does on its one read and its one write.
    It issues one read of 64 bytes. If that read fails, it prints
    ["Error reading from socket: "] and the error, and does nothing
    else: nothing is taken, nothing written. Otherwise the read took
    [k] bytes, at most 64, and it prints one line with [k] and exactly
    those bytes, then issues one write of the 11 bytes of
    ["Hello World"]. If the write fails it prints
    ["Error writing to socket: "] and the error, and nothing was handed
    over. Otherwise the kernel took the first [j] bytes and nothing
    more is printed or called: a short write, [j < 11], is neither
    retried nor reported. *)
Theorem handleConnection_behaviour (st : state) :
  let ep := conn st in
  exists st', handleConnection st = Ok tt st' /\
  match next_xfer (rx_plan ep) with
  | (Some (Fails e), plan) =>
      conn st' = mkEndpoint (rx ep) plan (tx ep) (tx_plan ep)
                            (calls ep ++ [EvRead 64 None]) /\
      stdout st' = stdout st ++ [("Error reading from socket: " ++ e ++ nl)%string]
  | (x, plan) =>
      let k := granted x 64 (List.length (rx ep)) in
      let line := ("Read " ++ fmt_d (Z.of_nat k) ++ " bytes: "
                     ++ string_of_list_byte (firstn k (rx ep)) ++ nl)%string in
      (k <= 64)%nat /\ (k <= List.length (rx ep))%nat /\
      match next_xfer (tx_plan ep) with
      | (Some (Fails e), wplan) =>
          conn st' = mkEndpoint (skipn k (rx ep)) plan (tx ep) wplan
                                (calls ep ++ [EvRead 64 (Some k); EvWrite 11 None]) /\
          stdout st' =
            stdout st ++ [line; ("Error writing to socket: " ++ e ++ nl)%string]
      | (y, wplan) =>
          let j := granted y 11 11 in
          (j <= 11)%nat /\
          conn st' = mkEndpoint (skipn k (rx ep)) plan
                                (tx ep ++ firstn j (list_byte_of_string "Hello World")) wplan
                                (calls ep ++ [EvRead 64 (Some k); EvWrite 11 (Some j)]) /\
          stdout st' = stdout st ++ [line]
      end
  end.
Proof.
  destruct st as [[rxs rp txs tp cs] h out]. cbv zeta.
  cbn [conn rx rx_plan tx tx_plan calls stdout].
  unfold handleConnection.
  run_with ltac:(apply make_Ok; lia).
  destruct (fails_next rp) eqn:Hrp.
  { destruct rp as [|[e|c] plan]; try discriminate. cbn [next_xfer].
    unfold syscall_Read at 1. unfold bind at 1.
    cbn [conn rx rx_plan tx tx_plan calls stdout mem next_xfer snd fst slen].
    unfold print. cbn [conn stdout mem].
    eexists. split; [reflexivity|]. cbn [conn stdout]. split; reflexivity. }
  run_with ltac:(apply syscall_Read_moves; exact Hrp).
  cbn [fst snd slen]. change (Z.to_nat 64) with 64%nat.
  set (k := granted (fst (next_xfer rp)) 64 (List.length rxs)).
  assert (Hk : (k <= 64)%nat) by apply granted_le.
  assert (Hka : (k <= List.length rxs)%nat) by apply granted_le_avail.
  rewrite write_bytes_new by reflexivity.
  run_with ltac:(apply reslice_Ok; cbn [scap]; lia).
  run_with ltac:(apply string_of_new; reflexivity).
  cbn [slen sbase].
  set (data := firstn k rxs).
  assert (Hd : List.length data = k) by (unfold data; rewrite length_firstn; lia).
  replace (Z.to_nat (Z.of_nat k - 0)) with (List.length data) by lia.
  change (Z.to_nat (0 + 0)) with 0%nat. change (Z.to_nat 0) with 0%nat.
  rewrite store_read by (rewrite repeat_length; lia).
  unfold print at 1. unfold bind at 1. cbn [conn mem stdout].
  run_with ltac:(apply bytes_literal_Ok).
  destruct (fails_next tp) eqn:Htp.
  { destruct tp as [|[e|c] wplan]; try discriminate. cbn [next_xfer].
    unfold syscall_Write at 1. unfold bind at 1.
    cbn [conn rx rx_plan tx tx_plan calls stdout mem next_xfer snd fst slen].
    unfold print. cbn [conn stdout mem].
    eexists. split; [reflexivity|]. cbn [conn stdout].
    assert (Hshape :
      match next_xfer rp with
      | (Some (Fails _), _) => False
      | (x, plan) => x = fst (next_xfer rp) /\ plan = snd (next_xfer rp)
      end) by (destruct rp as [|[e0|c0] plan]; [split; reflexivity | discriminate | split; reflexivity]).
    destruct (next_xfer rp) as [[[e0|c0]|] plan]; [contradiction| |];
      destruct Hshape as [-> ->]; cbn [fst snd]; fold k;
      (split; [exact Hk|]); (split; [exact Hka|]);
      rewrite <- !app_assoc; split; reflexivity. }
  run_with ltac:(apply syscall_Write_moves; exact Htp).
  cbn [fst snd slen].
  rewrite bytes_of_new by reflexivity. cbn [slen sbase].
  change (firstn (Z.to_nat (Z.of_nat (String.length "Hello World")))
            (skipn (Z.to_nat 0) (list_byte_of_string "Hello World")))
    with (list_byte_of_string "Hello World").
  change (Z.to_nat (Z.of_nat (String.length "Hello World"))) with 11%nat.
  set (j := granted (fst (next_xfer tp)) 11 11).
  assert (Hj : (j <= 11)%nat) by apply granted_le.
  unfold ret.
  eexists. split; [reflexivity|]. cbn [conn stdout].
  assert (Hshape :
    match next_xfer rp with
    | (Some (Fails _), _) => False
    | (x, plan) => x = fst (next_xfer rp) /\ plan = snd (next_xfer rp)
    end) by (destruct rp as [|[e0|c0] plan]; [split; reflexivity | discriminate | split; reflexivity]).
  assert (Wshape :
    match next_xfer tp with
    | (Some (Fails _), _) => False
    | (x, plan) => x = fst (next_xfer tp) /\ plan = snd (next_xfer tp)
    end) by (destruct tp as [|[e0|c0] plan]; [split; reflexivity | discriminate | split; reflexivity]).
  destruct (next_xfer rp) as [[[e0|c0]|] plan]; [contradiction| |];
    destruct Hshape as [-> ->]; cbn [fst snd]; fold k;
    (split; [exact Hk|]); (split; [exact Hka|]);
    (destruct (next_xfer tp) as [[[e1|c1]|] wplan]; [contradiction| |];
     destruct Wshape as [-> ->]; cbn [fst snd]; fold j;
     (split; [exact Hj|]); rewrite <- !app_assoc; split; reflexivity).
Qed.

Lemma syscall_Read_fails_iff (p : slice) (st st' : state) (n : Z) (e : error) :
  syscall_Read p st = Ok (n, e) st' ->
  fails_next (rx_plan (conn st)) = match e with Some _ => true | None => false end.
Proof.
  unfold syscall_Read.
  destruct (rx_plan (conn st)) as [|[e0|c] plan]; cbn [next_xfer];
    intros H; inversion H; subst; reflexivity.
Qed.

Lemma syscall_Write_fails_iff (p : slice) (st st' : state) (n : Z) (e : error) :
  syscall_Write p st = Ok (n, e) st' ->
  fails_next (tx_plan (conn st)) = match e with Some _ => true | None => false end.
Proof.
  unfold syscall_Write.
  destruct (tx_plan (conn st)) as [|[e0|c] plan]; cbn [next_xfer];
    intros H; inversion H; subst; reflexivity.
Qed.

(** X15. The [main] of the client without framing, once connected,
    always returns, and it closes its socket exactly when neither its
    write nor its read failed: on either error it returns with the
    socket open. After a failed write it issues no read. *)
Theorem plain_client_closes_on_success_only (st : state) :
  exists st', plain_client_main None None st = Ok tt st' /\
  closes (calls (conn st')) =
    (closes (calls (conn st))
     + if fails_next (tx_plan (conn st)) || fails_next (rx_plan (conn st))
       then 0 else 1)%nat /\
  (fails_next (tx_plan (conn st)) = true ->
   calls (conn st') = calls (conn st) ++ [EvWrite 11 None] /\
   rx (conn st') = rx (conn st)).
Proof.
  destruct st as [ep h out]. unfold plain_client_main.
  unfold print at 1. unfold bind at 1. cbn [conn mem stdout].
  run_with ltac:(apply bytes_literal_Ok).
  match goal with |- context [bind (syscall_Write ?p) _ ?s] =>
    destruct (syscall_Write_returns p s) as (w & e1 & st1 & Hw & _) end.
  rewrite (bind_Ok _ _ _ _ _ Hw). cbn [fst snd].
  destruct (syscall_Write_effect _ _ _ _ _ Hw) as (Hrx1 & Hrp1 & _ & _ & _).
  pose proof (syscall_Write_fails_iff _ _ _ _ _ Hw) as Hf1.
  cbn [conn mem stdout slen] in *.
  destruct e1 as [e1|].
  - pose proof (syscall_Write_failed _ _ _ _ _ Hw) as Hc1. cbn [slen conn] in Hc1.
    eexists. split; [reflexivity|]. unfold print. cbn [conn].
    rewrite Hf1, Hc1, Hrx1, closes_app. cbn. repeat split; lia.
  - pose proof (syscall_Write_logged _ _ _ _ Hw) as Hc1. cbn [slen conn] in Hc1.
    destruct st1 as [ep1 h1 out1]. cbn [conn mem stdout] in *.
    run_with ltac:(apply make_Ok; lia).
    match goal with |- context [bind (syscall_Read ?p) _ ?s] =>
      destruct (syscall_Read_returns p s) as (n & e2 & st2 & Hr & Hn) end.
    rewrite (bind_Ok _ _ _ _ _ Hr). cbn [fst snd].
    pose proof (syscall_Read_fails_iff _ _ _ _ _ Hr) as Hf2.
    cbn [conn mem stdout slen] in *. rewrite Hrp1 in Hf2. rewrite Hf1, Hf2.
    destruct e2 as [e2|].
    + pose proof (syscall_Read_failed _ _ _ _ _ Hr) as Hc2. cbn [slen conn] in Hc2.
      eexists. split; [reflexivity|]. unfold print. cbn [conn].
      rewrite Hc2, Hc1, !closes_app. cbn. split; [lia | discriminate].
    + specialize (Hn eq_refl).
      pose proof (syscall_Read_logged _ _ _ _ Hr) as Hc2. cbn [slen conn] in Hc2.
      run_with ltac:(apply reslice_Ok; cbn [scap]; lia).
      eexists. split; [reflexivity|]. cbn [conn syscall_Close calls].
      rewrite Hc2, Hc1, !closes_app. cbn. split; [lia | discriminate].
Qed.

(** ** The server's [main] *)

Lemma served_all_closed_once (incoming : list accepted) (h : heap) (out : list string) :
  (forall sa ep, In (Accepted sa ep) incoming -> closes (calls ep) = 0%nat) ->
  Forall closed_once (served (accept_loop incoming [] h out)) /\
  (ended (accept_loop incoming [] h out) = Blocked ->
   List.length (served (accept_loop incoming [] h out)) = List.length incoming).
Proof.
  intros Hfresh.
  destruct (accept_loop_served incoming [] h out) as (news & Hs & Hf & Hb).
  cbn [app] in Hs. rewrite Hs. split; [|exact Hb].
  assert (Hin : forall a, In a (firstn (List.length news) incoming) ->
                  forall sa ep, a = Accepted sa ep -> closes (calls ep) = 0%nat).
  { intros a Ha sa ep ->. apply (Hfresh sa).
    rewrite <- (firstn_skipn (List.length news) incoming).
    apply in_or_app. now left. }
  clear Hs Hb.
  remember (firstn (List.length news) incoming) as pre eqn:Epre. clear Epre.
  induction Hf as [|a ep' l l' Hh Hrest IH]; constructor.
  - apply (handled_closed_once a); [exact Hh|]. apply Hin. now left.
  - apply IH. intros a' Ha'. apply Hin. now right.
Qed.

(** The loop of [main], statement by statement, does what [accept_loop]
    does, and calls [accept] once more than it has connections done
    with. *)
Lemma accept_connections_run (incoming : list accepted) :
  forall lc done h out ds,
  exists news,
    served (accept_loop incoming done h out) = done ++ news /\
    accept_connections incoming (mkProcess lc done None h out ds) =
    (Leave (left_by (ended (accept_loop incoming done h out))),
     mkProcess (lc ++ repeat SysAccept (S (List.length news)))
               (served (accept_loop incoming done h out))
               (in_hand (accept_loop incoming done h out))
               (run_mem (accept_loop incoming done h out))
               (run_stdout (accept_loop incoming done h out)) ds).
Proof.
  induction incoming as [|a rest IH]; intros lc done h out ds.
  - exists []. cbn. rewrite app_nil_r. split; reflexivity.
  - destruct a as [e|sa ep].
    + exists []. cbn. rewrite app_nil_r. split; reflexivity.
    + rewrite accept_loop_step. cbn [accept_connections].
      unfold bindF at 1. unfold listener_sys, log_call.
      cbn [listener_calls served_conns conn_in_hand proc_mem proc_stdout deferred].
      unfold bindF at 1. unfold on_connection.
      cbn [listener_calls served_conns conn_in_hand proc_mem proc_stdout deferred].
      unfold bind at 1. unfold print at 1. cbn [conn mem stdout]. unfold bind at 1.
      destruct (one_request _) as [e st'|msg st'|st'].
      * unfold syscall_Close. cbn [final conn mem stdout].
        match goal with |- context [accept_loop rest ?d ?m ?o] =>
          destruct (IH (lc ++ [SysAccept]) d m o ds) as (news & Hs & Hrun) end.
        exists (mkEndpoint (rx (conn st')) (rx_plan (conn st')) (tx (conn st'))
                           (tx_plan (conn st')) (calls (conn st') ++ [EvClose]) :: news).
        split; [rewrite Hs, <- app_assoc; reflexivity|].
        rewrite Hrun, <- app_assoc. reflexivity.
      * exists []. cbn. rewrite app_nil_r. split; reflexivity.
      * exists []. cbn. rewrite app_nil_r. split; reflexivity.
Qed.

(** With the listening socket set up, [main] is in its loop with the
    close of the socket deferred. *)
Lemma main_body_loop (ps : list accepted) (h : heap) (out : list string) :
  main_body (mkListenEnv None None None None ps) (mkProcess [] [] None h out []) =
  accept_connections ps
    (mkProcess [SysSocket; SysSetsockopt; SysBind; SysListen] [] None h
               (out ++ [("Redis server listening on 127.0.0.1:8000" ++ nl)%string])
               [DeferCloseListener]).
Proof. reflexivity. Qed.

Lemma closes_listener_app (l l' : list listener_call) :
  closes_listener (l ++ l') = (closes_listener l + closes_listener l')%nat.
Proof. unfold closes_listener. now rewrite filter_app, length_app. Qed.

Lemma closes_listener_accepts (n : nat) : closes_listener (repeat SysAccept n) = 0%nat.
Proof. induction n as [|n IH]; [reflexivity | exact IH]. Qed.

(** X16. The server's [main], with connections that start out not
    closed. When a set-up call fails, [main] prints that call's error
    line and returns, and the calls made on the listening socket are
    exactly those up to the failed one, followed, after a successful
    [socket], by the deferred close as the last call; when [socket]
    itself fails nothing was deferred and nothing is closed. When all
    four succeed, [main] prints that it listens and runs the accept
    loop: it calls [accept] once more than it has connections done
    with, every connection it is done with has been closed once, and
    the deferred close of the listening socket is made, once and as the
    last call, when [main] returns after a failed [accept] or a panic
    unwinds it, and not while the loop waits in [accept], by which time
    it has served every peer. After a panic the connection in hand has
    not been closed. *)
Theorem server_main_descriptors (env : listen_env) (h : heap) (out : list string) :
  (forall sa ep, In (Accepted sa ep) (peers env) -> closes (calls ep) = 0%nat) ->
  let r := server_main env h out in
  let p := at_exit r in
  let set_up_failed (made : list listener_call) (line : string) :=
    how_left r = Returned /\
    listener_calls p = made /\
    proc_stdout p = out ++ [line] /\
    served_conns p = [] /\ conn_in_hand p = None in
  match socket_res env, setsockopt_res env, bind_res env, listen_res env with
  | Some e, _, _, _ =>
      set_up_failed [SysSocket] ("Error creating socket: " ++ e ++ nl)%string
  | None, Some e, _, _ =>
      set_up_failed [SysSocket; SysSetsockopt; SysCloseListener]
                    ("Error setting socket option: " ++ e ++ nl)%string
  | None, None, Some e, _ =>
      set_up_failed [SysSocket; SysSetsockopt; SysBind; SysCloseListener]
                    ("Error binding socket: " ++ e ++ nl)%string
  | None, None, None, Some e =>
      set_up_failed [SysSocket; SysSetsockopt; SysBind; SysListen; SysCloseListener]
                    ("Error listening on socket: " ++ e ++ nl)%string
  | None, None, None, None =>
      let run := accept_loop (peers env) [] h
                   (out ++ [("Redis server listening on 127.0.0.1:8000" ++ nl)%string]) in
      how_left r = left_by (ended run) /\
      served_conns p = served run /\ conn_in_hand p = in_hand run /\
      proc_mem p = run_mem run /\ proc_stdout p = run_stdout run /\
      how_left r <> NoFuel /\
      listener_calls p =
        [SysSocket; SysSetsockopt; SysBind; SysListen]
          ++ repeat SysAccept (S (List.length (served_conns p)))
          ++ match how_left r with
             | InAccept => []
             | _ => [SysCloseListener]
             end /\
      Forall closed_once (served_conns p) /\
      (how_left r = InAccept ->
       closes_listener (listener_calls p) = 0%nat /\
       List.length (served_conns p) = List.length (peers env)) /\
      (how_left r <> InAccept ->
       closes_listener (listener_calls p) = 1%nat /\
       last (listener_calls p) SysSocket = SysCloseListener) /\
      (forall msg, how_left r = Panicking msg ->
       exists ep', conn_in_hand p = Some ep' /\ closes (calls ep') = 0%nat)
  end.
Proof.
  destruct env as [r1 r2 r3 r4 ps]. cbn [socket_res setsockopt_res bind_res listen_res peers].
  intros Hfresh. cbv zeta.
  destruct r1 as [e|]; [cbn; repeat split; reflexivity|].
  destruct r2 as [e|]; [cbn; repeat split; reflexivity|].
  destruct r3 as [e|]; [cbn; repeat split; reflexivity|].
  destruct r4 as [e|]; [cbn; repeat split; reflexivity|].
  unfold server_main, call. rewrite main_body_loop.
  set (out' := out ++ [("Redis server listening on 127.0.0.1:8000" ++ nl)%string]).
  destruct (accept_connections_run ps
              [SysSocket; SysSetsockopt; SysBind; SysListen] [] h out' [DeferCloseListener])
    as (news & Hs & Hrun).
  rewrite Hrun. cbn [app] in Hs.
  destruct (served_all_closed_once ps h out' Hfresh) as (Hclosed & Hall).
  destruct (accept_loop_ending ps [] h out' Hfresh) as (Hfuel & Hhand).
  rewrite <- Hs.
  destruct (ended (accept_loop ps [] h out')) as [| |msg|] eqn:Eend;
    cbn [left_by how_left at_exit unwind fold_left run_deferred log_call
         listener_calls served_conns conn_in_hand proc_mem proc_stdout deferred].
  - repeat (split; [first [reflexivity | discriminate | exact Hclosed]|]).
    split; [rewrite app_nil_r; reflexivity|].
    split; [exact Hclosed|].
    split; [intros _; split; [|apply Hall; reflexivity]|].
    { rewrite closes_listener_app, closes_listener_accepts. reflexivity. }
    split; [intros H; contradiction | intros msg H; discriminate].
  - repeat (split; [first [reflexivity | discriminate]|]).
    split; [exact Hclosed|].
    split; [intros H; discriminate|].
    split; [intros _; split | intros msg H; discriminate].
    + rewrite !closes_listener_app, closes_listener_accepts. reflexivity.
    + apply last_last.
  - repeat (split; [first [reflexivity | discriminate]|]).
    split; [exact Hclosed|].
    split; [intros H; discriminate|].
    split; [intros _; split | intros msg0 _; exact Hhand].
    + rewrite !closes_listener_app, closes_listener_accepts. reflexivity.
    + apply last_last.
  - exfalso. apply Hfuel. reflexivity.
Qed.

(** X17. Neither [one_request] nor [query] closes the descriptor it is
    given, however it ends: closing is left to the caller. *)
Theorem handlers_never_close (text : string) (st : state) :
  closes (calls (conn (final (one_request st)))) = closes (calls (conn st)) /\
  closes (calls (conn (final (query text st)))) = closes (calls (conn st)).
Proof.
  split; [apply keeps_open_one_request | apply keeps_open_query].
Qed.

(** ** The further statements at concrete inputs *)

Lemma read_full_nil_means_filled_witness :
  4 < 2 ^ 63 /\
  fits [[x00; x00; x00; x00]] (mkSlice 0 0 4 4) 4 /\
  returned (read_full (mkSlice 0 0 4 4) 4
              (mkState (connection PING_frame [] []) [[x00; x00; x00; x00]] []))
    = Some None /\
  bytes_of (mem (final (read_full (mkSlice 0 0 4 4) 4
                          (mkState (connection PING_frame [] []) [[x00; x00; x00; x00]] []))))
           (mkSlice 0 0 4 4)
    = [x04; x00; x00; x00].
Proof.
  assert (H1 : 4 < 2 ^ 63) by lia.
  assert (H2 : fits [[x00; x00; x00; x00]] (mkSlice 0 0 4 4) 4)
    by (unfold fits; cbn; lia).
  assert (H3 : returned (read_full (mkSlice 0 0 4 4) 4
                  (mkState (connection PING_frame [] []) [[x00; x00; x00; x00]] []))
               = Some None) by (vm_compute; reflexivity).
  repeat (split; [assumption|]).
  pose proof (read_full_nil_means_filled (mkSlice 0 0 4 4) 4
                (mkState (connection PING_frame [] []) [[x00; x00; x00; x00]] [])
                H1 H2 H3) as W.
  cbv zeta in W. destruct W as (W & _). exact W.
Defined.

Lemma write_full_sends_prefix_witness :
  0 <= sbase (mkSlice 0 0 8 8) /\ slen (mkSlice 0 0 8 8) < 2 ^ 63 /\
  exists k, Z.of_nat k <= Z.max 0 8 /\
    wrote (firstn k PING_frame)
          (mkState (connection [] [] [UpTo 3]) [PING_frame] [])
          (final (write_full (mkSlice 0 0 8 8)
                    (mkState (connection [] [] [UpTo 3]) [PING_frame] []))).
Proof.
  assert (H1 : 0 <= sbase (mkSlice 0 0 8 8)) by (cbn; lia).
  assert (H2 : slen (mkSlice 0 0 8 8) < 2 ^ 63) by (cbn; lia).
  repeat (split; [assumption|]).
  pose proof (write_full_sends_prefix (mkSlice 0 0 8 8)
                (mkState (connection [] [] [UpTo 3]) [PING_frame] []) H1 H2) as W.
  cbv zeta in W. destruct W as (_ & _ & _ & W). exact W.
Defined.

Lemma write_full_nil_means_sent_witness :
  slen (mkSlice 0 0 8 8) < 2 ^ 63 /\
  returned (write_full (mkSlice 0 0 8 8) (mkState (connection [] [] []) [PING_frame] []))
    = Some None /\
  wrote PING_frame
        (mkState (connection [] [] []) [PING_frame] [])
        (final (write_full (mkSlice 0 0 8 8)
                  (mkState (connection [] [] []) [PING_frame] []))).
Proof.
  assert (H1 : slen (mkSlice 0 0 8 8) < 2 ^ 63) by (cbn; lia).
  assert (H2 : returned (write_full (mkSlice 0 0 8 8)
                  (mkState (connection [] [] []) [PING_frame] [])) = Some None)
    by (vm_compute; reflexivity).
  repeat (split; [assumption|]).
  pose proof (write_full_nil_means_sent (mkSlice 0 0 8 8)
                (mkState (connection [] [] []) [PING_frame] []) H1 H2) as W.
  cbv zeta in W. destruct W as (W & _). exact W.
Defined.


Lemma query_write_error_witness :
  Z.of_nat (String.length "PING") <= kMaxMsg /\
  returned (query "PING" (mkState (mkEndpoint [] [] [] [Fails "EPIPE"] []) [] []))
    = Some (Some "write_all error: Error writing to socket: EPIPE").
Proof.
  assert (H : Z.of_nat (String.length "PING") <= kMaxMsg) by (vm_compute; discriminate).
  split; [exact H|].
  exact (proj1 (query_write_error "PING" "EPIPE" [] [] [] [] [] [] [] H)).
Defined.

Lemma query_response_cut_short_witness :
  Z.of_nat (String.length "PING") <= kMaxMsg /\
  List.length (le_bytes32 13) = 4%nat /\
  0 < le_uint32 (le_bytes32 13) <= kMaxMsg /\
  returned (query "PING" (mkState (connection (le_bytes32 13) [] []) [] []))
    = Some (Some "EOF reading from socket").
Proof.
  assert (H1 : Z.of_nat (String.length "PING") <= kMaxMsg) by (vm_compute; discriminate).
  assert (H2 : List.length (le_bytes32 13) = 4%nat) by reflexivity.
  assert (H3 : 0 < le_uint32 (le_bytes32 13) <= kMaxMsg)
    by (vm_compute; split; [reflexivity | discriminate]).
  repeat (split; [assumption|]).
  pose proof (query_response_cut_short "PING" (le_bytes32 13) [] [] H1 H2 H3) as W.
  cbv zeta in W. destruct W as (_ & W & _). exact W.
Defined.

Lemma exchange_any_text_witness :
  Z.of_nat (String.length "GET mykey") <= kMaxMsg /\
  stdout (final (server_result (exchange "GET mykey")))
    = [("client says: GET mykey" ++ nl)%string].
Proof.
  assert (H : Z.of_nat (String.length "GET mykey") <= kMaxMsg)
    by (vm_compute; discriminate).
  split; [exact H|].
  pose proof (exchange_any_text "GET mykey" H) as W.
  cbv zeta in W. destruct W as (_ & _ & W & _). exact W.
Defined.

Lemma server_main_descriptors_witness :
  (forall sa ep, In (Accepted sa ep) (peers busy_then_failing) ->
                 closes (calls ep) = 0%nat) /\
  how_left (server_main busy_then_failing [] []) = Returned /\
  listener_calls (at_exit (server_main busy_then_failing [] [])) =
    [SysSocket; SysSetsockopt; SysBind; SysListen;
     SysAccept; SysAccept; SysAccept; SysAccept; SysCloseListener] /\
  Forall closed_once (served_conns (at_exit (server_main busy_then_failing [] []))).
Proof.
  assert (H : forall sa ep, In (Accepted sa ep) (peers busy_then_failing) ->
                            closes (calls ep) = 0%nat).
  { intros sa ep [E|[E|[E|[E|[]]]]]; inversion E; reflexivity. }
  split; [exact H|].
  pose proof (server_main_descriptors busy_then_failing [] [] H) as W.
  cbv zeta in W. cbn [busy_then_failing socket_res setsockopt_res bind_res listen_res] in W.
  destruct W as (Wl & Ws & _ & _ & _ & _ & Wc & Wf & _).
  assert (El : how_left (server_main busy_then_failing [] []) = Returned)
    by (rewrite Wl; vm_compute; reflexivity).
  assert (En : List.length (served_conns (at_exit (server_main busy_then_failing [] [])))
               = 3%nat)
    by (rewrite Ws; vm_compute; reflexivity).
  split; [exact El|]. split; [|exact Wf].
  rewrite Wc, El, En. reflexivity.
Defined.
